(** * A polyphonic MIDI synthesizer: voices, envelopes and the voice pool

    Shallow embedding of [midi_poly_synth.py] and [mpk_only_synth.py].

    Modelling conventions.
    - Python floats and NumPy float arrays are read as real numbers ([R]) and
      lists of reals: rounding, overflow and NaN are idealised away, every
      operation is the exact one the source writes.
    - Python ints (MIDI note numbers, velocities, the sample rate) are [Z];
      a block length ([frames]) is a [nat], as the audio sink only hands out
      non-negative frame counts.
    - A dict is an association list in insertion order, with the operations of
      a Python dict ([in], [del], item assignment, iteration).
    - A method that may raise returns a [result] next to the object state it
      leaves behind, so that a mutation made before a fault stays visible. *)

From Stdlib Require Import ZArith List Bool Reals Lia Lra.
Import ListNotations.

Set Implicit Arguments.

(** ** Python runtime pieces *)

Module Py.

(** The exception classes the modelled statements can raise.  All but
    [KeyboardInterrupt] derive from [Exception]. *)
Inductive exn : Type :=
| ZeroDivisionError
| ValueError
| KeyError
| IndexError
| KeyboardInterrupt.

Definition isinstance_Exception (e : exn) : bool :=
  match e with
  | KeyboardInterrupt => false
  | _ => true
  end.

Inductive result (A : Type) : Type :=
| Return (a : A)
| Raise (e : exn).
Arguments Return {A} a.
Arguments Raise {A} e.

(** State that survives an exception: [M S A] runs on an object of type [S]
    and yields a value or an exception together with the object afterwards. *)
Definition M (S A : Type) : Type := S -> result A * S.

Definition ret {S A : Type} (a : A) : M S A := fun s => (Return a, s).

Definition raise {S A : Type} (e : exn) : M S A := fun s => (Raise e, s).

Definition bind {S A B : Type} (m : M S A) (k : A -> M S B) : M S B :=
  fun s =>
    match m s with
    | (Return a, s') => k a s'
    | (Raise e, s') => (Raise e, s')
    end.

Definition get {S : Type} : M S S := fun s => (Return s, s).

Definition put {S : Type} (s : S) : M S unit := fun _ => (Return tt, s).

(** [try: m  except Exception: h] *)
Definition try_except_Exception {S A : Type} (m : M S A) (h : M S A) : M S A :=
  fun s =>
    match m s with
    | (Return a, s') => (Return a, s')
    | (Raise e, s') => if isinstance_Exception e then h s' else (Raise e, s')
    end.

Declare Scope py_scope.
Delimit Scope py_scope with py.
Notation "x <- m ;; k" := (bind m (fun x => k))
  (at level 61, m at next level, right associativity) : py_scope.
Notation "m ;;; k" := (bind m (fun _ => k))
  (at level 61, right associativity) : py_scope.

(** *** dict with int keys *)

Definition dict (V : Type) : Type := list (Z * V).

Section Dict.
Variable V : Type.

Definition dict_keys (d : dict V) : list Z := map fst d.

(** [k in d] *)
Definition dict_mem (k : Z) (d : dict V) : bool :=
  existsb (fun kv => (fst kv =? k)%Z) d.

(** [d[k]], [None] standing for an absent key *)
Fixpoint dict_get (k : Z) (d : dict V) : option V :=
  match d with
  | [] => None
  | (k', v) :: rest => if (k' =? k)%Z then Some v else dict_get k rest
  end.

Fixpoint dict_remove (k : Z) (d : dict V) : dict V :=
  match d with
  | [] => []
  | (k', v) :: rest =>
      if (k' =? k)%Z then rest else (k', v) :: dict_remove k rest
  end.

(** [del d[k]]: raises [KeyError] on an absent key *)
Definition dict_del (k : Z) : M (dict V) unit :=
  fun d => if dict_mem k d then (Return tt, dict_remove k d)
           else (Raise KeyError, d).

(** [d[k] = v]: an existing key keeps its place, a new key goes last *)
Fixpoint dict_set (k : Z) (v : V) (d : dict V) : dict V :=
  match d with
  | [] => [(k, v)]
  | (k', v') :: rest =>
      if (k' =? k)%Z then (k, v) :: rest else (k', v') :: dict_set k v rest
  end.
End Dict.

(** [min(keys)]: raises [ValueError] on an empty sequence *)
Definition py_min (l : list Z) : result Z :=
  match l with
  | [] => Raise ValueError
  | x :: rest => Return (fold_left Z.min rest x)
  end.

Local Open Scope R_scope.

(** [x % m] on floats: the result takes the sign of [m] (floored division).
    The source only uses the moduli [1.0] and [2 * np.pi]. *)
Definition py_mod (x m : R) : R := x - IZR (Int_part (x / m)) * m.

(** [np.sign] *)
Definition np_sign (x : R) : R :=
  if Rlt_dec 0 x then 1 else if Rlt_dec x 0 then -1 else 0.

(** [a += b] on two blocks of one length *)
Definition np_add (a b : list R) : list R :=
  map (fun p => fst p + snd p) (combine a b).

(** *** a two-dimensional array, as the sink's [outdata] *)

Record ndarray : Type := mk_ndarray {
  nrows : nat;
  ncols : nat;
  cell : nat -> nat -> R
}.

(** [out[:, j] = audio]: the column must exist, and [audio] must have one
    entry per row or a single entry that is broadcast. *)
Definition set_column (j : nat) (audio : list R) : M ndarray unit :=
  fun out =>
    if (ncols out <=? j)%nat then (Raise IndexError, out)
    else if (length audio =? nrows out)%nat then
      (Return tt,
       mk_ndarray (nrows out) (ncols out)
         (fun i c => if (c =? j)%nat then nth i audio 0 else cell out i c))
    else if (length audio =? 1)%nat then
      (Return tt,
       mk_ndarray (nrows out) (ncols out)
         (fun i c => if (c =? j)%nat then nth 0 audio 0 else cell out i c))
    else (Raise ValueError, out).

(** [out.fill(x)] *)
Definition fill (x : R) (out : ndarray) : ndarray :=
  mk_ndarray (nrows out) (ncols out) (fun _ _ => x).

End Py.
Import Py.

(** ** The envelope phases ('attack', 'decay', 'sustain', 'release',
    'finished') *)
Inductive env_phase : Type := Attack | Decay | Sustain | Release | Finished.

Definition env_phase_eqb (a b : env_phase) : bool :=
  match a, b with
  | Attack, Attack | Decay, Decay | Sustain, Sustain
  | Release, Release | Finished, Finished => true
  | _, _ => false
  end.

(** The [envelope_params] / [synth_params] dict handed to a voice *)
Record envelope_params : Type := mk_envelope_params {
  attack : R;
  decay : R;
  sustain : R;
  release_ : R
}.

(** ** class PolyphonicVoice (midi_poly_synth.py) *)

Module PolyphonicVoice.
Local Open Scope R_scope.

Record t : Type := mk {
  note : Z;
  velocity : R;
  frequency : R;
  phase : R;
  sample_rate : Z;
  attack_time : R;
  decay_time : R;
  sustain_level : R;
  release_time : R;
  envelope_phase : env_phase;
  envelope_value : R;
  envelope_timer : R;
  releasing : bool;
  filter_state : R
}.

Definition with_phase (x : R) (self : t) : t :=
  mk (note self) (velocity self) (frequency self) x (sample_rate self)
     (attack_time self) (decay_time self) (sustain_level self)
     (release_time self) (envelope_phase self) (envelope_value self)
     (envelope_timer self) (releasing self) (filter_state self).

Definition with_envelope_phase (x : env_phase) (self : t) : t :=
  mk (note self) (velocity self) (frequency self) (phase self)
     (sample_rate self) (attack_time self) (decay_time self)
     (sustain_level self) (release_time self) x (envelope_value self)
     (envelope_timer self) (releasing self) (filter_state self).

Definition with_envelope_value (x : R) (self : t) : t :=
  mk (note self) (velocity self) (frequency self) (phase self)
     (sample_rate self) (attack_time self) (decay_time self)
     (sustain_level self) (release_time self) (envelope_phase self) x
     (envelope_timer self) (releasing self) (filter_state self).

Definition with_envelope_timer (x : R) (self : t) : t :=
  mk (note self) (velocity self) (frequency self) (phase self)
     (sample_rate self) (attack_time self) (decay_time self)
     (sustain_level self) (release_time self) (envelope_phase self)
     (envelope_value self) x (releasing self) (filter_state self).

Definition with_releasing (x : bool) (self : t) : t :=
  mk (note self) (velocity self) (frequency self) (phase self)
     (sample_rate self) (attack_time self) (decay_time self)
     (sustain_level self) (release_time self) (envelope_phase self)
     (envelope_value self) (envelope_timer self) x (filter_state self).

Definition with_filter_state (x : R) (self : t) : t :=
  mk (note self) (velocity self) (frequency self) (phase self)
     (sample_rate self) (attack_time self) (decay_time self)
     (sustain_level self) (release_time self) (envelope_phase self)
     (envelope_value self) (envelope_timer self) (releasing self) x.

(** [__init__] *)
Definition init (note velocity sample_rate : Z) (envelope_params : envelope_params) : t :=
  {| note := note;
     velocity := IZR velocity / 127;
     frequency := 440 * Rpower 2 ((IZR note - 69) / 12);
     phase := 0;
     sample_rate := sample_rate;
     attack_time := attack envelope_params;
     decay_time := decay envelope_params;
     sustain_level := sustain envelope_params;
     release_time := release_ envelope_params;
     envelope_phase := Attack;
     envelope_value := 0;
     envelope_timer := 0;
     releasing := false;
     filter_state := 0 |}.

Definition release (self : t) : t :=
  let self := with_releasing true self in
  let self := with_envelope_phase Release self in
  with_envelope_timer 0 self.

Definition is_finished (self : t) : bool :=
  env_phase_eqb (envelope_phase self) Finished.

(** [update_envelope]: [frames / self.sample_rate] divides by an int and
    raises when it is zero, before anything is written. *)
Definition update_envelope (frames : nat) : M t R := fun self =>
  if (sample_rate self =? 0)%Z then (Raise ZeroDivisionError, self) else
  let dt := INR frames / IZR (sample_rate self) in
  let self := with_envelope_timer (envelope_timer self + dt) self in
  let self :=
    match envelope_phase self with
    | Attack =>
        if Rlt_dec 0 (attack_time self) then
          let progress := Rmin 1 (envelope_timer self / attack_time self) in
          let self := with_envelope_value progress self in
          if Rge_dec progress 1 then
            let self := with_envelope_phase Decay self in
            with_envelope_timer 0 self
          else self
        else
          let self := with_envelope_value 1 self in
          with_envelope_phase Decay self
    | Decay =>
        if Rlt_dec 0 (decay_time self) then
          let progress := Rmin 1 (envelope_timer self / decay_time self) in
          let self :=
            with_envelope_value (1 - progress * (1 - sustain_level self)) self in
          if Rge_dec progress 1 then with_envelope_phase Sustain self
          else self
        else
          let self := with_envelope_value (sustain_level self) self in
          with_envelope_phase Sustain self
    | Sustain => with_envelope_value (sustain_level self) self
    | Release =>
        if Rlt_dec 0 (release_time self) then
          let progress := Rmin 1 (envelope_timer self / release_time self) in
          let self :=
            with_envelope_value (sustain_level self * (1 - progress)) self in
          if Rge_dec progress 1 then with_envelope_phase Finished self
          else self
        else with_envelope_phase Finished self
    | Finished => self
    end in
  (Return (envelope_value self), self).

(** The pieces of [generate], in the order the method computes them. *)

Definition detuned_freq (self : t) (detune : R) : R :=
  frequency self * Rpower 2 (detune / 1200).

Definition phase_increment (self : t) (detune : R) : R :=
  2 * PI * detuned_freq self detune / IZR (sample_rate self).

(** [self.phase + np.arange(frames) * phase_increment] *)
Definition phases (self : t) (frames : nat) (detune : R) : list R :=
  map (fun i => phase self + INR i * phase_increment self detune)
      (seq 0 frames).

(** The waveform chain, at one entry of the phase array *)
Definition waveform_sample (waveform : Z) (x : R) : R :=
  if (waveform =? 1)%Z then np_sign (sin x)
  else if (waveform =? 2)%Z then 2 * py_mod (x / (2 * PI)) 1 - 1
  else if (waveform =? 3)%Z then
    let norm_phase := py_mod (x / (2 * PI)) 1 in
    2 * Rabs (2 * norm_phase - 1) - 1
  else sin x.

(** [audio] right after the waveform chain: the raw oscillator block *)
Definition oscillator (self : t) (frames : nat) (waveform : Z) (detune : R)
  : list R :=
  map (waveform_sample waveform) (phases self frames detune).

(** The filter loop [for i in range(frames)], threading [filter_state] *)
Fixpoint filter_loop (alpha : R) (audio : list R) (state : R) : list R * R :=
  match audio with
  | [] => ([], state)
  | x :: rest =>
      let state := alpha * x + (1 - alpha) * state in
      let (ys, final) := filter_loop alpha rest state in
      (state :: ys, final)
  end.

Definition filter_applies (waveform : Z) (filter_cutoff : R) : bool :=
  (if Rlt_dec filter_cutoff 6000 then true else false)
  && ((waveform =? 1)%Z || (waveform =? 2)%Z).

Definition generate (frames : nat) (waveform : Z) (filter_cutoff detune : R)
  : M t (list R) := fun self =>
  if is_finished self then (Return (repeat 0 frames), self) else
  if (sample_rate self =? 0)%Z then (Raise ZeroDivisionError, self) else
  let phase_increment := phase_increment self detune in
  let audio := oscillator self frames waveform detune in
  let self :=
    with_phase (py_mod (phase self + INR frames * phase_increment) (2 * PI))
               self in
  let (audio, self) :=
    if filter_applies waveform filter_cutoff then
      let alpha := Rmin 0.5 (filter_cutoff / 6000) in
      let (ys, state) := filter_loop alpha audio (filter_state self) in
      (ys, with_filter_state state self)
    else (audio, self) in
  match update_envelope frames self with
  | (Raise e, self) => (Raise e, self)
  | (Return envelope, self) =>
      (Return (map (fun x => x * (envelope * velocity self)) audio), self)
  end.

End PolyphonicVoice.

(** ** class MPKVoice (mpk_only_synth.py) *)

Module MPKVoice.
Local Open Scope R_scope.

Record t : Type := mk {
  note : Z;
  velocity : R;
  frequency : R;
  phase : R;
  sample_rate : Z;
  attack_time : R;
  decay_time : R;
  sustain_level : R;
  release_time : R;
  envelope_phase : env_phase;
  envelope_value : R;
  envelope_timer : R;
  releasing : bool;
  filter_state : R
}.

Definition with_phase (x : R) (self : t) : t :=
  mk (note self) (velocity self) (frequency self) x (sample_rate self)
     (attack_time self) (decay_time self) (sustain_level self)
     (release_time self) (envelope_phase self) (envelope_value self)
     (envelope_timer self) (releasing self) (filter_state self).

Definition with_envelope_phase (x : env_phase) (self : t) : t :=
  mk (note self) (velocity self) (frequency self) (phase self)
     (sample_rate self) (attack_time self) (decay_time self)
     (sustain_level self) (release_time self) x (envelope_value self)
     (envelope_timer self) (releasing self) (filter_state self).

Definition with_envelope_value (x : R) (self : t) : t :=
  mk (note self) (velocity self) (frequency self) (phase self)
     (sample_rate self) (attack_time self) (decay_time self)
     (sustain_level self) (release_time self) (envelope_phase self) x
     (envelope_timer self) (releasing self) (filter_state self).

Definition with_envelope_timer (x : R) (self : t) : t :=
  mk (note self) (velocity self) (frequency self) (phase self)
     (sample_rate self) (attack_time self) (decay_time self)
     (sustain_level self) (release_time self) (envelope_phase self)
     (envelope_value self) x (releasing self) (filter_state self).

Definition with_releasing (x : bool) (self : t) : t :=
  mk (note self) (velocity self) (frequency self) (phase self)
     (sample_rate self) (attack_time self) (decay_time self)
     (sustain_level self) (release_time self) (envelope_phase self)
     (envelope_value self) (envelope_timer self) x (filter_state self).

Definition with_filter_state (x : R) (self : t) : t :=
  mk (note self) (velocity self) (frequency self) (phase self)
     (sample_rate self) (attack_time self) (decay_time self)
     (sustain_level self) (release_time self) (envelope_phase self)
     (envelope_value self) (envelope_timer self) (releasing self) x.

(** [__init__] *)
Definition init (note velocity sample_rate : Z) (synth_params : envelope_params) : t :=
  {| note := note;
     velocity := IZR velocity / 127;
     frequency := 440 * Rpower 2 ((IZR note - 69) / 12);
     phase := 0;
     sample_rate := sample_rate;
     attack_time := attack synth_params;
     decay_time := decay synth_params;
     sustain_level := sustain synth_params;
     release_time := release_ synth_params;
     envelope_phase := Attack;
     envelope_value := 0;
     envelope_timer := 0;
     releasing := false;
     filter_state := 0 |}.

Definition release (self : t) : t :=
  let self := with_releasing true self in
  let self := with_envelope_phase Release self in
  with_envelope_timer 0 self.

Definition is_finished (self : t) : bool :=
  env_phase_eqb (envelope_phase self) Finished.

(** [update_envelope]: [frames / self.sample_rate] divides by an int and
    raises when it is zero, before anything is written. *)
Definition update_envelope (frames : nat) : M t R := fun self =>
  if (sample_rate self =? 0)%Z then (Raise ZeroDivisionError, self) else
  let dt := INR frames / IZR (sample_rate self) in
  let self := with_envelope_timer (envelope_timer self + dt) self in
  let self :=
    match envelope_phase self with
    | Attack =>
        if Rlt_dec 0 (attack_time self) then
          let progress := Rmin 1 (envelope_timer self / attack_time self) in
          let self := with_envelope_value progress self in
          if Rge_dec progress 1 then
            let self := with_envelope_phase Decay self in
            with_envelope_timer 0 self
          else self
        else
          let self := with_envelope_value 1 self in
          with_envelope_phase Decay self
    | Decay =>
        if Rlt_dec 0 (decay_time self) then
          let progress := Rmin 1 (envelope_timer self / decay_time self) in
          let self :=
            with_envelope_value (1 - progress * (1 - sustain_level self)) self in
          if Rge_dec progress 1 then with_envelope_phase Sustain self
          else self
        else
          let self := with_envelope_value (sustain_level self) self in
          with_envelope_phase Sustain self
    | Sustain => with_envelope_value (sustain_level self) self
    | Release =>
        if Rlt_dec 0 (release_time self) then
          let progress := Rmin 1 (envelope_timer self / release_time self) in
          let self :=
            with_envelope_value (sustain_level self * (1 - progress)) self in
          if Rge_dec progress 1 then with_envelope_phase Finished self
          else self
        else with_envelope_phase Finished self
    | Finished => self
    end in
  (Return (envelope_value self), self).

(** The pieces of [generate], in the order the method computes them. *)

Definition detuned_freq (self : t) (detune : R) : R :=
  frequency self * Rpower 2 (detune / 1200).

Definition phase_increment (self : t) (detune : R) : R :=
  2 * PI * detuned_freq self detune / IZR (sample_rate self).

(** [self.phase + np.arange(frames) * phase_increment] *)
Definition phases (self : t) (frames : nat) (detune : R) : list R :=
  map (fun i => phase self + INR i * phase_increment self detune)
      (seq 0 frames).

(** The waveform chain, at one entry of the phase array *)
Definition waveform_sample (waveform : Z) (x : R) : R :=
  if (waveform =? 1)%Z then np_sign (sin x)
  else if (waveform =? 2)%Z then 2 * py_mod (x / (2 * PI)) 1 - 1
  else if (waveform =? 3)%Z then
    let norm_phase := py_mod (x / (2 * PI)) 1 in
    2 * Rabs (2 * norm_phase - 1) - 1
  else sin x.

(** [audio] right after the waveform chain: the raw oscillator block *)
Definition oscillator (self : t) (frames : nat) (waveform : Z) (detune : R)
  : list R :=
  map (waveform_sample waveform) (phases self frames detune).

(** The filter loop [for i in range(frames)], threading [filter_state] *)
Fixpoint filter_loop (alpha : R) (audio : list R) (state : R) : list R * R :=
  match audio with
  | [] => ([], state)
  | x :: rest =>
      let state := alpha * x + (1 - alpha) * state in
      let (ys, final) := filter_loop alpha rest state in
      (state :: ys, final)
  end.

Definition filter_applies (waveform : Z) (filter_cutoff : R) : bool :=
  (if Rlt_dec filter_cutoff 6000 then true else false)
  && ((waveform =? 1)%Z || (waveform =? 2)%Z).

Definition generate (frames : nat) (waveform : Z) (filter_cutoff detune : R)
  : M t (list R) := fun self =>
  if is_finished self then (Return (repeat 0 frames), self) else
  if (sample_rate self =? 0)%Z then (Raise ZeroDivisionError, self) else
  let phase_increment := phase_increment self detune in
  let audio := oscillator self frames waveform detune in
  let self :=
    with_phase (py_mod (phase self + INR frames * phase_increment) (2 * PI))
               self in
  let (audio, self) :=
    if filter_applies waveform filter_cutoff then
      let alpha := Rmin 0.5 (filter_cutoff / 6000) in
      let (ys, state) := filter_loop alpha audio (filter_state self) in
      (ys, with_filter_state state self)
    else (audio, self) in
  match update_envelope frames self with
  | (Raise e, self) => (Raise e, self)
  | (Return envelope, self) =>
      (Return (map (fun x => x * (envelope * velocity self)) audio), self)
  end.

End MPKVoice.

(** ** Voice management and block rendering

    [FourPotMIDISynth] and [MPKOnlySynth] carry the same [note_on],
    [note_off] and [audio_callback] bodies, over [PolyphonicVoice] and
    [MPKVoice] objects respectively; the bodies are written once here over
    the voice class and instantiated in the two synth modules below. *)

Module Engine.
Section WithVoice.
Local Open Scope R_scope.
Local Open Scope py_scope.

Variable V : Type.
Variable voice_release : V -> V.
Variable voice_is_finished : V -> bool.
Variable voice_generate : nat -> Z -> R -> R -> M V (list R).

(** [note_on], from "Remove old voice if note is already playing" on;
    [new_voice] is the voice object the last statement constructs. *)
Definition note_on (max_voices note : Z) (new_voice : V)
  : M (dict V) unit :=
  voices <- get ;;
  (if dict_mem note voices then dict_del note else ret tt) ;;;
  voices <- get ;;
  (if (Z.of_nat (length voices) >=? max_voices)%Z then
     fun voices =>
       match py_min (dict_keys voices) with
       | Raise e => (Raise e, voices)
       | Return oldest_note => dict_del oldest_note voices
       end
   else ret tt) ;;;
  voices <- get ;;
  put (dict_set note new_voice voices).

(** [note_off]: the voice object stored under [note] is released in place *)
Definition note_off (note : Z) : M (dict V) unit :=
  voices <- get ;;
  if dict_mem note voices then
    match dict_get note voices with
    | Some voice => put (dict_set note (voice_release voice) voices)
    | None => raise KeyError
    end
  else ret tt.

(** The mixing loop [for note, voice in self.voices.items()]: each voice
    met is rendered in place; a fault leaves the voices already rendered
    advanced and the remaining ones untouched. *)
Fixpoint mix_voices (frames : nat) (waveform : Z) (filter_cutoff detune : R)
         (audio : list R) (voices_to_remove : list Z) (items : dict V)
  : result (list R * list Z) * dict V :=
  match items with
  | [] => (Return (audio, voices_to_remove), [])
  | (note, voice) :: rest =>
      if voice_is_finished voice then
        let (r, rest') :=
          mix_voices frames waveform filter_cutoff detune audio
                     (voices_to_remove ++ [note]) rest in
        (r, (note, voice) :: rest')
      else
        match voice_generate frames waveform filter_cutoff detune voice with
        | (Raise e, voice') => (Raise e, (note, voice') :: rest)
        | (Return voice_audio, voice') =>
            let (r, rest') :=
              mix_voices frames waveform filter_cutoff detune
                         (np_add audio voice_audio) voices_to_remove rest in
            (r, (note, voice') :: rest')
        end
  end.

(** [for note in voices_to_remove: del self.voices[note]] *)
Fixpoint remove_voices (voices_to_remove : list Z) : M (dict V) unit :=
  match voices_to_remove with
  | [] => ret tt
  | note :: rest => dict_del note ;;; remove_voices rest
  end.

(** Run a computation on the first / second component of a pair state. *)
Definition on_fst {S T A : Type} (m : M S A) : M (S * T) A :=
  fun st => let (r, s') := m (fst st) in (r, (s', snd st)).
Definition on_snd {S T A : Type} (m : M T A) : M (S * T) A :=
  fun st => let (r, t') := m (snd st) in (r, (fst st, t')).

(** The [try] suite of [audio_callback], on the voice pool and [outdata] *)
Definition render (frames : nat) (waveform : Z)
           (filter_cutoff detune master_volume : R)
  : M (dict V * ndarray) unit :=
  let audio := repeat 0 frames in
  mixed <- on_fst (mix_voices frames waveform filter_cutoff detune audio []) ;;
  let (audio, voices_to_remove) := mixed : list R * list Z in
  on_fst (remove_voices voices_to_remove) ;;;
  let audio := map (fun x => x * master_volume) audio in
  let audio := map (fun x => tanh (x * 0.7) * 1.2) audio in
  on_snd (set_column 0 audio) ;;;
  on_snd (set_column 1 audio).

(** [audio_callback]: [try: ... except Exception: outdata.fill(0)] *)
Definition audio_callback (frames : nat) (waveform : Z)
           (filter_cutoff detune master_volume : R)
  : M (dict V * ndarray) unit :=
  try_except_Exception
    (render frames waveform filter_cutoff detune master_volume)
    (fun st => (Return tt, (fst st, fill 0 (snd st)))).
End WithVoice.
End Engine.

(** ** class FourPotMIDISynth (midi_poly_synth.py)

    The hardware handles (ADS1115 channels, MIDI port, threads) are external
    collaborators; the record keeps the synthesis parameters and the pool. *)

Module FourPotMIDISynth.
Local Open Scope R_scope.

Record t : Type := mk {
  sample_rate : Z;
  blocksize : Z;
  master_volume : R;
  waveform : Z;
  filter_cutoff : R;
  envelope_control : R;
  detune : R;
  voices : dict PolyphonicVoice.t;
  max_voices : Z
}.

Definition with_voices (x : dict PolyphonicVoice.t) (self : t) : t :=
  mk (sample_rate self) (blocksize self) (master_volume self) (waveform self)
     (filter_cutoff self) (envelope_control self) (detune self) x
     (max_voices self).

Definition with_detune (x : R) (self : t) : t :=
  mk (sample_rate self) (blocksize self) (master_volume self) (waveform self)
     (filter_cutoff self) (envelope_control self) x (voices self)
     (max_voices self).

Definition with_pots (volume : R) (wave : Z) (cutoff env : R) (self : t) : t :=
  mk (sample_rate self) (blocksize self) volume wave cutoff env (detune self)
     (voices self) (max_voices self).

(** [__init__] *)
Definition init (sample_rate blocksize : Z) : t :=
  {| sample_rate := sample_rate;
     blocksize := blocksize;
     master_volume := 0.5;
     waveform := 0;
     filter_cutoff := 1000;
     envelope_control := 0.5;
     detune := 0;
     voices := [];
     max_voices := 12 |}.

Definition get_envelope_params (self : t) : envelope_params :=
  let base_attack := 0.01 in
  let base_decay := 0.1 in
  let base_sustain := 0.7 in
  let base_release := 0.3 in
  let scale := 0.1 + envelope_control self * 4 in
  {| attack := base_attack * scale;
     decay := base_decay * scale;
     sustain := base_sustain;
     release_ := base_release * scale |}.

Definition handle_cc (controller value : Z) (self : t) : t :=
  if (controller =? 70)%Z then with_detune (IZR ((value - 64) * 2)) self
  else if (controller =? 71)%Z then self
  else self.

Definition note_on (note velocity : Z) : M t unit := fun self =>
  let envelope_params := get_envelope_params self in
  let (r, voices) :=
    Engine.note_on (max_voices self) note
      (PolyphonicVoice.init note velocity (sample_rate self) envelope_params)
      (voices self) in
  (r, with_voices voices self).

Definition note_off (note : Z) : M t unit := fun self =>
  let (r, voices) := Engine.note_off PolyphonicVoice.release note (voices self) in
  (r, with_voices voices self).

(** [midi_callback], on the bytes of the message *)
Definition midi_callback (msg : list Z) : M t unit :=
  try_except_Exception
    (match msg with
     | status :: note :: velocity :: _ =>
         if ((144 <=? status) && (status <=? 159) && (velocity >? 0))%Z then
           note_on note velocity
         else if (((128 <=? status) && (status <=? 143))
                  || ((144 <=? status) && (status <=? 159)
                      && (velocity =? 0)))%Z then
           note_off note
         else if ((176 <=? status) && (status <=? 191))%Z then
           fun self => (Return tt, handle_cc note velocity self)
         else ret tt
     | _ => ret tt
     end)
    (ret tt).

(** One pass of the loop of [read_potentiometers_thread], on the four raw
    converter readings *)
Definition read_potentiometers (vol_raw wave_raw filter_raw env_raw : Z)
           (self : t) : t :=
  let vol_norm := (IZR vol_raw - 3) / (26335 - 3) in
  let vol_norm := Rmax 0 (Rmin 1 vol_norm) in
  let wave_norm := (IZR wave_raw - 4) / (26333 - 4) in
  let wave_norm := Rmax 0 (Rmin 1 wave_norm) in
  let wave :=
    if Rlt_dec wave_norm 0.25 then 0%Z
    else if Rlt_dec wave_norm 0.5 then 1%Z
    else if Rlt_dec wave_norm 0.75 then 2%Z
    else 3%Z in
  let filter_norm := (IZR filter_raw - 15) / (26323 - 15) in
  let filter_norm := Rmax 0 (Rmin 1 filter_norm) in
  let env_norm := (IZR env_raw - 15) / (26320 - 15) in
  let env_norm := Rmax 0 (Rmin 1 env_norm) in
  with_pots (vol_norm * 0.8) wave (200 + filter_norm * 7800) env_norm self.

Definition audio_callback (frames : nat) : M (t * ndarray) unit := fun st =>
  let (self, outdata) := st in
  let (r, st') :=
    Engine.audio_callback PolyphonicVoice.is_finished PolyphonicVoice.generate
      frames (waveform self) (filter_cutoff self) (detune self)
      (master_volume self) (voices self, outdata) in
  (r, (with_voices (fst st') self, snd st')).

(** A call made on the synth by one of its drivers: the MIDI thread, the
    potentiometer thread or the audio sink.  A fault escaping a method is
    dropped by the driver, the object keeps the state the method left. *)
Inductive call : Type :=
| NoteOn (note velocity : Z)
| NoteOff (note : Z)
| HandleCC (controller value : Z)
| MidiCallback (msg : list Z)
| ReadPotentiometers (vol_raw wave_raw filter_raw env_raw : Z)
| AudioCallback (outdata : ndarray) (frames : nat).

Definition exec (c : call) (self : t) : t :=
  match c with
  | NoteOn note velocity => snd (note_on note velocity self)
  | NoteOff note => snd (note_off note self)
  | HandleCC controller value => handle_cc controller value self
  | MidiCallback msg => snd (midi_callback msg self)
  | ReadPotentiometers vol_raw wave_raw filter_raw env_raw =>
      read_potentiometers vol_raw wave_raw filter_raw env_raw self
  | AudioCallback outdata frames =>
      fst (snd (audio_callback frames (self, outdata)))
  end.

Definition run (calls : list call) (self : t) : t :=
  fold_left (fun self c => exec c self) calls self.

End FourPotMIDISynth.

(** ** class MPKOnlySynth (mpk_only_synth.py) *)

Module MPKOnlySynth.
Local Open Scope R_scope.

Record t : Type := mk {
  sample_rate : Z;
  blocksize : Z;
  master_volume : R;
  waveform : Z;
  filter_cutoff : R;
  attack_time : R;
  decay_time : R;
  sustain_level : R;
  release_time : R;
  detune : R;
  voices : dict MPKVoice.t;
  max_voices : Z
}.

Definition with_voices (x : dict MPKVoice.t) (self : t) : t :=
  mk (sample_rate self) (blocksize self) (master_volume self) (waveform self)
     (filter_cutoff self) (attack_time self) (decay_time self)
     (sustain_level self) (release_time self) (detune self) x
     (max_voices self).

Definition with_master_volume (x : R) (self : t) : t :=
  mk (sample_rate self) (blocksize self) x (waveform self)
     (filter_cutoff self) (attack_time self) (decay_time self)
     (sustain_level self) (release_time self) (detune self) (voices self)
     (max_voices self).

Definition with_waveform (x : Z) (self : t) : t :=
  mk (sample_rate self) (blocksize self) (master_volume self) x
     (filter_cutoff self) (attack_time self) (decay_time self)
     (sustain_level self) (release_time self) (detune self) (voices self)
     (max_voices self).

Definition with_filter_cutoff (x : R) (self : t) : t :=
  mk (sample_rate self) (blocksize self) (master_volume self) (waveform self)
     x (attack_time self) (decay_time self)
     (sustain_level self) (release_time self) (detune self) (voices self)
     (max_voices self).

Definition with_attack_time (x : R) (self : t) : t :=
  mk (sample_rate self) (blocksize self) (master_volume self) (waveform self)
     (filter_cutoff self) x (decay_time self)
     (sustain_level self) (release_time self) (detune self) (voices self)
     (max_voices self).

Definition with_decay_time (x : R) (self : t) : t :=
  mk (sample_rate self) (blocksize self) (master_volume self) (waveform self)
     (filter_cutoff self) (attack_time self) x
     (sustain_level self) (release_time self) (detune self) (voices self)
     (max_voices self).

Definition with_sustain_level (x : R) (self : t) : t :=
  mk (sample_rate self) (blocksize self) (master_volume self) (waveform self)
     (filter_cutoff self) (attack_time self) (decay_time self)
     x (release_time self) (detune self) (voices self)
     (max_voices self).

Definition with_release_time (x : R) (self : t) : t :=
  mk (sample_rate self) (blocksize self) (master_volume self) (waveform self)
     (filter_cutoff self) (attack_time self) (decay_time self)
     (sustain_level self) x (detune self) (voices self)
     (max_voices self).

Definition with_detune (x : R) (self : t) : t :=
  mk (sample_rate self) (blocksize self) (master_volume self) (waveform self)
     (filter_cutoff self) (attack_time self) (decay_time self)
     (sustain_level self) (release_time self) x (voices self)
     (max_voices self).

(** [__init__] *)
Definition init (sample_rate blocksize : Z) : t :=
  {| sample_rate := sample_rate;
     blocksize := blocksize;
     master_volume := 0.5;
     waveform := 0;
     filter_cutoff := 1000;
     attack_time := 0.01;
     decay_time := 0.1;
     sustain_level := 0.7;
     release_time := 0.3;
     detune := 0;
     voices := [];
     max_voices := 16 |}.

Definition handle_knob (controller value : Z) (self : t) : t :=
  let norm_value := IZR value / 127 in
  if (controller =? 70)%Z then with_master_volume (norm_value * 0.8) self
  else if (controller =? 71)%Z then
    if Rlt_dec norm_value 0.25 then with_waveform 0 self
    else if Rlt_dec norm_value 0.5 then with_waveform 1 self
    else if Rlt_dec norm_value 0.75 then with_waveform 2 self
    else with_waveform 3 self
  else if (controller =? 72)%Z then
    with_filter_cutoff (200 + norm_value * 7800) self
  else if (controller =? 73)%Z then
    with_attack_time (0.001 + norm_value * 2) self
  else if (controller =? 74)%Z then
    with_decay_time (0.01 + norm_value * 2) self
  else if (controller =? 75)%Z then with_sustain_level norm_value self
  else if (controller =? 76)%Z then
    with_release_time (0.01 + norm_value * 4) self
  else if (controller =? 77)%Z then
    with_detune ((norm_value - 0.5) * 200) self
  else self.

Definition get_synth_params (self : t) : envelope_params :=
  {| attack := attack_time self;
     decay := decay_time self;
     sustain := sustain_level self;
     release_ := release_time self |}.

Definition note_on (note velocity : Z) : M t unit := fun self =>
  let synth_params := get_synth_params self in
  let (r, voices) :=
    Engine.note_on (max_voices self) note
      (MPKVoice.init note velocity (sample_rate self) synth_params)
      (voices self) in
  (r, with_voices voices self).

Definition note_off (note : Z) : M t unit := fun self =>
  let (r, voices) := Engine.note_off MPKVoice.release note (voices self) in
  (r, with_voices voices self).

(** [midi_callback], on the bytes of the message *)
Definition midi_callback (msg : list Z) : M t unit :=
  try_except_Exception
    (match msg with
     | status :: data1 :: data2 :: _ =>
         if ((144 <=? status) && (status <=? 159) && (data2 >? 0))%Z then
           note_on data1 data2
         else if (((128 <=? status) && (status <=? 143))
                  || ((144 <=? status) && (status <=? 159)
                      && (data2 =? 0)))%Z then
           note_off data1
         else if ((176 <=? status) && (status <=? 191))%Z then
           fun self => (Return tt, handle_knob data1 data2 self)
         else ret tt
     | _ => ret tt
     end)
    (ret tt).

Definition audio_callback (frames : nat) : M (t * ndarray) unit := fun st =>
  let (self, outdata) := st in
  let (r, st') :=
    Engine.audio_callback MPKVoice.is_finished MPKVoice.generate
      frames (waveform self) (filter_cutoff self) (detune self)
      (master_volume self) (voices self, outdata) in
  (r, (with_voices (fst st') self, snd st')).

(** A call made on the synth by the MIDI thread or the audio sink; a fault
    escaping a method is dropped by the driver. *)
Inductive call : Type :=
| NoteOn (note velocity : Z)
| NoteOff (note : Z)
| HandleKnob (controller value : Z)
| MidiCallback (msg : list Z)
| AudioCallback (outdata : ndarray) (frames : nat).

Definition exec (c : call) (self : t) : t :=
  match c with
  | NoteOn note velocity => snd (note_on note velocity self)
  | NoteOff note => snd (note_off note self)
  | HandleKnob controller value => handle_knob controller value self
  | MidiCallback msg => snd (midi_callback msg self)
  | AudioCallback outdata frames =>
      fst (snd (audio_callback frames (self, outdata)))
  end.

Definition run (calls : list call) (self : t) : t :=
  fold_left (fun self c => exec c self) calls self.

End MPKOnlySynth.


(** ** The two voice classes side by side *)

(** The [MPKVoice] object with the attribute values of a [PolyphonicVoice] *)
Definition to_mpk (v : PolyphonicVoice.t) : MPKVoice.t :=
  {| MPKVoice.note := PolyphonicVoice.note v;
     MPKVoice.velocity := PolyphonicVoice.velocity v;
     MPKVoice.frequency := PolyphonicVoice.frequency v;
     MPKVoice.phase := PolyphonicVoice.phase v;
     MPKVoice.sample_rate := PolyphonicVoice.sample_rate v;
     MPKVoice.attack_time := PolyphonicVoice.attack_time v;
     MPKVoice.decay_time := PolyphonicVoice.decay_time v;
     MPKVoice.sustain_level := PolyphonicVoice.sustain_level v;
     MPKVoice.release_time := PolyphonicVoice.release_time v;
     MPKVoice.envelope_phase := PolyphonicVoice.envelope_phase v;
     MPKVoice.envelope_value := PolyphonicVoice.envelope_value v;
     MPKVoice.envelope_timer := PolyphonicVoice.envelope_timer v;
     MPKVoice.releasing := PolyphonicVoice.releasing v;
     MPKVoice.filter_state := PolyphonicVoice.filter_state v |}.

(** A method call on a voice, and what the caller gets back from it *)
Inductive voice_call : Type :=
| CallRelease
| CallIsFinished
| CallUpdateEnvelope (frames : nat)
| CallGenerate (frames : nat) (waveform : Z) (filter_cutoff detune : R).

Inductive voice_output : Type :=
| OutNone
| OutBool (b : bool)
| OutValue (r : result R)
| OutBlock (r : result (list R)).

Definition poly_call (c : voice_call) (self : PolyphonicVoice.t)
  : voice_output * PolyphonicVoice.t :=
  match c with
  | CallRelease => (OutNone, PolyphonicVoice.release self)
  | CallIsFinished => (OutBool (PolyphonicVoice.is_finished self), self)
  | CallUpdateEnvelope frames =>
      let (r, self) := PolyphonicVoice.update_envelope frames self in
      (OutValue r, self)
  | CallGenerate frames waveform filter_cutoff detune =>
      let (r, self) :=
        PolyphonicVoice.generate frames waveform filter_cutoff detune self in
      (OutBlock r, self)
  end.

Definition mpk_call (c : voice_call) (self : MPKVoice.t)
  : voice_output * MPKVoice.t :=
  match c with
  | CallRelease => (OutNone, MPKVoice.release self)
  | CallIsFinished => (OutBool (MPKVoice.is_finished self), self)
  | CallUpdateEnvelope frames =>
      let (r, self) := MPKVoice.update_envelope frames self in
      (OutValue r, self)
  | CallGenerate frames waveform filter_cutoff detune =>
      let (r, self) :=
        MPKVoice.generate frames waveform filter_cutoff detune self in
      (OutBlock r, self)
  end.

Fixpoint poly_calls (calls : list voice_call) (self : PolyphonicVoice.t)
  : list voice_output * PolyphonicVoice.t :=
  match calls with
  | [] => ([], self)
  | c :: rest =>
      let (o, self) := poly_call c self in
      let (os, self) := poly_calls rest self in
      (o :: os, self)
  end.

Fixpoint mpk_calls (calls : list voice_call) (self : MPKVoice.t)
  : list voice_output * MPKVoice.t :=
  match calls with
  | [] => ([], self)
  | c :: rest =>
      let (o, self) := mpk_call c self in
      let (os, self) := mpk_calls rest self in
      (o :: os, self)
  end.

(** ** The voice pool invariant *)

Definition pool_ok (V : Type) (max_voices : Z) (voices : dict V) : Prop :=
  NoDup (dict_keys voices) /\ (Z.of_nat (length voices) <= max_voices)%Z.

(** Envelope updates for the blocks [frames :: rest], one after another as
    successive renders make them; the value is the one the last update
    returned. *)
Fixpoint poly_updates (rest : list nat) (frames : nat)
         (self : PolyphonicVoice.t) {struct rest}
  : result R * PolyphonicVoice.t :=
  match PolyphonicVoice.update_envelope frames self with
  | (Raise e, self) => (Raise e, self)
  | (Return value, self) =>
      match rest with
      | [] => (Return value, self)
      | frames' :: rest' => poly_updates rest' frames' self
      end
  end.

(** Time accumulated by the envelope timer over some blocks, from [t0] *)
Definition elapsed (t0 : R) (sample_rate : Z) (blocks : list nat) : R :=
  fold_left (fun t frames => (t + INR frames / IZR sample_rate)%R) blocks t0.

(** The release ramp as the specification words it: from the configured
    sustain level down to 0 over the release time. *)
Definition release_ramp (sustain_level release_time t : R) : R :=
  (sustain_level * (1 - Rmin 1 (t / release_time)))%R.

(** The [PolyphonicVoice] object with the attribute values of an [MPKVoice] *)
Definition of_mpk (v : MPKVoice.t) : PolyphonicVoice.t :=
  {| PolyphonicVoice.note := MPKVoice.note v;
     PolyphonicVoice.velocity := MPKVoice.velocity v;
     PolyphonicVoice.frequency := MPKVoice.frequency v;
     PolyphonicVoice.phase := MPKVoice.phase v;
     PolyphonicVoice.sample_rate := MPKVoice.sample_rate v;
     PolyphonicVoice.attack_time := MPKVoice.attack_time v;
     PolyphonicVoice.decay_time := MPKVoice.decay_time v;
     PolyphonicVoice.sustain_level := MPKVoice.sustain_level v;
     PolyphonicVoice.release_time := MPKVoice.release_time v;
     PolyphonicVoice.envelope_phase := MPKVoice.envelope_phase v;
     PolyphonicVoice.envelope_value := MPKVoice.envelope_value v;
     PolyphonicVoice.envelope_timer := MPKVoice.envelope_timer v;
     PolyphonicVoice.releasing := MPKVoice.releasing v;
     PolyphonicVoice.filter_state := MPKVoice.filter_state v |}.

(** Carry a method result from one class to the other *)
Definition map_self (A S T : Type) (f : S -> T) (r : result A * S)
  : result A * T :=
  (fst r, f (snd r)).

(** The envelope settings of scenario B: no attack, no decay, sustain 0.7 *)
Definition scenario_B_params : envelope_params :=
  {| attack := 0; decay := 0; sustain := 0.7; release_ := 0.3 |}.

(** Envelope settings with no attack, no decay and no release *)
Definition zero_release_params : envelope_params :=
  {| attack := 0; decay := 0; sustain := 0.7; release_ := 0 |}.

(** A voice object whose [frequency] attribute is 0: created for note 60 at
    velocity 100 with no attack time, then retuned to 0 Hz *)
Definition zero_hz_voice : PolyphonicVoice.t :=
  PolyphonicVoice.mk 60 (100 / 127) 0 0 44100 0 0.1 0.7 0.3 Attack 0 0 false 0.

(** What successive updates keep true once [release] has been called: the
    phase is Release, or it is Finished with the timer past the release time
    and the value on the ramp. *)
Definition releasing_state (w : PolyphonicVoice.t) : Prop :=
  PolyphonicVoice.envelope_phase w = Release
  \/ (PolyphonicVoice.envelope_phase w = Finished
      /\ (PolyphonicVoice.release_time w <= PolyphonicVoice.envelope_timer w)%R
      /\ PolyphonicVoice.envelope_value w
         = release_ramp (PolyphonicVoice.sustain_level w)
             (PolyphonicVoice.release_time w)
             (PolyphonicVoice.envelope_timer w)).

(** A sample within the oscillator's range *)
Definition in_unit_range (x : R) : Prop := (-1 <= x <= 1)%R.

(** What every call on a synth keeps true: the capacity the constructor set,
    and a pool within it with one entry per note. *)
Definition fourpot_inv (self : FourPotMIDISynth.t) : Prop :=
  FourPotMIDISynth.max_voices self = 12%Z
  /\ pool_ok 12 (FourPotMIDISynth.voices self).

Definition mpk_inv (self : MPKOnlySynth.t) : Prop :=
  MPKOnlySynth.max_voices self = 16%Z
  /\ pool_ok 16 (MPKOnlySynth.voices self).

(** Scenario A: a [FourPotMIDISynth] and an [MPKOnlySynth] whose
    [max_voices] is 2, with nothing playing *)
Definition scenario_A_fourpot : FourPotMIDISynth.t :=
  FourPotMIDISynth.mk 44100 512 0.5 0 1000 0.5 0 [] 2.

Definition scenario_A_mpk : MPKOnlySynth.t :=
  MPKOnlySynth.mk 44100 512 0.5 0 1000 0.01 0.1 0.7 0.3 0 [] 2.

(** A [FourPotMIDISynth] built with sample rate 0 and playing note 60, and
    an [outdata] buffer of 4 frames by 2 channels holding stale samples *)
Definition zero_rate_fourpot : FourPotMIDISynth.t :=
  snd (FourPotMIDISynth.note_on 60 100 (FourPotMIDISynth.init 0 512)).

Definition stale_outdata : ndarray := mk_ndarray 4 2 (fun _ _ => 1%R).

(** The [try] suite of each synth's [audio_callback] *)
Definition fourpot_render (frames : nat) (self : FourPotMIDISynth.t)
           (outdata : ndarray)
  : result unit * (dict PolyphonicVoice.t * ndarray) :=
  Engine.render PolyphonicVoice.is_finished PolyphonicVoice.generate frames
    (FourPotMIDISynth.waveform self) (FourPotMIDISynth.filter_cutoff self)
    (FourPotMIDISynth.detune self) (FourPotMIDISynth.master_volume self)
    (FourPotMIDISynth.voices self, outdata).

Definition mpk_render (frames : nat) (self : MPKOnlySynth.t)
           (outdata : ndarray)
  : result unit * (dict MPKVoice.t * ndarray) :=
  Engine.render MPKVoice.is_finished MPKVoice.generate frames
    (MPKOnlySynth.waveform self) (MPKOnlySynth.filter_cutoff self)
    (MPKOnlySynth.detune self) (MPKOnlySynth.master_volume self)
    (MPKOnlySynth.voices self, outdata).

(** The envelope settings a new [MPKOnlySynth] starts with *)
Definition default_params : envelope_params :=
  MPKOnlySynth.get_synth_params (MPKOnlySynth.init 44100 512).

(** ** Well-formed voices *)

(** The envelope part of a voice in the state the constructor and the
    envelope updates keep it in, for a positive sample rate *)
Definition envelope_ok (v : PolyphonicVoice.t) : Prop :=
  (0 < PolyphonicVoice.sample_rate v)%Z
  /\ (0 <= PolyphonicVoice.sustain_level v <= 1)%R
  /\ (0 <= PolyphonicVoice.envelope_timer v)%R
  /\ (0 <= PolyphonicVoice.envelope_value v <= 1)%R.

(** A voice as rendering keeps it: envelope in range, velocity normalised,
    filter memory within the oscillator's range, phase wrapped *)
Definition voice_ok (v : PolyphonicVoice.t) : Prop :=
  envelope_ok v
  /\ (0 <= PolyphonicVoice.velocity v <= 1)%R
  /\ (-1 <= PolyphonicVoice.filter_state v <= 1)%R
  /\ (0 <= PolyphonicVoice.phase v < 2 * PI)%R.

(** The attributes of a voice that only the constructor writes *)
Definition same_settings (v w : PolyphonicVoice.t) : Prop :=
  PolyphonicVoice.note w = PolyphonicVoice.note v
  /\ PolyphonicVoice.velocity w = PolyphonicVoice.velocity v
  /\ PolyphonicVoice.frequency w = PolyphonicVoice.frequency v
  /\ PolyphonicVoice.sample_rate w = PolyphonicVoice.sample_rate v
  /\ PolyphonicVoice.attack_time w = PolyphonicVoice.attack_time v
  /\ PolyphonicVoice.decay_time w = PolyphonicVoice.decay_time v
  /\ PolyphonicVoice.sustain_level w = PolyphonicVoice.sustain_level v
  /\ PolyphonicVoice.release_time w = PolyphonicVoice.release_time v.


(** ** The output stage of [audio_callback] *)

(** The soft limiter applied to the mixed block *)
Definition soft_limit (x : R) : R := (tanh (x * 0.7) * 1.2)%R.

(** What [out[:, j] = audio] stores in row [i]: entry [i] of [audio], or its
    single entry when a one-sample block is broadcast *)
Definition column_value (audio : list R) (out : ndarray) (i : nat) : R :=
  if (length audio =? nrows out)%nat then nth i audio 0%R else nth 0 audio 0%R.

(** ** The pool after a block *)

Section RenderedPool.
Variable V : Type.
Variable voice_is_finished : V -> bool.
Variable voice_generate : nat -> Z -> R -> R -> M V (list R).
Variables (frames : nat) (waveform : Z) (filter_cutoff detune : R).

(** A pool entry after it was rendered once *)
Definition render_entry (kv : Z * V) : Z * V :=
  (fst kv, snd (voice_generate frames waveform filter_cutoff detune (snd kv))).

(** What the mixing loop leaves of an entry: a finished voice is skipped *)
Definition mix_entry (kv : Z * V) : Z * V :=
  if voice_is_finished (snd kv) then kv else render_entry kv.

(** The entries whose voice is still sounding when the block starts *)
Definition sounding (voices : dict V) : dict V :=
  filter (fun kv => negb (voice_is_finished (snd kv))) voices.

(** The notes whose voice is finished when the block starts *)
Definition finished_notes (voices : dict V) : list Z :=
  dict_keys (filter (fun kv => voice_is_finished (snd kv)) voices).

(** The pool a block leaves behind: the sounding voices, each rendered once,
    in their order *)
Definition rendered_pool (voices : dict V) : dict V :=
  map render_entry (sounding voices).

(** The blocks the sounding voices produce *)
Definition voice_blocks (voices : dict V) : list (list R) :=
  map (fun kv =>
         match fst (voice_generate frames waveform filter_cutoff detune
                      (snd kv)) with
         | Return block => block
         | Raise _ => []
         end)
      (sounding voices).

(** Every sounding voice renders without a fault *)
Definition renders_cleanly (voices : dict V) : Prop :=
  Forall (fun kv =>
            voice_is_finished (snd kv) = false ->
            exists block,
              fst (voice_generate frames waveform filter_cutoff detune
                     (snd kv)) = Return block)
         voices.
End RenderedPool.

(** Sample [i] of the sum of some blocks *)
Definition mixed_sample (blocks : list (list R)) (i : nat) : R :=
  fold_left Rplus (map (fun block => nth i block 0%R) blocks) 0%R.

(** ** States a [FourPotMIDISynth] can be in *)

(** The running state of a voice within its ranges *)
Definition voice_state_ok (v : PolyphonicVoice.t) : Prop :=
  envelope_ok v
  /\ (-1 <= PolyphonicVoice.filter_state v <= 1)%R
  /\ (0 <= PolyphonicVoice.phase v < 2 * PI)%R.

(** A pool entry as [FourPotMIDISynth] makes and keeps it, for sample rate
    [sr] *)
Definition fourpot_voice_ok (sr : Z) (kv : Z * PolyphonicVoice.t) : Prop :=
  PolyphonicVoice.note (snd kv) = fst kv
  /\ PolyphonicVoice.sample_rate (snd kv) = sr
  /\ (0.001 <= PolyphonicVoice.attack_time (snd kv) <= 0.041)%R
  /\ (0.01 <= PolyphonicVoice.decay_time (snd kv) <= 0.41)%R
  /\ PolyphonicVoice.sustain_level (snd kv) = 0.7%R
  /\ (0.03 <= PolyphonicVoice.release_time (snd kv) <= 1.23)%R
  /\ voice_state_ok (snd kv).

Definition fourpot_ok (sr : Z) (self : FourPotMIDISynth.t) : Prop :=
  FourPotMIDISynth.sample_rate self = sr
  /\ (0 <= FourPotMIDISynth.envelope_control self <= 1)%R
  /\ (0 <= FourPotMIDISynth.master_volume self <= 0.8)%R
  /\ (200 <= FourPotMIDISynth.filter_cutoff self <= 8000)%R
  /\ (0 <= FourPotMIDISynth.waveform self <= 3)%Z
  /\ Forall (fourpot_voice_ok sr) (FourPotMIDISynth.voices self).

(** ** A note from note-off to its removal *)



(** ** States an [MPKOnlySynth] can be in *)

(** A pool entry as [MPKOnlySynth] makes and keeps it, for sample rate [sr]
    and knob values that are MIDI values *)
Definition mpk_voice_ok (sr : Z) (kv : Z * MPKVoice.t) : Prop :=
  MPKVoice.note (snd kv) = fst kv
  /\ MPKVoice.sample_rate (snd kv) = sr
  /\ (0.001 <= MPKVoice.attack_time (snd kv) <= 2.001)%R
  /\ (0.01 <= MPKVoice.decay_time (snd kv) <= 2.01)%R
  /\ (0 <= MPKVoice.sustain_level (snd kv) <= 1)%R
  /\ (0.01 <= MPKVoice.release_time (snd kv) <= 4.01)%R
  /\ voice_state_ok (of_mpk (snd kv)).

Definition mpk_ok (sr : Z) (self : MPKOnlySynth.t) : Prop :=
  MPKOnlySynth.sample_rate self = sr
  /\ (0 <= MPKOnlySynth.master_volume self <= 0.8)%R
  /\ (200 <= MPKOnlySynth.filter_cutoff self <= 8000)%R
  /\ (0 <= MPKOnlySynth.waveform self <= 3)%Z
  /\ (0.001 <= MPKOnlySynth.attack_time self <= 2.001)%R
  /\ (0.01 <= MPKOnlySynth.decay_time self <= 2.01)%R
  /\ (0 <= MPKOnlySynth.sustain_level self <= 1)%R
  /\ (0.01 <= MPKOnlySynth.release_time self <= 4.01)%R
  /\ (-100 <= MPKOnlySynth.detune self <= 100)%R
  /\ Forall (mpk_voice_ok sr) (MPKOnlySynth.voices self).

(** A call whose control value is a MIDI value (0 to 127) *)
Definition mpk_call_wf (c : MPKOnlySynth.call) : Prop :=
  match c with
  | MPKOnlySynth.HandleKnob _ value => (0 <= value <= 127)%Z
  | MPKOnlySynth.MidiCallback (_ :: _ :: data2 :: _) => (0 <= data2 <= 127)%Z
  | _ => True
  end.

(** * Properties *)

Local Open Scope R_scope.

(** Decide the real comparisons met in a goal, closing absurd branches. *)
Ltac rdec :=
  repeat match goal with
    | |- context [Rlt_dec ?a ?b] => destruct (Rlt_dec a b); try lra
    | |- context [Rge_dec ?a ?b] => destruct (Rge_dec a b); try lra
    | |- context [Rle_dec ?a ?b] => destruct (Rle_dec a b); try lra
    end.

(** ** The two voice classes run in lockstep *)

Section Lockstep.

Lemma to_mpk_of_mpk (m : MPKVoice.t) : to_mpk (of_mpk m) = m.
Proof. destruct m; reflexivity. Qed.

Lemma of_mpk_to_mpk (v : PolyphonicVoice.t) : of_mpk (to_mpk v) = v.
Proof. destruct v; reflexivity. Qed.

Lemma init_lockstep (note velocity sample_rate : Z) (p : envelope_params) :
  to_mpk (PolyphonicVoice.init note velocity sample_rate p)
  = MPKVoice.init note velocity sample_rate p.
Proof. reflexivity. Qed.

Lemma release_lockstep (v : PolyphonicVoice.t) :
  MPKVoice.release (to_mpk v) = to_mpk (PolyphonicVoice.release v).
Proof. reflexivity. Qed.

Lemma is_finished_lockstep (v : PolyphonicVoice.t) :
  MPKVoice.is_finished (to_mpk v) = PolyphonicVoice.is_finished v.
Proof. reflexivity. Qed.

Lemma update_envelope_lockstep (frames : nat) (v : PolyphonicVoice.t) :
  MPKVoice.update_envelope frames (to_mpk v)
  = map_self to_mpk (PolyphonicVoice.update_envelope frames v).
Proof.
  unfold MPKVoice.update_envelope, PolyphonicVoice.update_envelope, map_self.
  destruct v as [n vel f ph sr a d s r ep ev et rl fs]; cbn.
  destruct (sr =? 0)%Z; [reflexivity |].
  destruct ep; cbn; rdec; reflexivity.
Qed.

Lemma filter_loop_lockstep (alpha : R) (audio : list R) (state : R) :
  MPKVoice.filter_loop alpha audio state
  = PolyphonicVoice.filter_loop alpha audio state.
Proof.
  revert state. induction audio as [| x rest IH]; intros state; cbn.
  - reflexivity.
  - rewrite IH. reflexivity.
Qed.

Lemma oscillator_lockstep (frames : nat) (waveform : Z) (detune : R)
      (v : PolyphonicVoice.t) :
  MPKVoice.oscillator (to_mpk v) frames waveform detune
  = PolyphonicVoice.oscillator v frames waveform detune.
Proof. reflexivity. Qed.

Lemma generate_lockstep (frames : nat) (waveform : Z)
      (filter_cutoff detune : R) (v : PolyphonicVoice.t) :
  MPKVoice.generate frames waveform filter_cutoff detune (to_mpk v)
  = map_self to_mpk
      (PolyphonicVoice.generate frames waveform filter_cutoff detune v).
Proof.
  unfold MPKVoice.generate, PolyphonicVoice.generate.
  rewrite is_finished_lockstep.
  destruct (PolyphonicVoice.is_finished v); [reflexivity |].
  change (MPKVoice.sample_rate (to_mpk v)) with (PolyphonicVoice.sample_rate v).
  destruct (PolyphonicVoice.sample_rate v =? 0)%Z; [reflexivity |].
  rewrite oscillator_lockstep.
  change (MPKVoice.filter_applies waveform filter_cutoff)
    with (PolyphonicVoice.filter_applies waveform filter_cutoff).
  destruct (PolyphonicVoice.filter_applies waveform filter_cutoff).
  - change (MPKVoice.filter_state (to_mpk v))
      with (PolyphonicVoice.filter_state v).
    rewrite filter_loop_lockstep.
    destruct (PolyphonicVoice.filter_loop _ _ _) as [ys state].
    match goal with
    | |- context [MPKVoice.update_envelope frames ?m] =>
        match goal with
        | |- context [PolyphonicVoice.update_envelope frames ?p] =>
            change m with (to_mpk p)
        end
    end.
    rewrite update_envelope_lockstep. unfold map_self.
    destruct (PolyphonicVoice.update_envelope frames _) as [[e | x] v'];
      reflexivity.
  - match goal with
    | |- context [MPKVoice.update_envelope frames ?m] =>
        match goal with
        | |- context [PolyphonicVoice.update_envelope frames ?p] =>
            change m with (to_mpk p)
        end
    end.
    rewrite update_envelope_lockstep. unfold map_self.
    destruct (PolyphonicVoice.update_envelope frames _) as [[e | x] v'];
      reflexivity.
Qed.

End Lockstep.

Lemma call_lockstep (c : voice_call) (v : PolyphonicVoice.t) :
  mpk_call c (to_mpk v)
  = (fst (poly_call c v), to_mpk (snd (poly_call c v))).
Proof.
  destruct c as [| | frames | frames waveform filter_cutoff detune]; cbn.
  - reflexivity.
  - reflexivity.
  - rewrite update_envelope_lockstep. unfold map_self.
    destruct (PolyphonicVoice.update_envelope frames v); reflexivity.
  - rewrite generate_lockstep. unfold map_self.
    destruct (PolyphonicVoice.generate _ _ _ _ v); reflexivity.
Qed.

Lemma calls_lockstep (calls : list voice_call) :
  forall v : PolyphonicVoice.t,
    mpk_calls calls (to_mpk v)
    = (fst (poly_calls calls v), to_mpk (snd (poly_calls calls v))).
Proof.
  induction calls as [| c rest IH]; intros v; cbn.
  - reflexivity.
  - rewrite call_lockstep.
    destruct (poly_call c v) as [o v1]; cbn.
    rewrite IH.
    destruct (poly_calls rest v1) as [os v2]; reflexivity.
Qed.

(** C9. [PolyphonicVoice] and [MPKVoice] are behaviourally equivalent: built
    from the same constructor arguments and driven by the same sequence of
    [release], [is_finished], [update_envelope] and [generate] calls, the two
    objects hand back the same outputs (sample blocks included) and end with
    the same value in every attribute (phase, filter memory, envelope phase,
    value and timer among them). *)
Theorem voice_classes_equivalent :
  forall (note velocity sample_rate : Z) (p : envelope_params)
         (calls : list voice_call),
    let poly :=
      poly_calls calls (PolyphonicVoice.init note velocity sample_rate p) in
    let mpk := mpk_calls calls (MPKVoice.init note velocity sample_rate p) in
    fst mpk = fst poly
    /\ snd mpk = to_mpk (snd poly)
    /\ MPKVoice.phase (snd mpk) = PolyphonicVoice.phase (snd poly)
    /\ MPKVoice.filter_state (snd mpk) = PolyphonicVoice.filter_state (snd poly)
    /\ MPKVoice.envelope_phase (snd mpk)
       = PolyphonicVoice.envelope_phase (snd poly)
    /\ MPKVoice.envelope_value (snd mpk)
       = PolyphonicVoice.envelope_value (snd poly)
    /\ MPKVoice.envelope_timer (snd mpk)
       = PolyphonicVoice.envelope_timer (snd poly).
Proof.
  intros note velocity sample_rate p calls poly mpk.
  assert (H : mpk = (fst poly, to_mpk (snd poly))).
  { subst mpk poly. rewrite <- init_lockstep. apply calls_lockstep. }
  rewrite H. cbn. repeat split; reflexivity.
Qed.

(** ** Envelope: zero attack and decay times *)

Lemma poly_update_zero_attack (frames : nat) (self : PolyphonicVoice.t) :
  PolyphonicVoice.sample_rate self <> 0%Z ->
  PolyphonicVoice.envelope_phase self = Attack ->
  PolyphonicVoice.attack_time self = 0 ->
  PolyphonicVoice.update_envelope frames self
  = (Return 1,
     PolyphonicVoice.with_envelope_phase Decay
       (PolyphonicVoice.with_envelope_value 1
          (PolyphonicVoice.with_envelope_timer
             (PolyphonicVoice.envelope_timer self
              + INR frames / IZR (PolyphonicVoice.sample_rate self)) self))).
Proof.
  intros Hsr Hph Hat.
  unfold PolyphonicVoice.update_envelope.
  apply Z.eqb_neq in Hsr. rewrite Hsr.
  cbn. rewrite Hph, Hat.
  destruct (Rlt_dec 0 0) as [Habs | _]; [lra | reflexivity].
Qed.

Lemma poly_update_zero_decay (frames : nat) (self : PolyphonicVoice.t) :
  PolyphonicVoice.sample_rate self <> 0%Z ->
  PolyphonicVoice.envelope_phase self = Decay ->
  PolyphonicVoice.decay_time self = 0 ->
  PolyphonicVoice.update_envelope frames self
  = (Return (PolyphonicVoice.sustain_level self),
     PolyphonicVoice.with_envelope_phase Sustain
       (PolyphonicVoice.with_envelope_value
          (PolyphonicVoice.sustain_level self)
          (PolyphonicVoice.with_envelope_timer
             (PolyphonicVoice.envelope_timer self
              + INR frames / IZR (PolyphonicVoice.sample_rate self)) self))).
Proof.
  intros Hsr Hph Hdt.
  unfold PolyphonicVoice.update_envelope.
  apply Z.eqb_neq in Hsr. rewrite Hsr.
  cbn. rewrite Hph, Hdt.
  destruct (Rlt_dec 0 0) as [Habs | _]; [lra | reflexivity].
Qed.

Lemma poly_zero_attack_decay (frames1 frames2 : nat)
      (self : PolyphonicVoice.t) :
  PolyphonicVoice.sample_rate self <> 0%Z ->
  PolyphonicVoice.envelope_phase self = Attack ->
  PolyphonicVoice.attack_time self = 0 ->
  PolyphonicVoice.decay_time self = 0 ->
  exists v1 v2,
    PolyphonicVoice.update_envelope frames1 self = (Return 1, v1)
    /\ PolyphonicVoice.envelope_phase v1 = Decay
    /\ PolyphonicVoice.envelope_value v1 = 1
    /\ PolyphonicVoice.update_envelope frames2 v1
       = (Return (PolyphonicVoice.sustain_level self), v2)
    /\ PolyphonicVoice.envelope_phase v2 = Sustain
    /\ PolyphonicVoice.envelope_value v2 = PolyphonicVoice.sustain_level self.
Proof.
  intros Hsr Hph Hat Hdt.
  eexists. eexists.
  split; [apply poly_update_zero_attack; assumption |].
  split; [reflexivity |]. split; [reflexivity |].
  split; [rewrite poly_update_zero_decay; [reflexivity | cbn; try assumption; try reflexivity ..] |].
  split; reflexivity.
Qed.

Lemma poly_update_past_phase (x : R) (frames : nat)
      (self : PolyphonicVoice.t) :
  PolyphonicVoice.update_envelope frames (PolyphonicVoice.with_phase x self)
  = map_self (PolyphonicVoice.with_phase x)
      (PolyphonicVoice.update_envelope frames self).
Proof.
  unfold PolyphonicVoice.update_envelope, map_self.
  destruct self as [n vel f ph sr a d s r ep ev et rl fs]; cbn.
  destruct (sr =? 0)%Z; [reflexivity |].
  destruct ep; cbn; rdec; reflexivity.
Qed.

Lemma poly_update_past_filter_state (x : R) (frames : nat)
      (self : PolyphonicVoice.t) :
  PolyphonicVoice.update_envelope frames
    (PolyphonicVoice.with_filter_state x self)
  = map_self (PolyphonicVoice.with_filter_state x)
      (PolyphonicVoice.update_envelope frames self).
Proof.
  unfold PolyphonicVoice.update_envelope, map_self.
  destruct self as [n vel f ph sr a d s r ep ev et rl fs]; cbn.
  destruct (sr =? 0)%Z; [reflexivity |].
  destruct ep; cbn; rdec; reflexivity.
Qed.

(** A render advances the envelope exactly as one [update_envelope] does. *)
Lemma poly_generate_envelope (frames : nat) (waveform : Z)
      (filter_cutoff detune : R) (self : PolyphonicVoice.t) :
  PolyphonicVoice.is_finished self = false ->
  let rendered :=
    snd (PolyphonicVoice.generate frames waveform filter_cutoff detune self) in
  let updated := snd (PolyphonicVoice.update_envelope frames self) in
  PolyphonicVoice.envelope_phase rendered
  = PolyphonicVoice.envelope_phase updated
  /\ PolyphonicVoice.envelope_value rendered
     = PolyphonicVoice.envelope_value updated
  /\ PolyphonicVoice.envelope_timer rendered
     = PolyphonicVoice.envelope_timer updated.
Proof.
  intros Hnf rendered updated. subst rendered updated.
  unfold PolyphonicVoice.generate. rewrite Hnf.
  destruct (PolyphonicVoice.sample_rate self =? 0)%Z eqn:Hsr.
  { unfold PolyphonicVoice.update_envelope. rewrite Hsr.
    repeat split; reflexivity. }
  destruct (PolyphonicVoice.filter_applies waveform filter_cutoff).
  - destruct (PolyphonicVoice.filter_loop _ _ _) as [ys state].
    rewrite poly_update_past_filter_state, poly_update_past_phase.
    unfold map_self.
    destruct (PolyphonicVoice.update_envelope frames self) as [[x | e] self'];
      cbn; repeat split; reflexivity.
  - rewrite poly_update_past_phase. unfold map_self.
    destruct (PolyphonicVoice.update_envelope frames self) as [[x | e] self'];
      cbn; repeat split; reflexivity.
Qed.

(** C4 (as amended). With attack time 0 and decay time 0, the first
    [update_envelope] after the voice is created (hence the first render)
    leaves the envelope in the Decay phase with value 1; it is the second
    [update_envelope] that brings the phase to Sustain and the value to the
    sustain level (0.7 in the scenario).  One call handles one phase.  Holds
    for both voice classes. *)
Theorem zero_attack_decay_reaches_sustain_on_second_update :
  forall (note velocity sample_rate : Z) (p : envelope_params)
         (frames1 frames2 : nat),
    sample_rate <> 0%Z ->
    attack p = 0 ->
    decay p = 0 ->
    (exists v1 v2,
        PolyphonicVoice.update_envelope frames1
          (PolyphonicVoice.init note velocity sample_rate p) = (Return 1, v1)
        /\ PolyphonicVoice.envelope_phase v1 = Decay
        /\ PolyphonicVoice.envelope_value v1 = 1
        /\ PolyphonicVoice.update_envelope frames2 v1 = (Return (sustain p), v2)
        /\ PolyphonicVoice.envelope_phase v2 = Sustain
        /\ PolyphonicVoice.envelope_value v2 = sustain p
        /\ forall (waveform : Z) (filter_cutoff detune : R),
            let rendered :=
              snd (PolyphonicVoice.generate frames1 waveform filter_cutoff
                     detune
                     (PolyphonicVoice.init note velocity sample_rate p)) in
            PolyphonicVoice.envelope_phase rendered = Decay
            /\ PolyphonicVoice.envelope_value rendered = 1)
    /\ (exists m1 m2,
           MPKVoice.update_envelope frames1
             (MPKVoice.init note velocity sample_rate p) = (Return 1, m1)
           /\ MPKVoice.envelope_phase m1 = Decay
           /\ MPKVoice.envelope_value m1 = 1
           /\ MPKVoice.update_envelope frames2 m1 = (Return (sustain p), m2)
           /\ MPKVoice.envelope_phase m2 = Sustain
           /\ MPKVoice.envelope_value m2 = sustain p
           /\ forall (waveform : Z) (filter_cutoff detune : R),
               let rendered :=
                 snd (MPKVoice.generate frames1 waveform filter_cutoff detune
                        (MPKVoice.init note velocity sample_rate p)) in
               MPKVoice.envelope_phase rendered = Decay
               /\ MPKVoice.envelope_value rendered = 1).
Proof.
  intros note velocity sample_rate p frames1 frames2 Hsr Hat Hdt.
  destruct (@poly_zero_attack_decay frames1 frames2
              (PolyphonicVoice.init note velocity sample_rate p))
    as (v1 & v2 & H1 & P1 & E1 & H2 & P2 & E2);
    try assumption; try reflexivity.
  assert (Hrender : forall (waveform : Z) (filter_cutoff detune : R),
             let rendered :=
               snd (PolyphonicVoice.generate frames1 waveform filter_cutoff
                      detune
                      (PolyphonicVoice.init note velocity sample_rate p)) in
             PolyphonicVoice.envelope_phase rendered = Decay
             /\ PolyphonicVoice.envelope_value rendered = 1).
  { intros waveform filter_cutoff detune rendered. subst rendered.
    destruct (@poly_generate_envelope frames1 waveform filter_cutoff detune
                (PolyphonicVoice.init note velocity sample_rate p) eq_refl)
      as (Hp & Hv & _).
    rewrite Hp, Hv, H1. split; assumption. }
  split.
  - exists v1, v2. repeat split; try assumption; apply Hrender.
  - exists (to_mpk v1), (to_mpk v2).
    rewrite <- init_lockstep.
    rewrite !update_envelope_lockstep, H1, H2.
    repeat split; try assumption;
      rewrite generate_lockstep; apply Hrender.
Qed.

Lemma zero_attack_decay_witness :
  exists v1 v2,
    PolyphonicVoice.update_envelope 512
      (PolyphonicVoice.init 60 100 44100 scenario_B_params) = (Return 1, v1)
    /\ PolyphonicVoice.envelope_phase v1 = Decay
    /\ PolyphonicVoice.envelope_value v1 = 1
    /\ PolyphonicVoice.update_envelope 512 v1 = (Return 0.7, v2)
    /\ PolyphonicVoice.envelope_phase v2 = Sustain
    /\ PolyphonicVoice.envelope_value v2 = 0.7.
Proof.
  destruct (proj1 (@zero_attack_decay_reaches_sustain_on_second_update
                     60 100 44100 scenario_B_params 512%nat 512%nat
                     ltac:(discriminate) eq_refl eq_refl))
    as (v1 & v2 & H1 & P1 & E1 & H2 & P2 & E2 & _).
  exists v1, v2. repeat split; assumption.
Defined.

(** Scenario B as it is written fails: after the first update, and so after
    the first render, the phase is Decay and the value 1, not Sustain and
    0.7. *)
Lemma first_update_not_sustain :
  let v0 := PolyphonicVoice.init 60 100 44100 scenario_B_params in
  let updated := snd (PolyphonicVoice.update_envelope 512 v0) in
  let rendered := snd (PolyphonicVoice.generate 512 0 1000 0 v0) in
  ~ (PolyphonicVoice.envelope_phase updated = Sustain
     /\ PolyphonicVoice.envelope_value updated = 0.7)
  /\ ~ (PolyphonicVoice.envelope_phase rendered = Sustain
        /\ PolyphonicVoice.envelope_value rendered = 0.7).
Proof.
  intros v0 updated rendered.
  assert (Hphase : PolyphonicVoice.envelope_phase updated = Decay).
  { subst updated v0.
    rewrite poly_update_zero_attack;
      [reflexivity | discriminate | reflexivity | reflexivity]. }
  split.
  - intros [H _]. rewrite Hphase in H. discriminate.
  - intros [H _].
    destruct (@poly_generate_envelope 512 0 1000 0 v0 eq_refl) as [Hp _].
    fold rendered updated in Hp.
    rewrite Hp, Hphase in H. discriminate.
Qed.

(** ** Envelope: the Finished phase *)

Lemma poly_update_finished (frames : nat) (self : PolyphonicVoice.t) :
  PolyphonicVoice.sample_rate self <> 0%Z ->
  PolyphonicVoice.envelope_phase self = Finished ->
  PolyphonicVoice.update_envelope frames self
  = (Return (PolyphonicVoice.envelope_value self),
     PolyphonicVoice.with_envelope_timer
       (PolyphonicVoice.envelope_timer self
        + INR frames / IZR (PolyphonicVoice.sample_rate self)) self).
Proof.
  intros Hsr Hph.
  unfold PolyphonicVoice.update_envelope.
  apply Z.eqb_neq in Hsr. rewrite Hsr.
  cbn. rewrite Hph. reflexivity.
Qed.

(** Finished is terminal under [update_envelope], whatever the value. *)
Lemma poly_finished_terminal (frames : nat) (self : PolyphonicVoice.t) :
  PolyphonicVoice.envelope_phase self = Finished ->
  PolyphonicVoice.envelope_phase
    (snd (PolyphonicVoice.update_envelope frames self)) = Finished.
Proof.
  intros Hph.
  unfold PolyphonicVoice.update_envelope.
  destruct (PolyphonicVoice.sample_rate self =? 0)%Z; cbn.
  - assumption.
  - rewrite Hph. cbn. assumption.
Qed.

(** A release with a release time that is not positive finishes the voice
    and leaves the envelope value where it was. *)
Lemma poly_update_zero_release (frames : nat) (self : PolyphonicVoice.t) :
  PolyphonicVoice.sample_rate self <> 0%Z ->
  PolyphonicVoice.envelope_phase self = Release ->
  PolyphonicVoice.release_time self <= 0 ->
  PolyphonicVoice.update_envelope frames self
  = (Return (PolyphonicVoice.envelope_value self),
     PolyphonicVoice.with_envelope_phase Finished
       (PolyphonicVoice.with_envelope_timer
          (PolyphonicVoice.envelope_timer self
           + INR frames / IZR (PolyphonicVoice.sample_rate self)) self)).
Proof.
  intros Hsr Hph Hrt.
  unfold PolyphonicVoice.update_envelope.
  apply Z.eqb_neq in Hsr. rewrite Hsr.
  cbn. rewrite Hph.
  destruct (Rlt_dec 0 (PolyphonicVoice.release_time self)); [lra | reflexivity].
Qed.

(** C5 (the code at the failing input). A voice built with release time 0 is
    taken to Sustain (value 0.7) by two updates and then released: the next
    [update_envelope] enters Finished but returns 0.7, not 0, and every later
    call in the Finished phase keeps returning 0.7. *)
Theorem finished_via_zero_release_keeps_value :
  let v0 := PolyphonicVoice.init 60 100 44100 zero_release_params in
  let v1 := snd (PolyphonicVoice.update_envelope 512 v0) in
  let v2 := snd (PolyphonicVoice.update_envelope 512 v1) in
  let v3 := PolyphonicVoice.release v2 in
  let r4 := PolyphonicVoice.update_envelope 512 v3 in
  let r5 := PolyphonicVoice.update_envelope 512 (snd r4) in
  PolyphonicVoice.envelope_phase v2 = Sustain
  /\ fst r4 = Return 0.7
  /\ PolyphonicVoice.envelope_phase (snd r4) = Finished
  /\ PolyphonicVoice.is_finished (snd r4) = true
  /\ fst r5 = Return 0.7
  /\ PolyphonicVoice.envelope_phase (snd r5) = Finished
  /\ 0.7 <> 0.
Proof.
  intros v0 v1 v2 v3 r4 r5.
  assert (H1 : PolyphonicVoice.update_envelope 512 v0
               = (Return 1, v1)
               /\ PolyphonicVoice.envelope_phase v1 = Decay).
  { subst v1. rewrite poly_update_zero_attack;
      [split; reflexivity | discriminate | reflexivity | reflexivity]. }
  destruct H1 as [E1 P1].
  assert (H2 : PolyphonicVoice.envelope_phase v2 = Sustain
               /\ PolyphonicVoice.envelope_value v2 = 0.7
               /\ PolyphonicVoice.sample_rate v2 = 44100%Z
               /\ PolyphonicVoice.release_time v2 = 0).
  { subst v2. rewrite poly_update_zero_decay.
    - subst v1. rewrite poly_update_zero_attack;
        [repeat split; reflexivity | discriminate | reflexivity | reflexivity].
    - subst v1. rewrite poly_update_zero_attack;
        [cbn; discriminate | discriminate | reflexivity | reflexivity].
    - exact P1.
    - subst v1. rewrite poly_update_zero_attack;
        [reflexivity | discriminate | reflexivity | reflexivity]. }
  destruct H2 as (P2 & V2 & S2 & R2).
  assert (E4 : r4 = (Return 0.7,
                     PolyphonicVoice.with_envelope_phase Finished
                       (PolyphonicVoice.with_envelope_timer
                          (0 + INR 512 / IZR 44100) v3))).
  { subst r4. rewrite poly_update_zero_release.
    - subst v3. cbn. rewrite V2, S2. reflexivity.
    - subst v3. cbn. rewrite S2. discriminate.
    - reflexivity.
    - subst v3. cbn. rewrite R2. lra. }
  split; [exact P2 |].
  split; [rewrite E4; reflexivity |].
  split; [rewrite E4; reflexivity |].
  split; [rewrite E4; reflexivity |].
  assert (E5 : fst r5 = Return 0.7
               /\ PolyphonicVoice.envelope_phase (snd r5) = Finished).
  { subst r5. rewrite E4. cbn [snd].
    rewrite poly_update_finished.
    - cbn. rewrite V2. split; reflexivity.
    - subst v3. cbn. rewrite S2. discriminate.
    - reflexivity. }
  destruct E5 as [E5 P5].
  split; [exact E5 |]. split; [exact P5 | lra].
Qed.

(** ** Envelope: the release ramp *)

Lemma ramp_progress_full (r t : R) : 0 < r -> r <= t -> Rmin 1 (t / r) = 1.
Proof.
  intros Hr Hrt.
  apply Rmin_left.
  apply Rmult_le_reg_r with r; [exact Hr |].
  unfold Rdiv. rewrite Rmult_assoc, Rinv_l by lra. lra.
Qed.


Lemma ramp_progress_reached (r t : R) :
  0 < r -> Rmin 1 (t / r) >= 1 -> r <= t /\ Rmin 1 (t / r) = 1.
Proof.
  intros Hr Hge.
  assert (Hle : Rmin 1 (t / r) <= 1) by apply Rmin_l.
  assert (Heq : Rmin 1 (t / r) = 1) by lra.
  split; [| exact Heq].
  assert (H1 : 1 <= t / r).
  { unfold Rmin in Heq. destruct (Rle_dec 1 (t / r)); lra. }
  apply Rmult_le_compat_r with (r := r) in H1; [| lra].
  unfold Rdiv in H1. rewrite Rmult_assoc, Rinv_l in H1 by lra. lra.
Qed.

Lemma release_step (frames : nat) (w : PolyphonicVoice.t) :
  (0 < PolyphonicVoice.sample_rate w)%Z ->
  0 < PolyphonicVoice.release_time w ->
  releasing_state w ->
  exists w',
    PolyphonicVoice.update_envelope frames w
    = (Return (release_ramp (PolyphonicVoice.sustain_level w)
                 (PolyphonicVoice.release_time w)
                 (PolyphonicVoice.envelope_timer w
                  + INR frames / IZR (PolyphonicVoice.sample_rate w))), w')
    /\ releasing_state w'
    /\ PolyphonicVoice.envelope_timer w'
       = PolyphonicVoice.envelope_timer w
         + INR frames / IZR (PolyphonicVoice.sample_rate w)
    /\ PolyphonicVoice.sample_rate w' = PolyphonicVoice.sample_rate w
    /\ PolyphonicVoice.release_time w' = PolyphonicVoice.release_time w
    /\ PolyphonicVoice.sustain_level w' = PolyphonicVoice.sustain_level w.
Proof.
  intros Hsr Hrt Hst.
  assert (Hdt : 0 <= INR frames / IZR (PolyphonicVoice.sample_rate w)).
  { apply Rmult_le_pos; [apply pos_INR |].
    apply Rlt_le, Rinv_0_lt_compat, IZR_lt. exact Hsr. }
  unfold PolyphonicVoice.update_envelope.
  replace (PolyphonicVoice.sample_rate w =? 0)%Z with false
    by (symmetry; apply Z.eqb_neq; lia).
  destruct Hst as [Hph | (Hph & Hpast & Hval)].
  - cbn. rewrite Hph.
    destruct (Rlt_dec 0 (PolyphonicVoice.release_time w)) as [_ | Hn];
      [| contradiction].
    cbn.
    destruct (Rge_dec _ 1) as [Hge | Hlt].
    + eexists. split; [reflexivity |].
      apply ramp_progress_reached in Hge; [| exact Hrt].
      destruct Hge as [Hpast Hfull].
      split; [| cbn; repeat split; reflexivity].
      right. cbn.
      split; [reflexivity |]. split; [exact Hpast |].
      unfold release_ramp. reflexivity.
    + eexists. split; [reflexivity |].
      split; [left; exact Hph | cbn; repeat split; reflexivity].
  - cbn. rewrite Hph. cbn.
    eexists. split.
    + rewrite Hval. unfold release_ramp.
      rewrite !ramp_progress_full by lra. reflexivity.
    + split; [| cbn; repeat split; reflexivity].
      right. cbn.
      split; [exact Hph |]. split; [lra |].
      rewrite Hval. unfold release_ramp.
      rewrite !ramp_progress_full by lra. reflexivity.
Qed.

Lemma release_steps (rest : list nat) :
  forall (frames : nat) (w : PolyphonicVoice.t),
    (0 < PolyphonicVoice.sample_rate w)%Z ->
    0 < PolyphonicVoice.release_time w ->
    releasing_state w ->
    exists w',
      poly_updates rest frames w
      = (Return (release_ramp (PolyphonicVoice.sustain_level w)
                   (PolyphonicVoice.release_time w)
                   (elapsed (PolyphonicVoice.envelope_timer w)
                      (PolyphonicVoice.sample_rate w) (frames :: rest))), w')
      /\ releasing_state w'.
Proof.
  induction rest as [| frames' rest' IH]; intros frames w Hsr Hrt Hst.
  - destruct (release_step frames Hsr Hrt Hst)
      as (w' & Hup & Hst' & _).
    exists w'. cbn. rewrite Hup. split; [reflexivity | exact Hst'].
  - destruct (release_step frames Hsr Hrt Hst)
      as (w1 & Hup & Hst1 & Ht1 & Hs1 & Hr1 & Hl1).
    cbn [poly_updates]. rewrite Hup.
    destruct (IH frames' w1) as (w' & Hrun & Hst');
      [rewrite Hs1; exact Hsr | rewrite Hr1; exact Hrt | exact Hst1 |].
    exists w'. split; [| exact Hst'].
    rewrite Hrun, Ht1, Hs1, Hr1, Hl1. reflexivity.
Qed.

(** C6. [release] may be called in any envelope phase: it puts the voice in
    the Release phase and resets the phase-local timer to 0.  From then on,
    with a positive release time, each [update_envelope] returns
    sustain_level * (1 - min(1, t / release_time)) where [t] is the time
    elapsed since the release; the value the envelope had when [release] was
    called does not enter. *)
Theorem release_ramps_from_sustain_level :
  forall (self : PolyphonicVoice.t) (frames : nat) (rest : list nat),
    (0 < PolyphonicVoice.sample_rate self)%Z ->
    0 < PolyphonicVoice.release_time self ->
    let released := PolyphonicVoice.release self in
    PolyphonicVoice.envelope_phase released = Release
    /\ PolyphonicVoice.envelope_timer released = 0
    /\ fst (poly_updates rest frames released)
       = Return (PolyphonicVoice.sustain_level self
                 * (1 - Rmin 1 (elapsed 0 (PolyphonicVoice.sample_rate self)
                                  (frames :: rest)
                                / PolyphonicVoice.release_time self))).
Proof.
  intros self frames rest Hsr Hrt released.
  split; [reflexivity |]. split; [reflexivity |].
  destruct (@release_steps rest frames released) as (w' & Hrun & _).
  - exact Hsr.
  - exact Hrt.
  - left. reflexivity.
  - rewrite Hrun. reflexivity.
Qed.

Lemma release_after_two_blocks :
  let self := PolyphonicVoice.init 60 100 44100 default_params in
  let released := PolyphonicVoice.release self in
  PolyphonicVoice.envelope_phase released = Release
  /\ PolyphonicVoice.envelope_timer released = 0
  /\ fst (poly_updates [512%nat] 512 released)
     = Return (0.7 * (1 - Rmin 1 (elapsed 0 44100 [512%nat; 512%nat] / 0.3))).
Proof.
  apply (@release_ramps_from_sustain_level
           (PolyphonicVoice.init 60 100 44100 default_params)
           512%nat [512%nat]).
  - reflexivity.
  - cbn. lra.
Defined.

(** ** Oscillator range *)

Lemma py_mod_1_range (x : R) : 0 <= py_mod x 1 < 1.
Proof.
  unfold py_mod.
  replace (x / 1) with x by field.
  rewrite Rmult_1_r.
  destruct (base_fp x) as [Hge Hlt].
  unfold frac_part in Hge, Hlt. lra.
Qed.

Lemma np_sign_range (x : R) : in_unit_range (np_sign x).
Proof. unfold in_unit_range, np_sign. rdec. Qed.

Lemma poly_waveform_sample_range (waveform : Z) (x : R) :
  in_unit_range (PolyphonicVoice.waveform_sample waveform x).
Proof.
  unfold PolyphonicVoice.waveform_sample.
  destruct (waveform =? 1)%Z; [apply np_sign_range |].
  destruct (waveform =? 2)%Z.
  { unfold in_unit_range.
    pose proof (py_mod_1_range (x / (2 * PI))). lra. }
  destruct (waveform =? 3)%Z.
  { unfold in_unit_range. cbv zeta.
    pose proof (py_mod_1_range (x / (2 * PI))) as Hp.
    assert (Habs : 0 <= Rabs (2 * py_mod (x / (2 * PI)) 1 - 1) <= 1).
    { split; [apply Rabs_pos | apply Rabs_le; lra]. }
    lra. }
  apply SIN_bound.
Qed.

(** C8. For every waveform selector (1 Square, 2 Sawtooth, 3 Triangle, any
    other value Sine), every voice (hence every starting phase, frequency and
    sample rate), detune and block length N, the raw oscillator block that
    [generate] computes has N samples, each within [-1, 1], before filter,
    envelope and velocity are applied. *)
Theorem oscillator_within_unit_range :
  forall (self : PolyphonicVoice.t) (frames : nat) (waveform : Z) (detune : R),
    length (PolyphonicVoice.oscillator self frames waveform detune) = frames
    /\ Forall in_unit_range
         (PolyphonicVoice.oscillator self frames waveform detune).
Proof.
  intros self frames waveform detune.
  unfold PolyphonicVoice.oscillator, PolyphonicVoice.phases.
  split.
  - rewrite !length_map, length_seq. reflexivity.
  - apply Forall_forall. intros y Hy.
    apply in_map_iff in Hy. destruct Hy as (x & <- & _).
    apply poly_waveform_sample_range.
Qed.

(** ** Frequency that is not positive *)

Lemma map_const_seq (A : Type) (c : A) (n start : nat) :
  map (fun _ => c) (seq start n) = repeat c n.
Proof.
  revert start. induction n as [| n IH]; intros start; cbn.
  - reflexivity.
  - rewrite IH. reflexivity.
Qed.

Lemma map_repeat (A B : Type) (f : A -> B) (c : A) (n : nat) :
  map f (repeat c n) = repeat (f c) n.
Proof.
  induction n as [| n IH]; cbn; [reflexivity | rewrite IH; reflexivity].
Qed.

Lemma poly_zero_freq_oscillator (self : PolyphonicVoice.t) (frames : nat)
      (waveform : Z) (detune : R) :
  PolyphonicVoice.detuned_freq self detune = 0 ->
  PolyphonicVoice.oscillator self frames waveform detune
  = repeat (PolyphonicVoice.waveform_sample waveform
              (PolyphonicVoice.phase self)) frames.
Proof.
  intros Hf.
  unfold PolyphonicVoice.oscillator, PolyphonicVoice.phases,
    PolyphonicVoice.phase_increment.
  rewrite Hf, map_map.
  rewrite <- (map_const_seq _ frames 0).
  apply map_ext. intros i.
  f_equal. unfold Rdiv. ring.
Qed.

Lemma poly_update_returns (frames : nat) (self : PolyphonicVoice.t) :
  PolyphonicVoice.sample_rate self <> 0%Z ->
  exists envelope self',
    PolyphonicVoice.update_envelope frames self = (Return envelope, self')
    /\ PolyphonicVoice.velocity self' = PolyphonicVoice.velocity self.
Proof.
  intros Hsr.
  unfold PolyphonicVoice.update_envelope.
  apply Z.eqb_neq in Hsr. rewrite Hsr.
  eexists. eexists. split; [reflexivity |].
  cbn. destruct (PolyphonicVoice.envelope_phase self); rdec; reflexivity.
Qed.

Lemma poly_generate_unfiltered (frames : nat) (waveform : Z)
      (filter_cutoff detune : R) (self : PolyphonicVoice.t) :
  PolyphonicVoice.is_finished self = false ->
  PolyphonicVoice.sample_rate self <> 0%Z ->
  PolyphonicVoice.filter_applies waveform filter_cutoff = false ->
  exists envelope self',
    PolyphonicVoice.generate frames waveform filter_cutoff detune self
    = (Return (map (fun x => x * (envelope * PolyphonicVoice.velocity self))
                 (PolyphonicVoice.oscillator self frames waveform detune)),
       self')
    /\ fst (PolyphonicVoice.update_envelope frames self) = Return envelope.
Proof.
  intros Hnf Hsr Hfa.
  unfold PolyphonicVoice.generate.
  rewrite Hnf, Hfa.
  pose proof Hsr as Hsr'. apply Z.eqb_neq in Hsr'. rewrite Hsr'.
  rewrite poly_update_past_phase. unfold map_self.
  destruct (@poly_update_returns frames self Hsr)
    as (envelope & self1 & Hup & Hvel).
  rewrite Hup. cbn [fst snd].
  exists envelope. eexists. split; [| reflexivity].
  change (PolyphonicVoice.velocity (PolyphonicVoice.with_phase _ self1))
    with (PolyphonicVoice.velocity self1).
  rewrite Hvel. reflexivity.
Qed.

(** C7 (as amended). [generate] has no clamp for a frequency that is not
    positive.  When the detuned frequency is 0 the phase increment is 0, so
    each of the N raw oscillator samples is the waveform's value at the
    voice's current phase, and with the filter bypassed [generate] returns N
    copies of that value times envelope times velocity: silence only where
    one of the three factors is 0.  Holds for both voice classes. *)
Theorem zero_frequency_block_repeats_current_sample :
  forall (self : PolyphonicVoice.t) (frames : nat) (waveform : Z)
         (filter_cutoff detune : R),
    PolyphonicVoice.is_finished self = false ->
    PolyphonicVoice.sample_rate self <> 0%Z ->
    PolyphonicVoice.filter_applies waveform filter_cutoff = false ->
    PolyphonicVoice.detuned_freq self detune = 0 ->
    (PolyphonicVoice.oscillator self frames waveform detune
     = repeat (PolyphonicVoice.waveform_sample waveform
                 (PolyphonicVoice.phase self)) frames
     /\ exists envelope,
         fst (PolyphonicVoice.update_envelope frames self) = Return envelope
         /\ fst (PolyphonicVoice.generate frames waveform filter_cutoff detune
                   self)
            = Return (repeat
                        (PolyphonicVoice.waveform_sample waveform
                           (PolyphonicVoice.phase self)
                         * (envelope * PolyphonicVoice.velocity self))
                        frames))
    /\ (MPKVoice.oscillator (to_mpk self) frames waveform detune
        = repeat (MPKVoice.waveform_sample waveform
                    (MPKVoice.phase (to_mpk self))) frames
        /\ exists envelope,
            fst (MPKVoice.update_envelope frames (to_mpk self))
            = Return envelope
            /\ fst (MPKVoice.generate frames waveform filter_cutoff detune
                      (to_mpk self))
               = Return (repeat
                           (MPKVoice.waveform_sample waveform
                              (MPKVoice.phase (to_mpk self))
                            * (envelope * MPKVoice.velocity (to_mpk self)))
                           frames)).
Proof.
  intros self frames waveform filter_cutoff detune Hnf Hsr Hfa Hf.
  pose proof (@poly_zero_freq_oscillator self frames waveform detune Hf)
    as Hosc.
  destruct (@poly_generate_unfiltered frames waveform filter_cutoff detune
              self Hnf Hsr Hfa) as (envelope & self' & Hgen & Henv).
  assert (Hblock :
    fst (PolyphonicVoice.generate frames waveform filter_cutoff detune self)
    = Return (repeat
                (PolyphonicVoice.waveform_sample waveform
                   (PolyphonicVoice.phase self)
                 * (envelope * PolyphonicVoice.velocity self)) frames)).
  { rewrite Hgen, Hosc, map_repeat. reflexivity. }
  split.
  - split; [exact Hosc |]. exists envelope. split; assumption.
  - split; [exact Hosc |]. exists envelope.
    rewrite update_envelope_lockstep, generate_lockstep.
    unfold map_self. cbn [fst]. split; assumption.
Qed.

Lemma py_mod_0_1 : py_mod 0 1 = 0.
Proof.
  unfold py_mod.
  replace (0 / 1) with 0 by field.
  pose proof fp_R0 as H. unfold frac_part in H. lra.
Qed.

Lemma sawtooth_at_phase_0 : PolyphonicVoice.waveform_sample 2 0 = -1.
Proof.
  unfold PolyphonicVoice.waveform_sample. cbn.
  replace (0 / (2 * PI)) with 0 by (unfold Rdiv; ring).
  rewrite py_mod_0_1. ring.
Qed.

Lemma zero_hz_voice_generate :
  fst (PolyphonicVoice.generate 2 2 8000 0 zero_hz_voice)
  = Return (repeat (-1 * (1 * (100 / 127))) 2).
Proof.
  destruct (@zero_frequency_block_repeats_current_sample
              zero_hz_voice 2 2 8000 0) as [[_ (envelope & Henv & Hgen)] _].
  - reflexivity.
  - discriminate.
  - unfold PolyphonicVoice.filter_applies.
    destruct (Rlt_dec 8000 6000); [lra | reflexivity].
  - unfold PolyphonicVoice.detuned_freq. cbn. ring.
  - rewrite Hgen.
    rewrite poly_update_zero_attack in Henv;
      [| discriminate | reflexivity | reflexivity].
    cbn in Henv. injection Henv as <-.
    cbn [PolyphonicVoice.phase zero_hz_voice PolyphonicVoice.velocity].
    rewrite sawtooth_at_phase_0. reflexivity.
Defined.

(** A voice at 0 Hz rendering a sawtooth: the detuned frequency is not
    positive, yet the block is not silent. *)
Lemma zero_frequency_sawtooth_not_silent :
  PolyphonicVoice.detuned_freq zero_hz_voice 0 <= 0
  /\ fst (PolyphonicVoice.generate 2 2 8000 0 zero_hz_voice)
     <> Return (repeat 0 2).
Proof.
  split.
  - unfold PolyphonicVoice.detuned_freq. cbn. lra.
  - destruct (@poly_generate_unfiltered 2 2 8000 0 zero_hz_voice)
      as (envelope & self' & Hgen & Henv).
    + reflexivity.
    + discriminate.
    + unfold PolyphonicVoice.filter_applies.
      destruct (Rlt_dec 8000 6000); [lra | reflexivity].
    + rewrite Hgen. cbn [fst].
      rewrite poly_zero_freq_oscillator
        by (unfold PolyphonicVoice.detuned_freq; cbn; ring).
      rewrite poly_update_zero_attack in Henv;
        [| discriminate | reflexivity | reflexivity].
      cbn in Henv. injection Henv as <-.
      cbn [PolyphonicVoice.phase zero_hz_voice PolyphonicVoice.velocity].
      rewrite sawtooth_at_phase_0. cbn.
      intros H. injection H as H _. lra.
Qed.

(** ** Dict operations *)

Section DictFacts.
Variable V : Type.
Implicit Types (d : dict V) (k : Z) (v : V).

Lemma dict_mem_In k d : dict_mem k d = true <-> In k (dict_keys d).
Proof.
  unfold dict_mem, dict_keys. rewrite existsb_exists, in_map_iff.
  split.
  - intros (kv & Hin & Heq). apply Z.eqb_eq in Heq. exists kv. auto.
  - intros (kv & Heq & Hin). exists kv. split; [exact Hin |].
    apply Z.eqb_eq. exact Heq.
Qed.

Lemma dict_mem_false k d : dict_mem k d = false <-> ~ In k (dict_keys d).
Proof.
  rewrite <- dict_mem_In. destruct (dict_mem k d); split; intros H.
  - discriminate.
  - exfalso. apply H. reflexivity.
  - discriminate.
  - reflexivity.
Qed.

Lemma dict_remove_keys_incl k d :
  forall x, In x (dict_keys (dict_remove k d)) -> In x (dict_keys d).
Proof.
  induction d as [| [k' v'] rest IH]; intros x Hx; cbn in *.
  - exact Hx.
  - destruct (k' =? k)%Z; cbn in *.
    + right. exact Hx.
    + destruct Hx as [Hx | Hx]; [left; exact Hx | right; apply IH; exact Hx].
Qed.

Lemma dict_remove_NoDup k d :
  NoDup (dict_keys d) -> NoDup (dict_keys (dict_remove k d)).
Proof.
  induction d as [| [k' v'] rest IH]; intros Hnd; cbn in *.
  - exact Hnd.
  - inversion Hnd as [| ? ? Hnotin Hrest]; subst.
    destruct (k' =? k)%Z; cbn.
    + exact Hrest.
    + constructor; [| apply IH; exact Hrest].
      intros Hin. apply Hnotin. apply (dict_remove_keys_incl k). exact Hin.
Qed.

Lemma dict_remove_length_mem k d :
  dict_mem k d = true -> length d = S (length (dict_remove k d)).
Proof.
  induction d as [| [k' v'] rest IH]; intros Hmem; cbn in *.
  - discriminate.
  - destruct (k' =? k)%Z; cbn in *; [reflexivity |].
    rewrite IH by exact Hmem. reflexivity.
Qed.

Lemma dict_remove_length_le k d : (length (dict_remove k d) <= length d)%nat.
Proof.
  induction d as [| [k' v'] rest IH]; cbn; [lia |].
  destruct (k' =? k)%Z; cbn; lia.
Qed.

Lemma dict_remove_not_mem k d :
  NoDup (dict_keys d) -> dict_mem k (dict_remove k d) = false.
Proof.
  induction d as [| [k' v'] rest IH]; intros Hnd; cbn in *.
  - reflexivity.
  - inversion Hnd as [| ? ? Hnotin Hrest]; subst.
    destruct (k' =? k)%Z eqn:E; cbn.
    + apply Z.eqb_eq in E. subst k'.
      apply dict_mem_false. exact Hnotin.
    + rewrite E. cbn. apply IH. exact Hrest.
Qed.

Lemma dict_remove_get_other k k' d :
  k' <> k -> dict_get k' (dict_remove k d) = dict_get k' d.
Proof.
  intros Hne.
  induction d as [| [k0 v0] rest IH]; cbn; [reflexivity |].
  destruct (k0 =? k)%Z eqn:E; cbn.
  - apply Z.eqb_eq in E. subst k0.
    replace (k =? k')%Z with false by (symmetry; apply Z.eqb_neq; congruence).
    reflexivity.
  - rewrite IH. reflexivity.
Qed.

Lemma dict_get_None k d : dict_mem k d = false -> dict_get k d = None.
Proof.
  induction d as [| [k0 v0] rest IH]; cbn; [reflexivity |].
  destruct (k0 =? k)%Z; cbn; [discriminate | exact IH].
Qed.

Lemma dict_get_Some_mem k d v : dict_get k d = Some v -> dict_mem k d = true.
Proof.
  destruct (dict_mem k d) eqn:E; [reflexivity |].
  rewrite dict_get_None by exact E. discriminate.
Qed.

Lemma dict_set_new k v d :
  dict_mem k d = false -> dict_set k v d = d ++ [(k, v)].
Proof.
  induction d as [| [k0 v0] rest IH]; cbn; [reflexivity |].
  destruct (k0 =? k)%Z; cbn; [discriminate |].
  intros H. rewrite IH by exact H. reflexivity.
Qed.

Lemma dict_set_keys_mem k v d :
  dict_mem k d = true -> dict_keys (dict_set k v d) = dict_keys d.
Proof.
  unfold dict_keys.
  induction d as [| [k0 v0] rest IH]; cbn; [discriminate |].
  destruct (k0 =? k)%Z eqn:E; cbn.
  - intros _. apply Z.eqb_eq in E. subst k0. reflexivity.
  - intros H. rewrite IH by exact H. reflexivity.
Qed.

Lemma dict_set_length_mem k v d :
  dict_mem k d = true -> length (dict_set k v d) = length d.
Proof.
  intros H.
  rewrite <- (length_map fst (dict_set k v d)), <- (length_map fst d).
  fold (dict_keys (dict_set k v d)). fold (dict_keys d).
  rewrite dict_set_keys_mem by exact H. reflexivity.
Qed.

Lemma dict_set_length_le k v d :
  (length (dict_set k v d) <= S (length d))%nat.
Proof.
  destruct (dict_mem k d) eqn:E.
  - rewrite dict_set_length_mem by exact E. lia.
  - rewrite dict_set_new by exact E. rewrite length_app. cbn. lia.
Qed.

Lemma dict_set_NoDup k v d :
  NoDup (dict_keys d) -> NoDup (dict_keys (dict_set k v d)).
Proof.
  intros Hnd.
  destruct (dict_mem k d) eqn:E.
  - rewrite dict_set_keys_mem by exact E. exact Hnd.
  - rewrite dict_set_new by exact E.
    unfold dict_keys. rewrite map_app. cbn.
    apply NoDup_app.
    + exact Hnd.
    + constructor; [intros [] | constructor].
    + intros x Hx [Hx' | []]. subst x.
      apply dict_mem_false in E. apply E. exact Hx.
Qed.

Lemma dict_set_get_same k v d : dict_get k (dict_set k v d) = Some v.
Proof.
  induction d as [| [k0 v0] rest IH]; cbn.
  - rewrite Z.eqb_refl. reflexivity.
  - destruct (k0 =? k)%Z eqn:E; cbn.
    + rewrite Z.eqb_refl. reflexivity.
    + rewrite E. exact IH.
Qed.

Lemma dict_set_get_other k k' v d :
  k' <> k -> dict_get k' (dict_set k v d) = dict_get k' d.
Proof.
  intros Hne.
  induction d as [| [k0 v0] rest IH]; cbn.
  - replace (k =? k')%Z with false by (symmetry; apply Z.eqb_neq; congruence).
    reflexivity.
  - destruct (k0 =? k)%Z eqn:E; cbn.
    + apply Z.eqb_eq in E. subst k0.
      replace (k =? k')%Z with false
        by (symmetry; apply Z.eqb_neq; congruence).
      reflexivity.
    + rewrite IH. reflexivity.
Qed.
End DictFacts.

Lemma fold_min_le (l : list Z) :
  forall a, (fold_left Z.min l a <= a)%Z
            /\ (forall x, In x l -> (fold_left Z.min l a <= x)%Z)
            /\ (fold_left Z.min l a = a \/ In (fold_left Z.min l a) l).
Proof.
  induction l as [| y rest IH]; intros a; cbn.
  - split; [lia |]. split; [intros x [] | left; reflexivity].
  - destruct (IH (Z.min a y)) as (H1 & H2 & H3).
    split; [lia |]. split.
    + intros x [Hx | Hx]; [subst x; lia | apply H2; exact Hx].
    + destruct H3 as [H3 | H3]; [| right; right; exact H3].
      rewrite H3. destruct (Z.min_spec a y) as [[_ E] | [_ E]]; rewrite E.
      * left. reflexivity.
      * right. left. reflexivity.
Qed.

Lemma py_min_spec (l : list Z) :
  l <> [] ->
  exists m, py_min l = Return m /\ In m l /\ forall x, In x l -> (m <= x)%Z.
Proof.
  destruct l as [| a rest]; intros Hne; [congruence |].
  cbn. eexists. split; [reflexivity |].
  destruct (fold_min_le rest a) as (H1 & H2 & H3).
  split.
  - destruct H3 as [H3 | H3]; [left; symmetry; exact H3 | right; exact H3].
  - intros x [Hx | Hx]; [subst x; exact H1 | apply H2; exact Hx].
Qed.

(** ** The voice pool under [note_on], [note_off] and rendering *)

Section PoolFacts.
Variable V : Type.
Variable voice_release : V -> V.
Variable voice_is_finished : V -> bool.
Variable voice_generate : nat -> Z -> R -> R -> M V (list R).

(** [note_on] with its sequencing spelled out *)
Lemma note_on_unfold (max_voices note : Z) (new_voice : V)
      (voices : dict V) :
  Engine.note_on max_voices note new_voice voices
  = let voices1 :=
      if dict_mem note voices then dict_remove note voices else voices in
    if (Z.of_nat (length voices1) >=? max_voices)%Z then
      match py_min (dict_keys voices1) with
      | Raise e => (Raise e, voices1)
      | Return oldest_note =>
          if dict_mem oldest_note voices1 then
            (Return tt,
             dict_set note new_voice (dict_remove oldest_note voices1))
          else (Raise KeyError, voices1)
      end
    else (Return tt, dict_set note new_voice voices1).
Proof.
  unfold Engine.note_on, bind, get, put, ret, dict_del.
  destruct (dict_mem note voices) eqn:Hmem; cbn zeta.
  - rewrite Hmem.
    destruct (Z.of_nat (length (dict_remove note voices)) >=? max_voices)%Z;
      [| reflexivity].
    destruct (py_min (dict_keys (dict_remove note voices))) as [m | e];
      [| reflexivity].
    destruct (dict_mem m (dict_remove note voices)); reflexivity.
  - destruct (Z.of_nat (length voices) >=? max_voices)%Z; [| reflexivity].
    destruct (py_min (dict_keys voices)) as [m | e]; [| reflexivity].
    destruct (dict_mem m voices); reflexivity.
Qed.

Lemma pool_ok_remove (max_voices k : Z) (voices : dict V) :
  pool_ok max_voices voices -> pool_ok max_voices (dict_remove k voices).
Proof.
  intros [Hnd Hlen]. split.
  - apply dict_remove_NoDup. exact Hnd.
  - pose proof (dict_remove_length_le k voices). lia.
Qed.

Lemma note_on_pool_ok (max_voices note : Z) (new_voice : V)
      (voices : dict V) :
  pool_ok max_voices voices ->
  pool_ok max_voices
    (snd (Engine.note_on max_voices note new_voice voices)).
Proof.
  intros Hok.
  rewrite note_on_unfold. cbv zeta.
  set (voices1 := if dict_mem note voices then dict_remove note voices
                  else voices).
  assert (Hok1 : pool_ok max_voices voices1).
  { subst voices1. destruct (dict_mem note voices);
      [apply pool_ok_remove |]; exact Hok. }
  destruct (Z.of_nat (length voices1) >=? max_voices)%Z eqn:Hfull.
  - destruct (py_min (dict_keys voices1)) as [m | e]; [| exact Hok1].
    destruct (dict_mem m voices1) eqn:Hm; [| exact Hok1].
    cbn [snd]. destruct Hok1 as [Hnd Hlen]. split.
    + apply dict_set_NoDup, dict_remove_NoDup. exact Hnd.
    + pose proof (dict_remove_length_mem _ _ Hm).
      pose proof (dict_set_length_le note new_voice (dict_remove m voices1)).
      lia.
  - cbn [snd]. destruct Hok1 as [Hnd Hlen]. split.
    + apply dict_set_NoDup. exact Hnd.
    + pose proof (dict_set_length_le note new_voice voices1).
      rewrite Z.geb_leb in Hfull. apply Z.leb_gt in Hfull. lia.
Qed.

Lemma note_off_pool_ok (max_voices note : Z) (voices : dict V) :
  pool_ok max_voices voices ->
  pool_ok max_voices (snd (Engine.note_off voice_release note voices)).
Proof.
  intros Hok.
  unfold Engine.note_off, bind, get, put, ret, raise.
  destruct (dict_mem note voices) eqn:Hmem; [| exact Hok].
  destruct (dict_get note voices) as [voice |]; [| exact Hok].
  cbn [snd]. destruct Hok as [Hnd Hlen]. split.
  - rewrite dict_set_keys_mem by exact Hmem. exact Hnd.
  - rewrite dict_set_length_mem by exact Hmem. exact Hlen.
Qed.

Lemma mix_voices_keys (frames : nat) (waveform : Z)
      (filter_cutoff detune : R) (items : dict V) :
  forall (audio : list R) (voices_to_remove : list Z),
    dict_keys
      (snd (Engine.mix_voices voice_is_finished voice_generate frames
              waveform filter_cutoff detune audio voices_to_remove items))
    = dict_keys items.
Proof.
  induction items as [| [note voice] rest IH];
    intros audio voices_to_remove; cbn.
  - reflexivity.
  - destruct (voice_is_finished voice).
    + specialize (IH audio (voices_to_remove ++ [note])).
      destruct (Engine.mix_voices _ _ _ _ _ _ _ _ rest) as [r rest'].
      cbn in *. rewrite IH. reflexivity.
    + destruct (voice_generate frames waveform filter_cutoff detune voice)
        as [[voice_audio | e] voice']; cbn; [| reflexivity].
      specialize (IH (np_add audio voice_audio) voices_to_remove).
      destruct (Engine.mix_voices _ _ _ _ _ _ _ _ rest) as [r rest'].
      cbn in *. rewrite IH. reflexivity.
Qed.

Lemma keys_length (d : dict V) : length (dict_keys d) = length d.
Proof. unfold dict_keys. apply length_map. Qed.

Lemma pool_ok_same_keys (max_voices : Z) (d d' : dict V) :
  dict_keys d' = dict_keys d -> pool_ok max_voices d -> pool_ok max_voices d'.
Proof.
  intros Hk [Hnd Hlen]. split.
  - rewrite Hk. exact Hnd.
  - rewrite <- keys_length, Hk, keys_length. exact Hlen.
Qed.

Lemma remove_voices_pool_ok (max_voices : Z) (notes : list Z) :
  forall voices : dict V,
    pool_ok max_voices voices ->
    pool_ok max_voices (snd (Engine.remove_voices notes voices)).
Proof.
  induction notes as [| note rest IH]; intros voices Hok; cbn.
  - exact Hok.
  - unfold bind, dict_del.
    destruct (dict_mem note voices); [| exact Hok].
    apply IH, pool_ok_remove, Hok.
Qed.

Lemma render_pool_ok (max_voices : Z) (frames : nat) (waveform : Z)
      (filter_cutoff detune master_volume : R)
      (voices : dict V) (outdata : ndarray) :
  pool_ok max_voices voices ->
  pool_ok max_voices
    (fst (snd (Engine.render voice_is_finished voice_generate frames
                 waveform filter_cutoff detune master_volume
                 (voices, outdata)))).
Proof.
  intros Hok.
  unfold Engine.render, bind, Engine.on_fst, Engine.on_snd. cbn [fst snd].
  pose proof (@mix_voices_keys frames waveform filter_cutoff detune voices
                (repeat 0 frames) []) as Hkeys.
  destruct (Engine.mix_voices _ _ _ _ _ _ _ _ voices)
    as [[[audio voices_to_remove] | e] voices1]; cbn [fst snd] in *.
  - assert (Hok1 : pool_ok max_voices voices1)
      by (eapply pool_ok_same_keys; [exact Hkeys | exact Hok]).
    pose proof (@remove_voices_pool_ok max_voices voices_to_remove voices1
                  Hok1) as Hok2.
    destruct (Engine.remove_voices voices_to_remove voices1)
      as [[[] | e] voices2]; cbn [fst snd] in *; [| exact Hok2].
    destruct (set_column 0 _ outdata) as [[[] | e] outdata1];
      cbn [fst snd]; [| exact Hok2].
    destruct (set_column 1 _ outdata1) as [[[] | e] outdata2];
      cbn [fst snd]; exact Hok2.
  - eapply pool_ok_same_keys; [exact Hkeys | exact Hok].
Qed.

Lemma audio_callback_pool_ok (max_voices : Z) (frames : nat) (waveform : Z)
      (filter_cutoff detune master_volume : R)
      (voices : dict V) (outdata : ndarray) :
  pool_ok max_voices voices ->
  pool_ok max_voices
    (fst (snd (Engine.audio_callback voice_is_finished voice_generate
                 frames waveform filter_cutoff detune master_volume
                 (voices, outdata)))).
Proof.
  intros Hok.
  unfold Engine.audio_callback, try_except_Exception.
  pose proof (@render_pool_ok max_voices frames waveform filter_cutoff
                detune master_volume voices outdata Hok) as H.
  destruct (Engine.render _ _ _ _ _ _ _ _) as [[[] | e] [voices' outdata']];
    cbn [fst snd] in *; [exact H |].
  destruct (isinstance_Exception e); exact H.
Qed.
End PoolFacts.

(** ** The pool invariant on the two synths *)

Lemma fourpot_note_on_inv (note velocity : Z) (self : FourPotMIDISynth.t) :
  fourpot_inv self ->
  fourpot_inv (snd (FourPotMIDISynth.note_on note velocity self)).
Proof.
  intros [Hmax Hok].
  unfold FourPotMIDISynth.note_on.
  pose proof (@note_on_pool_ok _ (FourPotMIDISynth.max_voices self) note
                (PolyphonicVoice.init note velocity
                   (FourPotMIDISynth.sample_rate self)
                   (FourPotMIDISynth.get_envelope_params self))
                (FourPotMIDISynth.voices self)) as H.
  rewrite Hmax in *. specialize (H Hok).
  destruct (Engine.note_on _ _ _ _) as [r voices].
  split; [exact Hmax | exact H].
Qed.

Lemma fourpot_note_off_inv (note : Z) (self : FourPotMIDISynth.t) :
  fourpot_inv self ->
  fourpot_inv (snd (FourPotMIDISynth.note_off note self)).
Proof.
  intros [Hmax Hok].
  unfold FourPotMIDISynth.note_off.
  pose proof (@note_off_pool_ok _ PolyphonicVoice.release 12 note
                (FourPotMIDISynth.voices self) Hok) as H.
  destruct (Engine.note_off _ _ _) as [r voices].
  split; [exact Hmax | exact H].
Qed.

Lemma fourpot_handle_cc_inv (controller value : Z)
      (self : FourPotMIDISynth.t) :
  fourpot_inv self ->
  fourpot_inv (FourPotMIDISynth.handle_cc controller value self).
Proof.
  intros Hinv. unfold FourPotMIDISynth.handle_cc.
  destruct (controller =? 70)%Z; [exact Hinv |].
  destruct (controller =? 71)%Z; exact Hinv.
Qed.

Lemma fourpot_midi_callback_inv (msg : list Z) (self : FourPotMIDISynth.t) :
  fourpot_inv self ->
  fourpot_inv (snd (FourPotMIDISynth.midi_callback msg self)).
Proof.
  intros Hinv.
  unfold FourPotMIDISynth.midi_callback, try_except_Exception, ret.
  assert (Hbody : forall (m : M FourPotMIDISynth.t unit),
             fourpot_inv (snd (m self)) ->
             fourpot_inv
               (snd (let (r, s') := m self in
                     match r with
                     | Return a => (Return a, s')
                     | Raise e =>
                         if isinstance_Exception e then (Return tt, s')
                         else (Raise e, s')
                     end))).
  { intros m Hm. destruct (m self) as [[[] | e] s']; cbn in *; [exact Hm |].
    destruct (isinstance_Exception e); exact Hm. }
  destruct msg as [| status [| note [| velocity rest]]];
    try (apply (Hbody (fun s => (Return tt, s))); exact Hinv).
  destruct ((144 <=? status)%Z && (status <=? 159)%Z && (velocity >? 0)%Z).
  { apply (Hbody (FourPotMIDISynth.note_on note velocity)).
    apply fourpot_note_on_inv. exact Hinv. }
  destruct ((128 <=? status)%Z && (status <=? 143)%Z
            || (144 <=? status)%Z && (status <=? 159)%Z && (velocity =? 0)%Z).
  { apply (Hbody (FourPotMIDISynth.note_off note)).
    apply fourpot_note_off_inv. exact Hinv. }
  destruct ((176 <=? status)%Z && (status <=? 191)%Z).
  { apply (Hbody (fun s => (Return tt,
                            FourPotMIDISynth.handle_cc note velocity s))).
    apply fourpot_handle_cc_inv. exact Hinv. }
  apply (Hbody (fun s => (Return tt, s))). exact Hinv.
Qed.

Lemma fourpot_audio_callback_inv (frames : nat) (outdata : ndarray)
      (self : FourPotMIDISynth.t) :
  fourpot_inv self ->
  fourpot_inv
    (fst (snd (FourPotMIDISynth.audio_callback frames (self, outdata)))).
Proof.
  intros [Hmax Hok].
  unfold FourPotMIDISynth.audio_callback.
  pose proof (@audio_callback_pool_ok _ PolyphonicVoice.is_finished
                PolyphonicVoice.generate 12 frames
                (FourPotMIDISynth.waveform self)
                (FourPotMIDISynth.filter_cutoff self)
                (FourPotMIDISynth.detune self)
                (FourPotMIDISynth.master_volume self)
                (FourPotMIDISynth.voices self) outdata Hok) as H.
  destruct (Engine.audio_callback _ _ _ _ _ _ _ _) as [r st'].
  split; [exact Hmax | exact H].
Qed.

Lemma fourpot_exec_inv (c : FourPotMIDISynth.call)
      (self : FourPotMIDISynth.t) :
  fourpot_inv self -> fourpot_inv (FourPotMIDISynth.exec c self).
Proof.
  intros Hinv.
  destruct c; cbn [FourPotMIDISynth.exec].
  - apply fourpot_note_on_inv, Hinv.
  - apply fourpot_note_off_inv, Hinv.
  - apply fourpot_handle_cc_inv, Hinv.
  - apply fourpot_midi_callback_inv, Hinv.
  - exact Hinv.
  - apply fourpot_audio_callback_inv, Hinv.
Qed.

Lemma fourpot_run_inv (calls : list FourPotMIDISynth.call) :
  forall self : FourPotMIDISynth.t,
    fourpot_inv self -> fourpot_inv (FourPotMIDISynth.run calls self).
Proof.
  induction calls as [| c rest IH]; intros self Hinv; cbn.
  - exact Hinv.
  - apply IH, fourpot_exec_inv, Hinv.
Qed.

Lemma pool_ok_empty (V : Type) (max_voices : Z) :
  (0 <= max_voices)%Z -> pool_ok max_voices (@nil (Z * V)).
Proof. intros H. split; [constructor | cbn; exact H]. Qed.

Lemma mpk_note_on_inv (note velocity : Z) (self : MPKOnlySynth.t) :
  mpk_inv self -> mpk_inv (snd (MPKOnlySynth.note_on note velocity self)).
Proof.
  intros [Hmax Hok].
  unfold MPKOnlySynth.note_on.
  pose proof (@note_on_pool_ok _ (MPKOnlySynth.max_voices self) note
                (MPKVoice.init note velocity (MPKOnlySynth.sample_rate self)
                   (MPKOnlySynth.get_synth_params self))
                (MPKOnlySynth.voices self)) as H.
  rewrite Hmax in *. specialize (H Hok).
  destruct (Engine.note_on _ _ _ _) as [r voices].
  split; [exact Hmax | exact H].
Qed.

Lemma mpk_note_off_inv (note : Z) (self : MPKOnlySynth.t) :
  mpk_inv self -> mpk_inv (snd (MPKOnlySynth.note_off note self)).
Proof.
  intros [Hmax Hok].
  unfold MPKOnlySynth.note_off.
  pose proof (@note_off_pool_ok _ MPKVoice.release 16 note
                (MPKOnlySynth.voices self) Hok) as H.
  destruct (Engine.note_off _ _ _) as [r voices].
  split; [exact Hmax | exact H].
Qed.

Lemma mpk_handle_knob_inv (controller value : Z) (self : MPKOnlySynth.t) :
  mpk_inv self -> mpk_inv (MPKOnlySynth.handle_knob controller value self).
Proof.
  intros Hinv. unfold MPKOnlySynth.handle_knob. cbv zeta.
  repeat match goal with
         | |- context [(controller =? ?n)%Z] =>
             destruct (controller =? n)%Z; [rdec; exact Hinv |]
         end.
  exact Hinv.
Qed.

Lemma mpk_midi_callback_inv (msg : list Z) (self : MPKOnlySynth.t) :
  mpk_inv self -> mpk_inv (snd (MPKOnlySynth.midi_callback msg self)).
Proof.
  intros Hinv.
  unfold MPKOnlySynth.midi_callback, try_except_Exception, ret.
  assert (Hbody : forall (m : M MPKOnlySynth.t unit),
             mpk_inv (snd (m self)) ->
             mpk_inv
               (snd (let (r, s') := m self in
                     match r with
                     | Return a => (Return a, s')
                     | Raise e =>
                         if isinstance_Exception e then (Return tt, s')
                         else (Raise e, s')
                     end))).
  { intros m Hm. destruct (m self) as [[[] | e] s']; cbn in *; [exact Hm |].
    destruct (isinstance_Exception e); exact Hm. }
  destruct msg as [| status [| data1 [| data2 rest]]];
    try (apply (Hbody (fun s => (Return tt, s))); exact Hinv).
  destruct ((144 <=? status)%Z && (status <=? 159)%Z && (data2 >? 0)%Z).
  { apply (Hbody (MPKOnlySynth.note_on data1 data2)).
    apply mpk_note_on_inv. exact Hinv. }
  destruct ((128 <=? status)%Z && (status <=? 143)%Z
            || (144 <=? status)%Z && (status <=? 159)%Z && (data2 =? 0)%Z).
  { apply (Hbody (MPKOnlySynth.note_off data1)).
    apply mpk_note_off_inv. exact Hinv. }
  destruct ((176 <=? status)%Z && (status <=? 191)%Z).
  { apply (Hbody (fun s => (Return tt,
                            MPKOnlySynth.handle_knob data1 data2 s))).
    apply mpk_handle_knob_inv. exact Hinv. }
  apply (Hbody (fun s => (Return tt, s))). exact Hinv.
Qed.

Lemma mpk_audio_callback_inv (frames : nat) (outdata : ndarray)
      (self : MPKOnlySynth.t) :
  mpk_inv self ->
  mpk_inv (fst (snd (MPKOnlySynth.audio_callback frames (self, outdata)))).
Proof.
  intros [Hmax Hok].
  unfold MPKOnlySynth.audio_callback.
  pose proof (@audio_callback_pool_ok _ MPKVoice.is_finished
                MPKVoice.generate 16 frames
                (MPKOnlySynth.waveform self)
                (MPKOnlySynth.filter_cutoff self)
                (MPKOnlySynth.detune self)
                (MPKOnlySynth.master_volume self)
                (MPKOnlySynth.voices self) outdata Hok) as H.
  destruct (Engine.audio_callback _ _ _ _ _ _ _ _) as [r st'].
  split; [exact Hmax | exact H].
Qed.

Lemma mpk_exec_inv (c : MPKOnlySynth.call) (self : MPKOnlySynth.t) :
  mpk_inv self -> mpk_inv (MPKOnlySynth.exec c self).
Proof.
  intros Hinv.
  destruct c; cbn [MPKOnlySynth.exec].
  - apply mpk_note_on_inv, Hinv.
  - apply mpk_note_off_inv, Hinv.
  - apply mpk_handle_knob_inv, Hinv.
  - apply mpk_midi_callback_inv, Hinv.
  - apply mpk_audio_callback_inv, Hinv.
Qed.

Lemma mpk_run_inv (calls : list MPKOnlySynth.call) :
  forall self : MPKOnlySynth.t,
    mpk_inv self -> mpk_inv (MPKOnlySynth.run calls self).
Proof.
  induction calls as [| c rest IH]; intros self Hinv; cbn.
  - exact Hinv.
  - apply IH, mpk_exec_inv, Hinv.
Qed.

(** C1. Whatever calls the drivers make on a freshly built synth ([note_on],
    [note_off], control changes, whole MIDI messages, potentiometer readings
    and [audio_callback] with its pruning of finished voices, in any order
    and number), the voice pool holds at most one voice per note and never
    more than [max_voices] voices: 12 for [FourPotMIDISynth], 16 for
    [MPKOnlySynth]. *)
Theorem pool_size_bounded_one_voice_per_note :
  forall (sample_rate blocksize : Z),
    (forall calls : list FourPotMIDISynth.call,
        let self :=
          FourPotMIDISynth.run calls
            (FourPotMIDISynth.init sample_rate blocksize) in
        NoDup (dict_keys (FourPotMIDISynth.voices self))
        /\ (Z.of_nat (length (FourPotMIDISynth.voices self)) <= 12)%Z
        /\ FourPotMIDISynth.max_voices self = 12%Z)
    /\ (forall calls : list MPKOnlySynth.call,
           let self :=
             MPKOnlySynth.run calls (MPKOnlySynth.init sample_rate blocksize) in
           NoDup (dict_keys (MPKOnlySynth.voices self))
           /\ (Z.of_nat (length (MPKOnlySynth.voices self)) <= 16)%Z
           /\ MPKOnlySynth.max_voices self = 16%Z).
Proof.
  intros sample_rate blocksize. split; intros calls self.
  - destruct (@fourpot_run_inv calls
                (FourPotMIDISynth.init sample_rate blocksize))
      as [Hmax [Hnd Hlen]].
    + split; [reflexivity | apply pool_ok_empty; lia].
    + repeat split; assumption.
  - destruct (@mpk_run_inv calls (MPKOnlySynth.init sample_rate blocksize))
      as [Hmax [Hnd Hlen]].
    + split; [reflexivity | apply pool_ok_empty; lia].
    + repeat split; assumption.
Qed.

(** ** Voice stealing and retriggering *)

Section Stealing.
Variable V : Type.

Lemma note_on_full_pool (max_voices note : Z) (new_voice : V)
      (voices : dict V) :
  NoDup (dict_keys voices) ->
  dict_mem note voices = false ->
  Z.of_nat (length voices) = max_voices ->
  (0 < max_voices)%Z ->
  exists oldest_note,
    py_min (dict_keys voices) = Return oldest_note
    /\ In oldest_note (dict_keys voices)
    /\ (forall k, In k (dict_keys voices) -> (oldest_note <= k)%Z)
    /\ Engine.note_on max_voices note new_voice voices
       = (Return tt, dict_remove oldest_note voices ++ [(note, new_voice)]).
Proof.
  intros Hnd Hnew Hlen Hpos.
  destruct (@py_min_spec (dict_keys voices)) as (m & Hmin & Hin & Hle).
  { destruct voices; [cbn in Hlen; lia | discriminate]. }
  exists m. repeat split; try assumption.
  rewrite note_on_unfold. cbv zeta. rewrite Hnew.
  replace (Z.of_nat (length voices) >=? max_voices)%Z with true
    by (symmetry; rewrite Z.geb_leb; apply Z.leb_le; lia).
  rewrite Hmin.
  replace (dict_mem m voices) with true
    by (symmetry; apply dict_mem_In; exact Hin).
  rewrite dict_set_new; [reflexivity |].
  apply dict_mem_false. intros Hin'.
  apply dict_remove_keys_incl in Hin'.
  apply dict_mem_false in Hnew. contradiction.
Qed.

Lemma note_on_retrigger (max_voices note : Z) (new_voice : V)
      (voices : dict V) :
  NoDup (dict_keys voices) ->
  (Z.of_nat (length voices) <= max_voices)%Z ->
  dict_mem note voices = true ->
  Engine.note_on max_voices note new_voice voices
  = (Return tt, dict_remove note voices ++ [(note, new_voice)]).
Proof.
  intros Hnd Hlen Hmem.
  rewrite note_on_unfold. cbv zeta. rewrite Hmem.
  pose proof (dict_remove_length_mem _ _ Hmem) as Hl.
  replace (Z.of_nat (length (dict_remove note voices)) >=? max_voices)%Z
    with false
    by (symmetry; rewrite Z.geb_leb; apply Z.leb_gt; lia).
  rewrite dict_set_new; [reflexivity |].
  apply dict_remove_not_mem. exact Hnd.
Qed.

Lemma dict_get_app_new (k note : Z) (new_voice : V) (d : dict V) :
  dict_mem note d = false ->
  dict_get k (d ++ [(note, new_voice)])
  = if (k =? note)%Z then Some new_voice else dict_get k d.
Proof.
  intros Hnew.
  rewrite <- dict_set_new by exact Hnew.
  destruct (k =? note)%Z eqn:E.
  - apply Z.eqb_eq in E. subst k. apply dict_set_get_same.
  - apply Z.eqb_neq in E. apply dict_set_get_other. exact E.
Qed.
End Stealing.

(** Scenario A by running the three calls *)
Example scenario_A_runs :
  dict_keys
    (FourPotMIDISynth.voices
       (FourPotMIDISynth.run
          [FourPotMIDISynth.NoteOn 60 100; FourPotMIDISynth.NoteOn 64 100;
           FourPotMIDISynth.NoteOn 67 100] scenario_A_fourpot))
  = [64; 67]%Z
  /\ dict_keys
       (MPKOnlySynth.voices
          (MPKOnlySynth.run
             [MPKOnlySynth.NoteOn 60 100; MPKOnlySynth.NoteOn 64 100;
              MPKOnlySynth.NoteOn 67 100] scenario_A_mpk))
     = [64; 67]%Z.
Proof. split; reflexivity. Qed.

(** C2. When [note_on] is called for a note that has no voice while the pool
    holds [max_voices] voices, the call succeeds and the pool afterwards is
    the old pool without the entry of its numerically smallest note, followed
    by the new voice: that one voice is dropped at once (it is deleted, not
    released), every other voice is kept as it was.  Holds for both synths;
    scenario A is the instance with capacity 2 and notes 60, 64, 67. *)
Theorem note_on_full_pool_evicts_smallest_note :
  (forall (self : FourPotMIDISynth.t) (note velocity : Z),
      NoDup (dict_keys (FourPotMIDISynth.voices self)) ->
      dict_mem note (FourPotMIDISynth.voices self) = false ->
      Z.of_nat (length (FourPotMIDISynth.voices self))
      = FourPotMIDISynth.max_voices self ->
      (0 < FourPotMIDISynth.max_voices self)%Z ->
      exists oldest_note,
        In oldest_note (dict_keys (FourPotMIDISynth.voices self))
        /\ (forall k, In k (dict_keys (FourPotMIDISynth.voices self)) ->
                      (oldest_note <= k)%Z)
        /\ FourPotMIDISynth.note_on note velocity self
           = (Return tt,
              FourPotMIDISynth.with_voices
                (dict_remove oldest_note (FourPotMIDISynth.voices self)
                 ++ [(note,
                      PolyphonicVoice.init note velocity
                        (FourPotMIDISynth.sample_rate self)
                        (FourPotMIDISynth.get_envelope_params self))])
                self))
  /\ (forall (self : MPKOnlySynth.t) (note velocity : Z),
         NoDup (dict_keys (MPKOnlySynth.voices self)) ->
         dict_mem note (MPKOnlySynth.voices self) = false ->
         Z.of_nat (length (MPKOnlySynth.voices self))
         = MPKOnlySynth.max_voices self ->
         (0 < MPKOnlySynth.max_voices self)%Z ->
         exists oldest_note,
           In oldest_note (dict_keys (MPKOnlySynth.voices self))
           /\ (forall k, In k (dict_keys (MPKOnlySynth.voices self)) ->
                         (oldest_note <= k)%Z)
           /\ MPKOnlySynth.note_on note velocity self
              = (Return tt,
                 MPKOnlySynth.with_voices
                   (dict_remove oldest_note (MPKOnlySynth.voices self)
                    ++ [(note,
                         MPKVoice.init note velocity
                           (MPKOnlySynth.sample_rate self)
                           (MPKOnlySynth.get_synth_params self))])
                   self)).
Proof.
  split; intros self note velocity Hnd Hnew Hlen Hpos.
  - destruct (@note_on_full_pool _ (FourPotMIDISynth.max_voices self) note
                (PolyphonicVoice.init note velocity
                   (FourPotMIDISynth.sample_rate self)
                   (FourPotMIDISynth.get_envelope_params self))
                (FourPotMIDISynth.voices self) Hnd Hnew Hlen Hpos)
      as (m & _ & Hin & Hle & Hrun).
    exists m. split; [exact Hin |]. split; [exact Hle |].
    unfold FourPotMIDISynth.note_on. rewrite Hrun. reflexivity.
  - destruct (@note_on_full_pool _ (MPKOnlySynth.max_voices self) note
                (MPKVoice.init note velocity (MPKOnlySynth.sample_rate self)
                   (MPKOnlySynth.get_synth_params self))
                (MPKOnlySynth.voices self) Hnd Hnew Hlen Hpos)
      as (m & _ & Hin & Hle & Hrun).
    exists m. split; [exact Hin |]. split; [exact Hle |].
    unfold MPKOnlySynth.note_on. rewrite Hrun. reflexivity.
Qed.

Lemma scenario_A_evicts_60 :
  let self :=
    FourPotMIDISynth.run
      [FourPotMIDISynth.NoteOn 60 100; FourPotMIDISynth.NoteOn 64 100]
      scenario_A_fourpot in
  dict_keys (FourPotMIDISynth.voices self) = [60; 64]%Z
  /\ dict_keys
       (FourPotMIDISynth.voices
          (snd (FourPotMIDISynth.note_on 67 100 self)))
     = [64; 67]%Z.
Proof.
  intros self. split; [reflexivity |].
  destruct (proj1 note_on_full_pool_evicts_smallest_note self 67%Z 100%Z)
    as (oldest_note & Hin & Hle & Hrun).
  - repeat constructor; cbn; intuition lia.
  - reflexivity.
  - reflexivity.
  - reflexivity.
  - assert (Hold : oldest_note = 60%Z).
    { specialize (Hle 60%Z (or_introl eq_refl)).
      change (In oldest_note [60; 64]%Z) in Hin.
      destruct Hin as [Hin | [Hin | []]]; lia. }
    rewrite Hrun, Hold. reflexivity.
Defined.

(** C10. When [note_on] is called for a note that already has a voice, in a
    pool within its capacity (also exactly at it), the call succeeds and the
    pool afterwards is the old pool without that note's entry, followed by
    the fresh voice: no other note is evicted, every other note keeps the
    voice it had, and the pool keeps its size.  Holds for both synths. *)
Theorem note_on_existing_note_replaces_only_that_voice :
  (forall (self : FourPotMIDISynth.t) (note velocity : Z),
      NoDup (dict_keys (FourPotMIDISynth.voices self)) ->
      (Z.of_nat (length (FourPotMIDISynth.voices self))
       <= FourPotMIDISynth.max_voices self)%Z ->
      dict_mem note (FourPotMIDISynth.voices self) = true ->
      let new_voice :=
        PolyphonicVoice.init note velocity (FourPotMIDISynth.sample_rate self)
          (FourPotMIDISynth.get_envelope_params self) in
      let after := snd (FourPotMIDISynth.note_on note velocity self) in
      FourPotMIDISynth.note_on note velocity self
      = (Return tt,
         FourPotMIDISynth.with_voices
           (dict_remove note (FourPotMIDISynth.voices self)
            ++ [(note, new_voice)]) self)
      /\ dict_get note (FourPotMIDISynth.voices after) = Some new_voice
      /\ (forall k, k <> note ->
                    dict_get k (FourPotMIDISynth.voices after)
                    = dict_get k (FourPotMIDISynth.voices self))
      /\ length (FourPotMIDISynth.voices after)
         = length (FourPotMIDISynth.voices self))
  /\ (forall (self : MPKOnlySynth.t) (note velocity : Z),
         NoDup (dict_keys (MPKOnlySynth.voices self)) ->
         (Z.of_nat (length (MPKOnlySynth.voices self))
          <= MPKOnlySynth.max_voices self)%Z ->
         dict_mem note (MPKOnlySynth.voices self) = true ->
         let new_voice :=
           MPKVoice.init note velocity (MPKOnlySynth.sample_rate self)
             (MPKOnlySynth.get_synth_params self) in
         let after := snd (MPKOnlySynth.note_on note velocity self) in
         MPKOnlySynth.note_on note velocity self
         = (Return tt,
            MPKOnlySynth.with_voices
              (dict_remove note (MPKOnlySynth.voices self)
               ++ [(note, new_voice)]) self)
         /\ dict_get note (MPKOnlySynth.voices after) = Some new_voice
         /\ (forall k, k <> note ->
                       dict_get k (MPKOnlySynth.voices after)
                       = dict_get k (MPKOnlySynth.voices self))
         /\ length (MPKOnlySynth.voices after)
            = length (MPKOnlySynth.voices self)).
Proof.
  split; intros self note velocity Hnd Hlen Hmem new_voice after.
  - assert (Hrun : FourPotMIDISynth.note_on note velocity self
                   = (Return tt,
                      FourPotMIDISynth.with_voices
                        (dict_remove note (FourPotMIDISynth.voices self)
                         ++ [(note, new_voice)]) self)).
    { unfold FourPotMIDISynth.note_on.
      rewrite (@note_on_retrigger _ (FourPotMIDISynth.max_voices self) note
                 _ (FourPotMIDISynth.voices self) Hnd Hlen Hmem).
      reflexivity. }
    split; [exact Hrun |].
    subst after. rewrite Hrun. cbn [snd FourPotMIDISynth.voices
                                      FourPotMIDISynth.with_voices].
    pose proof (dict_remove_not_mem note _ Hnd) as Hgone.
    split; [| split].
    + rewrite dict_get_app_new by exact Hgone.
      rewrite Z.eqb_refl. reflexivity.
    + intros k Hk. rewrite dict_get_app_new by exact Hgone.
      replace (k =? note)%Z with false by (symmetry; apply Z.eqb_neq; exact Hk).
      apply dict_remove_get_other. exact Hk.
    + rewrite length_app. cbn.
      rewrite (dict_remove_length_mem _ _ Hmem). lia.
  - assert (Hrun : MPKOnlySynth.note_on note velocity self
                   = (Return tt,
                      MPKOnlySynth.with_voices
                        (dict_remove note (MPKOnlySynth.voices self)
                         ++ [(note, new_voice)]) self)).
    { unfold MPKOnlySynth.note_on.
      rewrite (@note_on_retrigger _ (MPKOnlySynth.max_voices self) note
                 _ (MPKOnlySynth.voices self) Hnd Hlen Hmem).
      reflexivity. }
    split; [exact Hrun |].
    subst after. rewrite Hrun. cbn [snd MPKOnlySynth.voices
                                      MPKOnlySynth.with_voices].
    pose proof (dict_remove_not_mem note _ Hnd) as Hgone.
    split; [| split].
    + rewrite dict_get_app_new by exact Hgone.
      rewrite Z.eqb_refl. reflexivity.
    + intros k Hk. rewrite dict_get_app_new by exact Hgone.
      replace (k =? note)%Z with false by (symmetry; apply Z.eqb_neq; exact Hk).
      apply dict_remove_get_other. exact Hk.
    + rewrite length_app. cbn.
      rewrite (dict_remove_length_mem _ _ Hmem). lia.
Qed.

Lemma retrigger_at_capacity_keeps_other_voice :
  let self :=
    FourPotMIDISynth.run
      [FourPotMIDISynth.NoteOn 60 100; FourPotMIDISynth.NoteOn 64 100]
      scenario_A_fourpot in
  let after := snd (FourPotMIDISynth.note_on 60 90 self) in
  Z.of_nat (length (FourPotMIDISynth.voices self))
  = FourPotMIDISynth.max_voices self
  /\ dict_get 64 (FourPotMIDISynth.voices after)
     = dict_get 64 (FourPotMIDISynth.voices self)
  /\ length (FourPotMIDISynth.voices after) = 2%nat.
Proof.
  intros self after. split; [reflexivity |].
  destruct (proj1 note_on_existing_note_replaces_only_that_voice
              self 60%Z 90%Z) as (_ & _ & Hother & Hlen).
  - repeat constructor; cbn; intuition lia.
  - cbn. lia.
  - reflexivity.
  - split; [apply Hother; lia | exact Hlen].
Defined.

(** ** Faults inside [audio_callback] *)

Lemma poly_update_raises (frames : nat) (self self' : PolyphonicVoice.t)
      (e : exn) :
  PolyphonicVoice.update_envelope frames self = (Raise e, self') ->
  e = ZeroDivisionError /\ PolyphonicVoice.sample_rate self = 0%Z.
Proof.
  unfold PolyphonicVoice.update_envelope.
  destruct (PolyphonicVoice.sample_rate self =? 0)%Z eqn:Hsr.
  - intros H. injection H as <- _. split; [reflexivity |].
    apply Z.eqb_eq. exact Hsr.
  - discriminate.
Qed.

Lemma poly_generate_raises (frames : nat) (waveform : Z)
      (filter_cutoff detune : R) (self self' : PolyphonicVoice.t) (e : exn) :
  PolyphonicVoice.generate frames waveform filter_cutoff detune self
  = (Raise e, self') ->
  e = ZeroDivisionError.
Proof.
  unfold PolyphonicVoice.generate.
  destruct (PolyphonicVoice.is_finished self); [discriminate |].
  destruct (PolyphonicVoice.sample_rate self =? 0)%Z eqn:Hsr.
  { intros H. injection H as <- _. reflexivity. }
  destruct (PolyphonicVoice.filter_applies waveform filter_cutoff).
  - destruct (PolyphonicVoice.filter_loop _ _ _) as [ys state].
    destruct (PolyphonicVoice.update_envelope frames _)
      as [[envelope | e'] self1] eqn:Hup; [discriminate |].
    apply poly_update_raises in Hup. destruct Hup as [-> _].
    intros H. injection H as <- _. reflexivity.
  - destruct (PolyphonicVoice.update_envelope frames _)
      as [[envelope | e'] self1] eqn:Hup; [discriminate |].
    apply poly_update_raises in Hup. destruct Hup as [-> _].
    intros H. injection H as <- _. reflexivity.
Qed.

Lemma mpk_generate_raises (frames : nat) (waveform : Z)
      (filter_cutoff detune : R) (self self' : MPKVoice.t) (e : exn) :
  MPKVoice.generate frames waveform filter_cutoff detune self
  = (Raise e, self') ->
  e = ZeroDivisionError.
Proof.
  rewrite <- (to_mpk_of_mpk self), generate_lockstep. unfold map_self.
  destruct (PolyphonicVoice.generate _ _ _ _ (of_mpk self))
    as [[block | e'] v'] eqn:Hgen; cbn; [discriminate |].
  intros H. injection H as <- _.
  eapply poly_generate_raises. exact Hgen.
Qed.

Lemma set_column_raises (j : nat) (audio : list R) (out out' : ndarray)
      (e : exn) :
  set_column j audio out = (Raise e, out') ->
  isinstance_Exception e = true /\ out' = out.
Proof.
  unfold set_column.
  destruct (ncols out <=? j)%nat.
  { intros H. injection H as <- <-. split; reflexivity. }
  destruct (length audio =? nrows out)%nat; [discriminate |].
  destruct (length audio =? 1)%nat; [discriminate |].
  intros H. injection H as <- <-. split; reflexivity.
Qed.

Lemma set_column_shape (j : nat) (audio : list R) (out : ndarray) :
  nrows (snd (set_column j audio out)) = nrows out
  /\ ncols (snd (set_column j audio out)) = ncols out.
Proof.
  unfold set_column.
  destruct (ncols out <=? j)%nat; [split; reflexivity |].
  destruct (length audio =? nrows out)%nat; [split; reflexivity |].
  destruct (length audio =? 1)%nat; split; reflexivity.
Qed.

Section Faults.
Variable V : Type.
Variable voice_is_finished : V -> bool.
Variable voice_generate : nat -> Z -> R -> R -> M V (list R).
Hypothesis generate_raises_Exception :
  forall frames waveform filter_cutoff detune voice e voice',
    voice_generate frames waveform filter_cutoff detune voice
    = (Raise e, voice') ->
    isinstance_Exception e = true.

Lemma mix_voices_raises (frames : nat) (waveform : Z)
      (filter_cutoff detune : R) (items : dict V) :
  forall (audio : list R) (voices_to_remove : list Z) (e : exn)
         (items' : dict V),
    Engine.mix_voices voice_is_finished voice_generate frames waveform
      filter_cutoff detune audio voices_to_remove items
    = (Raise e, items') ->
    isinstance_Exception e = true.
Proof.
  induction items as [| [note voice] rest IH];
    intros audio voices_to_remove e items'; cbn.
  - discriminate.
  - destruct (voice_is_finished voice).
    + destruct (Engine.mix_voices _ _ _ _ _ _ _ _ rest) as [r rest'] eqn:Hm.
      intros H. injection H as -> _.
      eapply IH. exact Hm.
    + destruct (voice_generate frames waveform filter_cutoff detune voice)
        as [[voice_audio | e'] voice'] eqn:Hg.
      * destruct (Engine.mix_voices _ _ _ _ _ _ _ _ rest)
          as [r rest'] eqn:Hm.
        intros H. injection H as -> _.
        eapply IH. exact Hm.
      * intros H. injection H as <- _.
        eapply generate_raises_Exception. exact Hg.
Qed.

Lemma remove_voices_raises (notes : list Z) :
  forall (voices voices' : dict V) (e : exn),
    Engine.remove_voices notes voices = (Raise e, voices') ->
    isinstance_Exception e = true.
Proof.
  induction notes as [| note rest IH]; intros voices voices' e; cbn.
  - discriminate.
  - unfold bind, dict_del.
    destruct (dict_mem note voices).
    + apply IH.
    + intros H. injection H as <- _. reflexivity.
Qed.

Lemma render_raises (frames : nat) (waveform : Z)
      (filter_cutoff detune master_volume : R)
      (st st' : dict V * ndarray) (e : exn) :
  Engine.render voice_is_finished voice_generate frames waveform
    filter_cutoff detune master_volume st = (Raise e, st') ->
  isinstance_Exception e = true.
Proof.
  unfold Engine.render, bind, Engine.on_fst, Engine.on_snd.
  destruct st as [voices outdata]. cbn [fst snd].
  destruct (Engine.mix_voices _ _ _ _ _ _ _ _ voices)
    as [[[audio voices_to_remove] | e1] voices1] eqn:Hmix.
  - cbn [fst snd].
    destruct (Engine.remove_voices voices_to_remove voices1)
      as [[[] | e2] voices2] eqn:Hrm; cbn [fst snd].
    + match goal with
      | |- context [set_column 0 ?a outdata] =>
          destruct (set_column 0 a outdata) as [[[] | e3] outdata1] eqn:H0;
          cbn [fst snd];
          [destruct (set_column 1 a outdata1)
             as [[[] | e4] outdata2] eqn:H1 |]
      end.
      * discriminate.
      * intros H. injection H as <- _.
        apply set_column_raises in H1. apply H1.
      * intros H. injection H as <- _.
        apply set_column_raises in H0. apply H0.
    + intros H. injection H as <- _.
      eapply remove_voices_raises. exact Hrm.
  - intros H. injection H as <- _.
    eapply mix_voices_raises. exact Hmix.
Qed.

Lemma render_shape (frames : nat) (waveform : Z)
      (filter_cutoff detune master_volume : R)
      (voices : dict V) (outdata : ndarray) :
  let after :=
    snd (snd (Engine.render voice_is_finished voice_generate frames
                waveform filter_cutoff detune master_volume
                (voices, outdata))) in
  nrows after = nrows outdata /\ ncols after = ncols outdata.
Proof.
  unfold Engine.render, bind, Engine.on_fst, Engine.on_snd. cbn [fst snd].
  destruct (Engine.mix_voices _ _ _ _ _ _ _ _ voices)
    as [[[audio voices_to_remove] | e1] voices1]; cbn [fst snd];
    [| split; reflexivity].
  destruct (Engine.remove_voices voices_to_remove voices1)
    as [[[] | e2] voices2]; cbn [fst snd]; [| split; reflexivity].
  match goal with
  | |- context [set_column 0 ?a outdata] =>
      pose proof (set_column_shape 0 a outdata) as [Hr0 Hc0];
      destruct (set_column 0 a outdata) as [[[] | e3] outdata1];
      cbn [fst snd] in *; [| split; assumption];
      pose proof (set_column_shape 1 a outdata1) as [Hr1 Hc1];
      destruct (set_column 1 a outdata1) as [[[] | e4] outdata2];
      cbn [fst snd] in *; split; congruence
  end.
Qed.

(** The callback returns normally; when its [try] suite raised, [outdata]
    has its shape and holds zeros only. *)
Lemma audio_callback_contains (frames : nat) (waveform : Z)
      (filter_cutoff detune master_volume : R)
      (voices : dict V) (outdata : ndarray) :
  let body :=
    Engine.render voice_is_finished voice_generate frames waveform
      filter_cutoff detune master_volume (voices, outdata) in
  let done :=
    Engine.audio_callback voice_is_finished voice_generate frames waveform
      filter_cutoff detune master_volume (voices, outdata) in
  fst done = Return tt
  /\ (forall e, fst body = Raise e ->
                nrows (snd (snd done)) = nrows outdata
                /\ ncols (snd (snd done)) = ncols outdata
                /\ forall i j, cell (snd (snd done)) i j = 0).
Proof.
  intros body done. subst body done.
  unfold Engine.audio_callback, try_except_Exception.
  pose proof (@render_shape frames waveform filter_cutoff detune
                master_volume voices outdata) as Hshape.
  cbv zeta in Hshape.
  destruct (Engine.render _ _ _ _ _ _ _ (voices, outdata))
    as [[[] | e] st'] eqn:Hbody; cbn [fst snd] in *.
  - split; [reflexivity | discriminate].
  - rewrite (render_raises _ _ _ _ _ _ Hbody). cbn [fst snd].
    split; [reflexivity |].
    intros e' _. cbn. destruct Hshape as [Hr Hc].
    repeat split; assumption.
Qed.
End Faults.

(** C3. Whatever exception the [try] suite of [audio_callback] raises while
    rendering a block, the callback catches it: the call returns normally (no
    exception reaches the audio sink) and the output buffer, its shape
    unchanged, holds zeros only.  Holds for both synths. *)
Theorem audio_callback_fault_gives_zero_block :
  (forall (self : FourPotMIDISynth.t) (outdata : ndarray) (frames : nat),
      let done := FourPotMIDISynth.audio_callback frames (self, outdata) in
      fst done = Return tt
      /\ (forall e, fst (fourpot_render frames self outdata) = Raise e ->
                    nrows (snd (snd done)) = nrows outdata
                    /\ ncols (snd (snd done)) = ncols outdata
                    /\ forall i j, cell (snd (snd done)) i j = 0))
  /\ (forall (self : MPKOnlySynth.t) (outdata : ndarray) (frames : nat),
         let done := MPKOnlySynth.audio_callback frames (self, outdata) in
         fst done = Return tt
         /\ (forall e, fst (mpk_render frames self outdata) = Raise e ->
                       nrows (snd (snd done)) = nrows outdata
                       /\ ncols (snd (snd done)) = ncols outdata
                       /\ forall i j, cell (snd (snd done)) i j = 0)).
Proof.
  split; intros self outdata frames done; subst done.
  - unfold FourPotMIDISynth.audio_callback, fourpot_render.
    pose proof (@audio_callback_contains _ PolyphonicVoice.is_finished
                  PolyphonicVoice.generate) as H.
    specialize (H ltac:(intros ? ? ? ? ? e v' Hg;
                        rewrite (poly_generate_raises _ _ _ _ _ Hg);
                        reflexivity)).
    specialize (H frames (FourPotMIDISynth.waveform self)
                  (FourPotMIDISynth.filter_cutoff self)
                  (FourPotMIDISynth.detune self)
                  (FourPotMIDISynth.master_volume self)
                  (FourPotMIDISynth.voices self) outdata).
    cbv zeta in H.
    destruct (Engine.audio_callback _ _ _ _ _ _ _ _) as [r st'].
    exact H.
  - unfold MPKOnlySynth.audio_callback, mpk_render.
    pose proof (@audio_callback_contains _ MPKVoice.is_finished
                  MPKVoice.generate) as H.
    specialize (H ltac:(intros ? ? ? ? ? e v' Hg;
                        rewrite (mpk_generate_raises _ _ _ _ _ Hg);
                        reflexivity)).
    specialize (H frames (MPKOnlySynth.waveform self)
                  (MPKOnlySynth.filter_cutoff self)
                  (MPKOnlySynth.detune self)
                  (MPKOnlySynth.master_volume self)
                  (MPKOnlySynth.voices self) outdata).
    cbv zeta in H.
    destruct (Engine.audio_callback _ _ _ _ _ _ _ _) as [r st'].
    exact H.
Qed.

Lemma zero_sample_rate_block_is_silent :
  let done :=
    FourPotMIDISynth.audio_callback 4 (zero_rate_fourpot, stale_outdata) in
  fst (fourpot_render 4 zero_rate_fourpot stale_outdata)
  = Raise ZeroDivisionError
  /\ fst done = Return tt
  /\ forall i j, cell (snd (snd done)) i j = 0.
Proof.
  intros done.
  assert (Hbody : fst (fourpot_render 4 zero_rate_fourpot stale_outdata)
                  = Raise ZeroDivisionError) by reflexivity.
  destruct (proj1 audio_callback_fault_gives_zero_block
              zero_rate_fourpot stale_outdata 4%nat) as [Hret Hzero].
  split; [exact Hbody |]. split; [exact Hret |].
  apply (Hzero ZeroDivisionError Hbody).
Defined.

(** * Further properties of the voice classes *)

(** ** Tuning *)

Lemma Rpower_2_succ (x : R) : Rpower 2 (x + 1) = 2 * Rpower 2 x.
Proof.
  rewrite Rpower_plus, Rpower_1 by lra. ring.
Qed.

(** X1. The constructor tunes a voice in twelve-tone equal temperament:
    note 69 sounds at 440 Hz, a note twelve semitones up sounds at twice the
    frequency, and every frequency is positive.  In [generate] a detune of 0
    cents leaves the frequency as it is and 1200 cents doubles it. *)
Theorem voice_tuning_equal_temperament :
  forall (note velocity sample_rate : Z) (p : envelope_params),
    let f n :=
      PolyphonicVoice.frequency
        (PolyphonicVoice.init n velocity sample_rate p) in
    f 69%Z = 440
    /\ f (note + 12)%Z = 2 * f note
    /\ 0 < f note
    /\ (forall self : PolyphonicVoice.t,
           PolyphonicVoice.detuned_freq self 0 = PolyphonicVoice.frequency self
           /\ PolyphonicVoice.detuned_freq self 1200
              = 2 * PolyphonicVoice.frequency self).
Proof.
  intros note velocity sample_rate p f. subst f. cbn.
  split; [| split; [| split]].
  - replace ((69 - 69) / 12) with 0 by field.
    rewrite Rpower_O by lra. ring.
  - rewrite plus_IZR.
    replace ((IZR note + 12 - 69) / 12) with ((IZR note - 69) / 12 + 1)
      by field.
    rewrite Rpower_2_succ. ring.
  - apply Rmult_lt_0_compat; [lra |]. unfold Rpower. apply exp_pos.
  - intros self. unfold PolyphonicVoice.detuned_freq. split.
    + replace (0 / 1200) with 0 by field. rewrite Rpower_O by lra. ring.
    + replace (1200 / 1200) with 1 by field. rewrite Rpower_1 by lra. ring.
Qed.

(** ** The envelope stays in range *)

Lemma progress_range (t a : R) : 0 <= t -> 0 < a -> 0 <= Rmin 1 (t / a) <= 1.
Proof.
  intros Ht Ha. split; [| apply Rmin_l].
  apply Rmin_glb; [lra |].
  apply Rmult_le_pos; [exact Ht |].
  apply Rlt_le, Rinv_0_lt_compat. exact Ha.
Qed.

Lemma block_time_nonneg (frames : nat) (sample_rate : Z) :
  (0 < sample_rate)%Z -> 0 <= INR frames / IZR sample_rate.
Proof.
  intros Hsr. apply Rmult_le_pos; [apply pos_INR |].
  apply Rlt_le, Rinv_0_lt_compat, IZR_lt. exact Hsr.
Qed.

Lemma poly_update_envelope_ok (frames : nat) (self : PolyphonicVoice.t) :
  envelope_ok self ->
  exists value self',
    PolyphonicVoice.update_envelope frames self = (Return value, self')
    /\ 0 <= value <= 1
    /\ value = PolyphonicVoice.envelope_value self'
    /\ envelope_ok self'
    /\ PolyphonicVoice.velocity self' = PolyphonicVoice.velocity self
    /\ PolyphonicVoice.filter_state self' = PolyphonicVoice.filter_state self
    /\ PolyphonicVoice.phase self' = PolyphonicVoice.phase self.
Proof.
  intros (Hsr & Hsus & Htimer & Hval).
  pose proof (block_time_nonneg frames Hsr) as Hdt.
  unfold PolyphonicVoice.update_envelope.
  replace (PolyphonicVoice.sample_rate self =? 0)%Z with false
    by (symmetry; apply Z.eqb_neq; lia).
  eexists. eexists. split; [reflexivity |].
  set (t := PolyphonicVoice.envelope_timer self
            + INR frames / IZR (PolyphonicVoice.sample_rate self)).
  assert (Ht : 0 <= t) by (subst t; lra).
  unfold envelope_ok.
  destruct self as [n vel f ph sr a d s r ep ev et rl fs]; cbn in *.
  destruct ep; cbn.
  - destruct (Rlt_dec 0 a) as [Ha | Ha]; cbn.
    + pose proof (progress_range Ht Ha) as Hp.
      destruct (Rge_dec (Rmin 1 (t / a)) 1); cbn;
        repeat split; try assumption; try lra; try reflexivity.
    + repeat split; try assumption; try lra; try reflexivity.
  - destruct (Rlt_dec 0 d) as [Hd | Hd]; cbn.
    + pose proof (progress_range Ht Hd) as Hp.
      destruct (Rge_dec (Rmin 1 (t / d)) 1); cbn;
        repeat split; try assumption; try nra; try reflexivity.
    + repeat split; try assumption; try lra; try reflexivity.
  - repeat split; try assumption; try lra; try reflexivity.
  - destruct (Rlt_dec 0 r) as [Hr | Hr]; cbn.
    + pose proof (progress_range Ht Hr) as Hp.
      destruct (Rge_dec (Rmin 1 (t / r)) 1); cbn;
        repeat split; try assumption; try nra; try reflexivity.
    + repeat split; try assumption; try lra; try reflexivity.
  - repeat split; try assumption; try lra; try reflexivity.
Qed.

(** X2. For a voice with a positive sample rate, a sustain level within
    [0, 1], and its timer and envelope value in range (as the constructor
    leaves them), [update_envelope] returns normally with a value within
    [0, 1] and leaves the voice in such a state again; [release] keeps it
    too.  So the envelope of a voice never leaves [0, 1], whatever the
    attack, decay and release times. *)
Theorem envelope_value_stays_in_unit_interval :
  forall (frames : nat) (self : PolyphonicVoice.t),
    envelope_ok self ->
    envelope_ok (PolyphonicVoice.release self)
    /\ exists value self',
        PolyphonicVoice.update_envelope frames self = (Return value, self')
        /\ 0 <= value <= 1
        /\ envelope_ok self'.
Proof.
  intros frames self Hok. split.
  - destruct Hok as (Hsr & Hsus & Htimer & Hval).
    unfold envelope_ok. cbn. repeat split; try assumption; try lra.
  - destruct (poly_update_envelope_ok frames Hok)
      as (value & self' & Hup & Hrange & _ & Hok' & _).
    exists value, self'.
    split; [exact Hup | split; [exact Hrange | exact Hok']].
Qed.

Lemma init_envelope_ok (note velocity sample_rate : Z) (p : envelope_params) :
  (0 < sample_rate)%Z -> 0 <= sustain p <= 1 ->
  envelope_ok (PolyphonicVoice.init note velocity sample_rate p).
Proof.
  intros Hsr Hsus. unfold envelope_ok. cbn.
  repeat split; try assumption; try lra; apply Hsus.
Qed.

Lemma envelope_in_range_after_first_block :
  exists value self',
    PolyphonicVoice.update_envelope 512
      (PolyphonicVoice.init 60 100 44100 default_params) = (Return value, self')
    /\ 0 <= value <= 1
    /\ envelope_ok self'.
Proof.
  apply (proj2 (@envelope_value_stays_in_unit_interval 512
                  (PolyphonicVoice.init 60 100 44100 default_params)
                  ltac:(apply init_envelope_ok; [reflexivity | cbn; lra]))).
Defined.

(** ** Rendered blocks stay in range *)

Lemma py_mod_range (x m : R) : 0 < m -> 0 <= py_mod x m < m.
Proof.
  intros Hm. unfold py_mod.
  destruct (base_Int_part (x / m)) as [Hle Hgt].
  assert (Hx : x = x / m * m) by (field; lra).
  set (q := x / m) in *. set (k := IZR (Int_part q)) in *.
  split; nra.
Qed.

Lemma poly_oscillator_range (self : PolyphonicVoice.t) (frames : nat)
      (waveform : Z) (detune : R) :
  length (PolyphonicVoice.oscillator self frames waveform detune) = frames
  /\ Forall in_unit_range
       (PolyphonicVoice.oscillator self frames waveform detune).
Proof.
  unfold PolyphonicVoice.oscillator, PolyphonicVoice.phases. split.
  - rewrite !length_map, length_seq. reflexivity.
  - apply Forall_forall. intros y Hy.
    apply in_map_iff in Hy. destruct Hy as (x & <- & _).
    apply poly_waveform_sample_range.
Qed.

Lemma poly_filter_loop_range (alpha : R) (audio : list R) :
  0 <= alpha <= 1 ->
  forall state : R,
    in_unit_range state ->
    Forall in_unit_range audio ->
    length (fst (PolyphonicVoice.filter_loop alpha audio state)) = length audio
    /\ Forall in_unit_range
         (fst (PolyphonicVoice.filter_loop alpha audio state))
    /\ in_unit_range (snd (PolyphonicVoice.filter_loop alpha audio state)).
Proof.
  intros Ha.
  induction audio as [| x rest IH]; intros state Hst Hall; cbn.
  - repeat split; [constructor | apply Hst | apply Hst].
  - inversion Hall as [| ? ? Hx Hrest]; subst.
    assert (Hnext : in_unit_range (alpha * x + (1 - alpha) * state)).
    { unfold in_unit_range in *. split; nra. }
    destruct (IH _ Hnext Hrest) as (Hlen & Hfa & Hlast).
    destruct (PolyphonicVoice.filter_loop alpha rest _) as [ys final].
    cbn in *. split; [congruence |]. split; [constructor |]; assumption.
Qed.

Lemma filter_alpha_range (filter_cutoff : R) :
  0 <= filter_cutoff -> 0 <= Rmin 0.5 (filter_cutoff / 6000) <= 1.
Proof.
  intros Hc. split.
  - apply Rmin_glb; lra.
  - pose proof (Rmin_l 0.5 (filter_cutoff / 6000)). lra.
Qed.

Lemma scale_in_unit_range (c : R) (block : list R) :
  0 <= c <= 1 ->
  Forall in_unit_range block ->
  Forall in_unit_range (map (fun x => x * c) block).
Proof.
  intros Hc Hall. apply Forall_forall. intros y Hy.
  apply in_map_iff in Hy. destruct Hy as (x & <- & Hx).
  rewrite Forall_forall in Hall. specialize (Hall x Hx).
  unfold in_unit_range in *. split; nra.
Qed.

Lemma poly_generate_ok (frames : nat) (waveform : Z)
      (filter_cutoff detune : R) (self : PolyphonicVoice.t) :
  voice_ok self ->
  0 <= filter_cutoff ->
  exists block self',
    PolyphonicVoice.generate frames waveform filter_cutoff detune self
    = (Return block, self')
    /\ length block = frames
    /\ Forall in_unit_range block
    /\ voice_ok self'.
Proof.
  intros (Henv & Hvel & Hfs & Hph) Hcut.
  unfold PolyphonicVoice.generate.
  destruct (PolyphonicVoice.is_finished self).
  { exists (repeat 0 frames), self. split; [reflexivity |].
    split; [apply repeat_length |]. split.
    - apply Forall_forall. intros x Hx. apply repeat_spec in Hx. subst x.
      unfold in_unit_range. lra.
    - repeat split; try assumption; try apply Henv; try apply Hvel;
        try apply Hfs; try apply Hph. }
  replace (PolyphonicVoice.sample_rate self =? 0)%Z with false
    by (symmetry; apply Z.eqb_neq; destruct Henv as (Hsr & _); lia).
  destruct (@poly_oscillator_range self frames waveform detune)
    as [Hlen Hosc].
  assert (Hwrap : 0 <= py_mod (PolyphonicVoice.phase self
                               + INR frames
                                 * PolyphonicVoice.phase_increment self detune)
                         (2 * PI) < 2 * PI).
  { apply py_mod_range. pose proof PI_RGT_0. lra. }
  destruct (PolyphonicVoice.filter_applies waveform filter_cutoff).
  - destruct (@poly_filter_loop_range (Rmin 0.5 (filter_cutoff / 6000))
                (PolyphonicVoice.oscillator self frames waveform detune)
                (filter_alpha_range Hcut) (PolyphonicVoice.filter_state self)
                Hfs Hosc) as (Hflen & Hfall & Hflast).
    destruct (PolyphonicVoice.filter_loop _ _ _) as [ys state].
    cbn [fst snd] in *.
    match goal with
    | |- context [PolyphonicVoice.update_envelope frames ?v] =>
        destruct (@poly_update_envelope_ok frames v)
          as (value & self' & Hup & Hrange & _ & Henv' & Hv' & Hf' & Hp');
        [exact Henv | rewrite Hup]
    end.
    cbn in Hv', Hf', Hp'.
    eexists. exists self'. split; [reflexivity |].
    split; [rewrite length_map; congruence |].
    split.
    + rewrite Hv'. apply scale_in_unit_range; [split; nra | exact Hfall].
    + unfold voice_ok. rewrite Hv', Hf', Hp'.
      split; [exact Henv' |]. split; [exact Hvel |].
      split; [exact Hflast | exact Hwrap].
  - match goal with
    | |- context [PolyphonicVoice.update_envelope frames ?v] =>
        destruct (@poly_update_envelope_ok frames v)
          as (value & self' & Hup & Hrange & _ & Henv' & Hv' & Hf' & Hp');
        [exact Henv | rewrite Hup]
    end.
    cbn in Hv', Hf', Hp'.
    eexists. exists self'. split; [reflexivity |].
    split; [rewrite length_map; exact Hlen |].
    split.
    + rewrite Hv'. apply scale_in_unit_range; [split; nra | exact Hosc].
    + unfold voice_ok. rewrite Hv', Hf', Hp'.
      split; [exact Henv' |]. split; [exact Hvel |].
      split; [exact Hfs | exact Hwrap].
Qed.

Lemma init_voice_ok (note velocity sample_rate : Z) (p : envelope_params) :
  (0 < sample_rate)%Z -> 0 <= sustain p <= 1 -> (0 <= velocity <= 127)%Z ->
  voice_ok (PolyphonicVoice.init note velocity sample_rate p).
Proof.
  intros Hsr Hsus Hvel. unfold voice_ok.
  split; [apply init_envelope_ok; assumption |].
  cbn. pose proof PI_RGT_0.
  assert (0 <= IZR velocity <= 127)
    by (split; [apply (IZR_le 0) | apply (IZR_le _ 127)]; lia).
  repeat split; lra.
Qed.

(** X3. A well-formed voice (positive sample rate, sustain level, envelope
    value and velocity within [0, 1], filter memory within [-1, 1]) rendered
    with a filter cutoff that is not negative always returns a block: it has
    exactly [frames] samples and each lies within [-1, 1], for every
    waveform, detune and block length, with or without the filter. *)
Theorem generate_block_length_and_range :
  forall (frames : nat) (waveform : Z) (filter_cutoff detune : R)
         (self : PolyphonicVoice.t),
    voice_ok self ->
    0 <= filter_cutoff ->
    exists block,
      fst (PolyphonicVoice.generate frames waveform filter_cutoff detune self)
      = Return block
      /\ length block = frames
      /\ Forall in_unit_range block.
Proof.
  intros frames waveform filter_cutoff detune self Hok Hcut.
  destruct (@poly_generate_ok frames waveform filter_cutoff detune self
              Hok Hcut) as (block & self' & Hgen & Hlen & Hall & _).
  exists block. rewrite Hgen. split; [reflexivity |].
  split; assumption.
Qed.

Lemma first_block_of_note_60_in_range :
  exists block,
    fst (PolyphonicVoice.generate 512 1 1000 0
           (PolyphonicVoice.init 60 100 44100 default_params))
    = Return block
    /\ length block = 512%nat
    /\ Forall in_unit_range block.
Proof.
  apply (@generate_block_length_and_range 512 1 1000 0
           (PolyphonicVoice.init 60 100 44100 default_params)).
  - apply init_voice_ok; [reflexivity | cbn; lra | lia].
  - lra.
Defined.

(** X4. Rendering keeps a voice well formed: after [generate] the phase
    is wrapped into [0, 2 pi), the filter memory is within [-1, 1], the
    envelope value within [0, 1], and the velocity is the one the voice was
    created with.  A voice made by the constructor from a MIDI velocity
    (0 to 127), a positive sample rate and a sustain level within [0, 1] is
    well formed, so every voice stays so over any number of blocks. *)
Theorem generate_keeps_voice_well_formed :
  forall (frames : nat) (waveform : Z) (filter_cutoff detune : R)
         (self : PolyphonicVoice.t),
    voice_ok self ->
    0 <= filter_cutoff ->
    let self' :=
      snd (PolyphonicVoice.generate frames waveform filter_cutoff detune
             self) in
    voice_ok self'
    /\ 0 <= PolyphonicVoice.phase self' < 2 * PI
    /\ -1 <= PolyphonicVoice.filter_state self' <= 1
    /\ 0 <= PolyphonicVoice.envelope_value self' <= 1.
Proof.
  intros frames waveform filter_cutoff detune self Hok Hcut self'.
  destruct (@poly_generate_ok frames waveform filter_cutoff detune self
              Hok Hcut) as (block & v' & Hgen & _ & _ & Hok').
  subst self'. rewrite Hgen. cbn [snd].
  split; [exact Hok' |].
  destruct Hok' as ((_ & _ & _ & Hval) & _ & Hfs & Hph).
  split; [exact Hph |]. split; [exact Hfs | exact Hval].
Qed.

Lemma note_60_well_formed_after_first_block :
  let self' :=
    snd (PolyphonicVoice.generate 512 1 1000 0
           (PolyphonicVoice.init 60 100 44100 default_params)) in
  voice_ok self'
  /\ 0 <= PolyphonicVoice.phase self' < 2 * PI
  /\ -1 <= PolyphonicVoice.filter_state self' <= 1
  /\ 0 <= PolyphonicVoice.envelope_value self' <= 1.
Proof.
  apply (@generate_keeps_voice_well_formed 512 1 1000 0
           (PolyphonicVoice.init 60 100 44100 default_params)).
  - apply init_voice_ok; [reflexivity | cbn; lra | lia].
  - lra.
Defined.

(** ** What a render leaves alone *)

Lemma same_settings_refl (v : PolyphonicVoice.t) : same_settings v v.
Proof. unfold same_settings. repeat split; reflexivity. Qed.

Lemma same_settings_trans (u v w : PolyphonicVoice.t) :
  same_settings u v -> same_settings v w -> same_settings u w.
Proof.
  unfold same_settings. intros H1 H2.
  destruct H1 as (A1 & A2 & A3 & A4 & A5 & A6 & A7 & A8).
  destruct H2 as (B1 & B2 & B3 & B4 & B5 & B6 & B7 & B8).
  repeat split; congruence.
Qed.

Lemma poly_update_settings (frames : nat) (self : PolyphonicVoice.t) :
  let self' := snd (PolyphonicVoice.update_envelope frames self) in
  same_settings self self'
  /\ PolyphonicVoice.filter_state self' = PolyphonicVoice.filter_state self
  /\ PolyphonicVoice.phase self' = PolyphonicVoice.phase self.
Proof.
  unfold PolyphonicVoice.update_envelope, same_settings.
  destruct self as [n vel f ph sr a d s r ep ev et rl fs]; cbn.
  destruct (sr =? 0)%Z; cbn; [repeat split; reflexivity |].
  destruct ep; cbn; rdec; cbn; repeat split; reflexivity.
Qed.

Lemma poly_generate_settings (frames : nat) (waveform : Z)
      (filter_cutoff detune : R) (self : PolyphonicVoice.t) :
  same_settings self
    (snd (PolyphonicVoice.generate frames waveform filter_cutoff detune self)).
Proof.
  unfold PolyphonicVoice.generate.
  destruct (PolyphonicVoice.is_finished self);
    [apply same_settings_refl |].
  destruct (PolyphonicVoice.sample_rate self =? 0)%Z;
    [apply same_settings_refl |].
  destruct (PolyphonicVoice.filter_applies waveform filter_cutoff).
  - destruct (PolyphonicVoice.filter_loop _ _ _) as [ys state].
    match goal with
    | |- context [PolyphonicVoice.update_envelope frames ?v] =>
        pose proof (@poly_update_settings frames v) as [H _];
        destruct (PolyphonicVoice.update_envelope frames v)
          as [[value | e] self']
    end; cbn in *; exact H.
  - match goal with
    | |- context [PolyphonicVoice.update_envelope frames ?v] =>
        pose proof (@poly_update_settings frames v) as [H _];
        destruct (PolyphonicVoice.update_envelope frames v)
          as [[value | e] self']
    end; cbn in *; exact H.
Qed.

Lemma filter_applies_false (waveform : Z) (filter_cutoff : R) :
  6000 <= filter_cutoff \/ (waveform <> 1%Z /\ waveform <> 2%Z) ->
  PolyphonicVoice.filter_applies waveform filter_cutoff = false.
Proof.
  unfold PolyphonicVoice.filter_applies. intros [Hc | [H1 H2]].
  - destruct (Rlt_dec filter_cutoff 6000); [lra | reflexivity].
  - apply Z.eqb_neq in H1. apply Z.eqb_neq in H2. rewrite H1, H2.
    apply andb_false_r.
Qed.

(** X5. The filter is bypassed whenever the cutoff is 6000 Hz or more, or
    the waveform is neither Square (1) nor Sawtooth (2): for a voice that is
    not finished and has a sample rate other than 0, [generate] then returns
    the raw oscillator block scaled by envelope times velocity, where the
    envelope is what [update_envelope] returns for this block, and the
    voice's filter memory is left as it was. *)
Theorem filter_bypassed_above_6000_or_soft_waveform :
  forall (frames : nat) (waveform : Z) (filter_cutoff detune : R)
         (self : PolyphonicVoice.t),
    PolyphonicVoice.is_finished self = false ->
    PolyphonicVoice.sample_rate self <> 0%Z ->
    6000 <= filter_cutoff \/ (waveform <> 1%Z /\ waveform <> 2%Z) ->
    let rendered :=
      PolyphonicVoice.generate frames waveform filter_cutoff detune self in
    exists envelope,
      fst (PolyphonicVoice.update_envelope frames self) = Return envelope
      /\ fst rendered
         = Return (map (fun x => x * (envelope * PolyphonicVoice.velocity self))
                     (PolyphonicVoice.oscillator self frames waveform detune))
      /\ PolyphonicVoice.filter_state (snd rendered)
         = PolyphonicVoice.filter_state self.
Proof.
  intros frames waveform filter_cutoff detune self Hnf Hsr Hby rendered.
  pose proof (filter_applies_false Hby) as Hfa.
  destruct (@poly_generate_unfiltered frames waveform filter_cutoff detune
              self Hnf Hsr Hfa) as (envelope & self' & Hgen & Henv).
  exists envelope. subst rendered.
  split; [exact Henv |]. split; [rewrite Hgen; reflexivity |].
  unfold PolyphonicVoice.generate. rewrite Hnf, Hfa.
  replace (PolyphonicVoice.sample_rate self =? 0)%Z with false
    by (symmetry; apply Z.eqb_neq; exact Hsr).
  match goal with
  | |- context [PolyphonicVoice.update_envelope frames ?v] =>
      pose proof (@poly_update_settings frames v) as (_ & Hfs & _);
      destruct (PolyphonicVoice.update_envelope frames v)
        as [[value | e] v']
  end; cbn in *; exact Hfs.
Qed.

Lemma square_at_8000_is_unfiltered :
  let self := PolyphonicVoice.init 60 100 44100 default_params in
  let rendered := PolyphonicVoice.generate 512 1 8000 0 self in
  exists envelope,
    fst (PolyphonicVoice.update_envelope 512 self) = Return envelope
    /\ fst rendered
       = Return (map (fun x => x * (envelope * PolyphonicVoice.velocity self))
                   (PolyphonicVoice.oscillator self 512 1 0))
    /\ PolyphonicVoice.filter_state (snd rendered)
       = PolyphonicVoice.filter_state self.
Proof.
  apply (@filter_bypassed_above_6000_or_soft_waveform 512 1 8000 0
           (PolyphonicVoice.init 60 100 44100 default_params)).
  - reflexivity.
  - discriminate.
  - left. lra.
Defined.

(** ** From release to the end of a voice *)





(** * Further properties of the synth classes *)

(** ** [note_on] and [note_off] *)

Section NoteCalls.
Variable V : Type.
Variable voice_release : V -> V.

Lemma note_on_succeeds (max_voices note : Z) (new_voice : V)
      (voices : dict V) :
  (0 < max_voices)%Z ->
  exists voices',
    Engine.note_on max_voices note new_voice voices = (Return tt, voices')
    /\ dict_get note voices' = Some new_voice.
Proof.
  intros Hpos.
  rewrite note_on_unfold. cbv zeta.
  set (voices1 := if dict_mem note voices then dict_remove note voices
                  else voices).
  destruct (Z.of_nat (length voices1) >=? max_voices)%Z eqn:Hfull.
  - destruct (@py_min_spec (dict_keys voices1)) as (m & Hmin & Hin & _).
    { rewrite Z.geb_leb in Hfull. apply Z.leb_le in Hfull.
      destruct voices1; [cbn in Hfull; lia | discriminate]. }
    rewrite Hmin.
    replace (dict_mem m voices1) with true
      by (symmetry; apply dict_mem_In; exact Hin).
    eexists. split; [reflexivity | apply dict_set_get_same].
  - eexists. split; [reflexivity | apply dict_set_get_same].
Qed.

Lemma note_on_raises (max_voices note : Z) (new_voice : V)
      (voices voices' : dict V) (e : exn) :
  Engine.note_on max_voices note new_voice voices = (Raise e, voices') ->
  isinstance_Exception e = true.
Proof.
  rewrite note_on_unfold. cbv zeta.
  match goal with
  | |- context [(Z.of_nat (length ?v) >=? max_voices)%Z] =>
      destruct (Z.of_nat (length v) >=? max_voices)%Z; [| discriminate];
      destruct v as [| kv rest] eqn:Hv
  end.
  - cbn. intros H. injection H as <- _. reflexivity.
  - cbn [py_min dict_keys map].
    match goal with
    | |- context [dict_mem ?m ?d] => destruct (dict_mem m d)
    end; [discriminate |].
    intros H. injection H as <- _. reflexivity.
Qed.

Lemma dict_get_of_mem (k : Z) (d : dict V) :
  dict_mem k d = true -> exists v, dict_get k d = Some v.
Proof.
  induction d as [| [k0 v0] rest IH]; cbn; [discriminate |].
  destruct (k0 =? k)%Z; cbn; [intros _; eexists; reflexivity | exact IH].
Qed.

Lemma dict_set_keys_same (k : Z) (v : V) (d : dict V) :
  dict_mem k d = true -> dict_keys (dict_set k v d) = dict_keys d.
Proof. apply dict_set_keys_mem. Qed.

(** [note_off] on the pool: no fault, same keys, the voice under [note]
    released, every other entry as it was *)
Lemma note_off_effect (note : Z) (voices : dict V) :
  let done := Engine.note_off voice_release note voices in
  fst done = Return tt
  /\ dict_keys (snd done) = dict_keys voices
  /\ dict_get note (snd done)
     = option_map voice_release (dict_get note voices)
  /\ (forall k, k <> note -> dict_get k (snd done) = dict_get k voices).
Proof.
  unfold Engine.note_off, bind, get, put, ret, raise.
  destruct (dict_mem note voices) eqn:Hmem.
  - destruct (dict_get_of_mem _ _ Hmem) as (v & Hget). rewrite Hget. cbn.
    split; [reflexivity |].
    split; [apply dict_set_keys_mem; exact Hmem |].
    split; [apply dict_set_get_same |].
    intros k Hk. apply dict_set_get_other. exact Hk.
  - cbn. rewrite (dict_get_None _ _ Hmem).
    repeat split; reflexivity.
Qed.
End NoteCalls.

(** X7. With a positive capacity, [note_on] never raises, whatever the
    pool holds, and afterwards the note is in the pool under a new voice:
    envelope in the Attack phase at value 0 with its timer at 0, oscillator
    phase and filter memory at 0, envelope times as the synth has them at
    that moment.  A note that was sounding is thereby retriggered from
    silence.  Holds for both synths. *)
Theorem note_on_always_inserts_fresh_voice :
  (forall (self : FourPotMIDISynth.t) (note velocity : Z),
      (0 < FourPotMIDISynth.max_voices self)%Z ->
      let done := FourPotMIDISynth.note_on note velocity self in
      fst done = Return tt
      /\ exists voice,
          dict_get note (FourPotMIDISynth.voices (snd done)) = Some voice
          /\ voice
             = PolyphonicVoice.init note velocity
                 (FourPotMIDISynth.sample_rate self)
                 (FourPotMIDISynth.get_envelope_params self)
          /\ PolyphonicVoice.envelope_phase voice = Attack
          /\ PolyphonicVoice.envelope_value voice = 0
          /\ PolyphonicVoice.envelope_timer voice = 0
          /\ PolyphonicVoice.phase voice = 0
          /\ PolyphonicVoice.filter_state voice = 0)
  /\ (forall (self : MPKOnlySynth.t) (note velocity : Z),
         (0 < MPKOnlySynth.max_voices self)%Z ->
         let done := MPKOnlySynth.note_on note velocity self in
         fst done = Return tt
         /\ exists voice,
             dict_get note (MPKOnlySynth.voices (snd done)) = Some voice
             /\ voice
                = MPKVoice.init note velocity (MPKOnlySynth.sample_rate self)
                    (MPKOnlySynth.get_synth_params self)
             /\ MPKVoice.envelope_phase voice = Attack
             /\ MPKVoice.envelope_value voice = 0
             /\ MPKVoice.envelope_timer voice = 0
             /\ MPKVoice.phase voice = 0
             /\ MPKVoice.filter_state voice = 0).
Proof.
  split; intros self note velocity Hpos done; subst done.
  - unfold FourPotMIDISynth.note_on.
    destruct (@note_on_succeeds _ (FourPotMIDISynth.max_voices self) note
                (PolyphonicVoice.init note velocity
                   (FourPotMIDISynth.sample_rate self)
                   (FourPotMIDISynth.get_envelope_params self))
                (FourPotMIDISynth.voices self) Hpos) as (voices' & Hrun & Hget).
    rewrite Hrun. cbn [fst snd]. split; [reflexivity |].
    eexists. split; [exact Hget |]. repeat split; reflexivity.
  - unfold MPKOnlySynth.note_on.
    destruct (@note_on_succeeds _ (MPKOnlySynth.max_voices self) note
                (MPKVoice.init note velocity (MPKOnlySynth.sample_rate self)
                   (MPKOnlySynth.get_synth_params self))
                (MPKOnlySynth.voices self) Hpos) as (voices' & Hrun & Hget).
    rewrite Hrun. cbn [fst snd]. split; [reflexivity |].
    eexists. split; [exact Hget |]. repeat split; reflexivity.
Qed.

Lemma note_on_60_on_fresh_synth :
  let done :=
    FourPotMIDISynth.note_on 60 100 (FourPotMIDISynth.init 44100 512) in
  fst done = Return tt
  /\ exists voice,
      dict_get 60 (FourPotMIDISynth.voices (snd done)) = Some voice
      /\ PolyphonicVoice.envelope_phase voice = Attack
      /\ PolyphonicVoice.envelope_value voice = 0.
Proof.
  destruct (proj1 note_on_always_inserts_fresh_voice
              (FourPotMIDISynth.init 44100 512) 60%Z 100%Z eq_refl)
    as (Hret & voice & Hget & _ & Hph & Hval & _).
  split; [exact Hret |]. exists voice. repeat split; assumption.
Defined.

(** X8. [note_off] never raises and never changes which notes are in the
    pool or their order.  If the note has a voice, that voice is released
    (Release phase, timer 0); if it has none, nothing at all changes.  The
    voice of every other note is left exactly as it was.  Holds for both
    synths. *)
Theorem note_off_releases_only_that_note :
  (forall (self : FourPotMIDISynth.t) (note : Z),
      let done := FourPotMIDISynth.note_off note self in
      fst done = Return tt
      /\ dict_keys (FourPotMIDISynth.voices (snd done))
         = dict_keys (FourPotMIDISynth.voices self)
      /\ dict_get note (FourPotMIDISynth.voices (snd done))
         = option_map PolyphonicVoice.release
             (dict_get note (FourPotMIDISynth.voices self))
      /\ (forall k, k <> note ->
                    dict_get k (FourPotMIDISynth.voices (snd done))
                    = dict_get k (FourPotMIDISynth.voices self))
      /\ (dict_mem note (FourPotMIDISynth.voices self) = false ->
          snd done = self))
  /\ (forall (self : MPKOnlySynth.t) (note : Z),
         let done := MPKOnlySynth.note_off note self in
         fst done = Return tt
         /\ dict_keys (MPKOnlySynth.voices (snd done))
            = dict_keys (MPKOnlySynth.voices self)
         /\ dict_get note (MPKOnlySynth.voices (snd done))
            = option_map MPKVoice.release
                (dict_get note (MPKOnlySynth.voices self))
         /\ (forall k, k <> note ->
                       dict_get k (MPKOnlySynth.voices (snd done))
                       = dict_get k (MPKOnlySynth.voices self))
         /\ (dict_mem note (MPKOnlySynth.voices self) = false ->
             snd done = self)).
Proof.
  split; intros self note done; subst done.
  - unfold FourPotMIDISynth.note_off.
    pose proof (@note_off_effect _ PolyphonicVoice.release note
                  (FourPotMIDISynth.voices self)) as H.
    cbv zeta in H. destruct H as (Hret & Hkeys & Hget & Hother).
    assert (Habsent : dict_mem note (FourPotMIDISynth.voices self) = false ->
                      snd (Engine.note_off PolyphonicVoice.release note
                             (FourPotMIDISynth.voices self))
                      = FourPotMIDISynth.voices self).
    { intros Hmem. unfold Engine.note_off, bind, get, ret.
      rewrite Hmem. reflexivity. }
    destruct (Engine.note_off _ _ _) as [r voices']. cbn [fst snd] in *.
    repeat split; try assumption.
    intros Hmem. rewrite (Habsent Hmem). destruct self; reflexivity.
  - unfold MPKOnlySynth.note_off.
    pose proof (@note_off_effect _ MPKVoice.release note
                  (MPKOnlySynth.voices self)) as H.
    cbv zeta in H. destruct H as (Hret & Hkeys & Hget & Hother).
    assert (Habsent : dict_mem note (MPKOnlySynth.voices self) = false ->
                      snd (Engine.note_off MPKVoice.release note
                             (MPKOnlySynth.voices self))
                      = MPKOnlySynth.voices self).
    { intros Hmem. unfold Engine.note_off, bind, get, ret.
      rewrite Hmem. reflexivity. }
    destruct (Engine.note_off _ _ _) as [r voices']. cbn [fst snd] in *.
    repeat split; try assumption.
    intros Hmem. rewrite (Habsent Hmem). destruct self; reflexivity.
Qed.

Lemma note_off_absent_changes_nothing :
  let self := snd (FourPotMIDISynth.note_on 60 100
                     (FourPotMIDISynth.init 44100 512)) in
  dict_mem 61 (FourPotMIDISynth.voices self) = false
  /\ snd (FourPotMIDISynth.note_off 61 self) = self.
Proof.
  intros self. split; [reflexivity |].
  destruct (proj1 note_off_releases_only_that_note self 61%Z)
    as (_ & _ & _ & _ & Habsent).
  apply Habsent. reflexivity.
Defined.

(** ** MIDI dispatch *)

Lemma try_except_keeps_state (S : Type) (m : M S unit) (s : S) :
  snd (try_except_Exception m (ret tt) s) = snd (m s).
Proof.
  unfold try_except_Exception, ret.
  destruct (m s) as [[[] | e] s']; cbn; [reflexivity |].
  destruct (isinstance_Exception e); reflexivity.
Qed.

Lemma try_except_returns (S : Type) (m : M S unit) (s : S) :
  (forall e s', m s = (Raise e, s') -> isinstance_Exception e = true) ->
  fst (try_except_Exception m (ret tt) s) = Return tt.
Proof.
  intros Hexn. unfold try_except_Exception, ret.
  destruct (m s) as [[[] | e] s'] eqn:Hm; cbn; [reflexivity |].
  rewrite (Hexn e s' eq_refl). reflexivity.
Qed.

Lemma fourpot_note_on_raises (note velocity : Z) (self : FourPotMIDISynth.t)
      (e : exn) (self' : FourPotMIDISynth.t) :
  FourPotMIDISynth.note_on note velocity self = (Raise e, self') ->
  isinstance_Exception e = true.
Proof.
  unfold FourPotMIDISynth.note_on.
  destruct (Engine.note_on _ _ _ _) as [r voices'] eqn:Hrun.
  intros H. injection H as -> _.
  eapply note_on_raises. exact Hrun.
Qed.

Lemma fourpot_note_off_returns (note : Z) (self : FourPotMIDISynth.t) :
  fst (FourPotMIDISynth.note_off note self) = Return tt.
Proof.
  unfold FourPotMIDISynth.note_off.
  pose proof (@note_off_effect _ PolyphonicVoice.release note
                (FourPotMIDISynth.voices self)) as [H _].
  destruct (Engine.note_off _ _ _) as [r voices']. exact H.
Qed.

Lemma mpk_note_on_raises (note velocity : Z) (self : MPKOnlySynth.t)
      (e : exn) (self' : MPKOnlySynth.t) :
  MPKOnlySynth.note_on note velocity self = (Raise e, self') ->
  isinstance_Exception e = true.
Proof.
  unfold MPKOnlySynth.note_on.
  destruct (Engine.note_on _ _ _ _) as [r voices'] eqn:Hrun.
  intros H. injection H as -> _.
  eapply note_on_raises. exact Hrun.
Qed.

Lemma mpk_note_off_returns (note : Z) (self : MPKOnlySynth.t) :
  fst (MPKOnlySynth.note_off note self) = Return tt.
Proof.
  unfold MPKOnlySynth.note_off.
  pose proof (@note_off_effect _ MPKVoice.release note
                (MPKOnlySynth.voices self)) as [H _].
  destruct (Engine.note_off _ _ _) as [r voices']. exact H.
Qed.

(** Decide the status byte tests of [midi_callback]. *)
Ltac status_cases :=
  repeat match goal with
    | |- context [(?a <=? ?b)%Z] =>
        let E := fresh "E" in
        destruct (a <=? b)%Z eqn:E;
        [apply Z.leb_le in E | apply Z.leb_gt in E]
    | |- context [(?a >? ?b)%Z] =>
        let E := fresh "E" in
        destruct (a >? b)%Z eqn:E;
        [apply Z.gtb_lt in E | rewrite Z.gtb_ltb in E; apply Z.ltb_ge in E]
    | |- context [(?a =? ?b)%Z] =>
        let E := fresh "E" in
        destruct (a =? b)%Z eqn:E;
        [apply Z.eqb_eq in E | apply Z.eqb_neq in E]
    end; cbn [andb orb]; try lia; try reflexivity.

(** X9. [midi_callback] never raises, for any message and any synth state.
    A message of fewer than three bytes, or one whose status byte is below
    128, from 160 to 175, or 192 and above, changes nothing.  Status 144 to
    159 with a positive velocity has the effect of [note_on]; status 128 to
    143, or 144 to 159 with velocity 0, has the effect of [note_off]; status
    176 to 191 has the effect of [handle_cc].  Bytes after the third are
    ignored. *)
Theorem fourpot_midi_callback_dispatch :
  forall self : FourPotMIDISynth.t,
    (forall msg, fst (FourPotMIDISynth.midi_callback msg self) = Return tt)
    /\ (forall msg, (length msg < 3)%nat ->
                    snd (FourPotMIDISynth.midi_callback msg self) = self)
    /\ (forall status note velocity rest,
           let after :=
             snd (FourPotMIDISynth.midi_callback
                    (status :: note :: velocity :: rest) self) in
           ((144 <= status <= 159)%Z -> (0 < velocity)%Z ->
            after = snd (FourPotMIDISynth.note_on note velocity self))
           /\ ((128 <= status <= 143)%Z
               \/ ((144 <= status <= 159)%Z /\ velocity = 0%Z) ->
               after = snd (FourPotMIDISynth.note_off note self))
           /\ ((176 <= status <= 191)%Z ->
               after = FourPotMIDISynth.handle_cc note velocity self)
           /\ ((status < 128)%Z \/ (160 <= status <= 175)%Z
               \/ (192 <= status)%Z ->
               after = self)).
Proof.
  intros self. split; [| split].
  - intros msg. unfold FourPotMIDISynth.midi_callback.
    apply try_except_returns. intros e s'.
    destruct msg as [| status [| note [| velocity rest]]];
      try (unfold ret; discriminate).
    destruct ((144 <=? status)%Z && (status <=? 159)%Z && (velocity >? 0)%Z).
    { apply fourpot_note_on_raises. }
    destruct ((128 <=? status)%Z && (status <=? 143)%Z
              || (144 <=? status)%Z && (status <=? 159)%Z && (velocity =? 0)%Z).
    { intros H. pose proof (fourpot_note_off_returns note self) as Hr.
      rewrite H in Hr. discriminate. }
    destruct ((176 <=? status)%Z && (status <=? 191)%Z);
      unfold ret; discriminate.
  - intros msg Hlen. unfold FourPotMIDISynth.midi_callback.
    rewrite try_except_keeps_state.
    destruct msg as [| status [| note [| velocity rest]]];
      try reflexivity.
    cbn in Hlen. lia.
  - intros status note velocity rest after. subst after.
    unfold FourPotMIDISynth.midi_callback.
    rewrite try_except_keeps_state.
    split; [| split; [| split]].
    + intros Hs Hv. status_cases.
    + intros Hs. status_cases.
    + intros Hs. status_cases.
    + intros Hs. status_cases.
Qed.

Lemma note_on_with_velocity_0_is_note_off :
  let self := snd (FourPotMIDISynth.note_on 60 100
                     (FourPotMIDISynth.init 44100 512)) in
  snd (FourPotMIDISynth.midi_callback [144; 60; 0]%Z self)
  = snd (FourPotMIDISynth.note_off 60 self).
Proof.
  intros self.
  destruct (fourpot_midi_callback_dispatch self) as (_ & _ & H).
  destruct (H 144%Z 60%Z 0%Z []) as (_ & Hoff & _).
  apply Hoff. right. split; [lia | reflexivity].
Defined.

(** X10. The same for [MPKOnlySynth.midi_callback], with [handle_knob] for
    the control changes: it never raises; short messages and the other
    status bytes change nothing; note-on, note-off (also as note-on with
    velocity 0) and control change have the effect of [note_on], [note_off]
    and [handle_knob]. *)
Theorem mpk_midi_callback_dispatch :
  forall self : MPKOnlySynth.t,
    (forall msg, fst (MPKOnlySynth.midi_callback msg self) = Return tt)
    /\ (forall msg, (length msg < 3)%nat ->
                    snd (MPKOnlySynth.midi_callback msg self) = self)
    /\ (forall status data1 data2 rest,
           let after :=
             snd (MPKOnlySynth.midi_callback
                    (status :: data1 :: data2 :: rest) self) in
           ((144 <= status <= 159)%Z -> (0 < data2)%Z ->
            after = snd (MPKOnlySynth.note_on data1 data2 self))
           /\ ((128 <= status <= 143)%Z
               \/ ((144 <= status <= 159)%Z /\ data2 = 0%Z) ->
               after = snd (MPKOnlySynth.note_off data1 self))
           /\ ((176 <= status <= 191)%Z ->
               after = MPKOnlySynth.handle_knob data1 data2 self)
           /\ ((status < 128)%Z \/ (160 <= status <= 175)%Z
               \/ (192 <= status)%Z ->
               after = self)).
Proof.
  intros self. split; [| split].
  - intros msg. unfold MPKOnlySynth.midi_callback.
    apply try_except_returns. intros e s'.
    destruct msg as [| status [| data1 [| data2 rest]]];
      try (unfold ret; discriminate).
    destruct ((144 <=? status)%Z && (status <=? 159)%Z && (data2 >? 0)%Z).
    { apply mpk_note_on_raises. }
    destruct ((128 <=? status)%Z && (status <=? 143)%Z
              || (144 <=? status)%Z && (status <=? 159)%Z && (data2 =? 0)%Z).
    { intros H. pose proof (mpk_note_off_returns data1 self) as Hr.
      rewrite H in Hr. discriminate. }
    destruct ((176 <=? status)%Z && (status <=? 191)%Z);
      unfold ret; discriminate.
  - intros msg Hlen. unfold MPKOnlySynth.midi_callback.
    rewrite try_except_keeps_state.
    destruct msg as [| status [| data1 [| data2 rest]]];
      try reflexivity.
    cbn in Hlen. lia.
  - intros status data1 data2 rest after. subst after.
    unfold MPKOnlySynth.midi_callback.
    rewrite try_except_keeps_state.
    split; [| split; [| split]].
    + intros Hs Hv. status_cases.
    + intros Hs. status_cases.
    + intros Hs. status_cases.
    + intros Hs. status_cases.
Qed.

Lemma mpk_short_message_ignored :
  snd (MPKOnlySynth.midi_callback [144; 60]%Z (MPKOnlySynth.init 44100 512))
  = MPKOnlySynth.init 44100 512.
Proof.
  destruct (mpk_midi_callback_dispatch (MPKOnlySynth.init 44100 512))
    as (_ & Hshort & _).
  apply Hshort. cbn. lia.
Defined.

(** ** Control inputs *)

Lemma clamp_range (x : R) : 0 <= Rmax 0 (Rmin 1 x) <= 1.
Proof.
  split; [apply Rmax_l |].
  apply Rmax_lub; [lra | apply Rmin_l].
Qed.

Lemma clamp_low (x : R) : x <= 0 -> Rmax 0 (Rmin 1 x) = 0.
Proof.
  intros Hx. apply Rmax_left.
  pose proof (Rmin_r 1 x). lra.
Qed.

Lemma clamp_high (x : R) : 1 <= x -> Rmax 0 (Rmin 1 x) = 1.
Proof.
  intros Hx. rewrite Rmin_left by exact Hx. apply Rmax_right. lra.
Qed.

(** X11. One pass of the potentiometer loop clamps every reading, whatever
    the converter returns: afterwards the master volume is within [0, 0.8],
    the waveform selector is 0, 1, 2 or 3, the filter cutoff is within
    [200, 8000] Hz and the envelope control within [0, 1].  A volume reading
    at or below the calibrated minimum 3 gives volume 0, one at or above the
    calibrated maximum 26335 gives 0.8.  The voices, the detune, the capacity
    and the sample rate are not touched. *)
Theorem read_potentiometers_clamps_readings :
  forall (vol_raw wave_raw filter_raw env_raw : Z) (self : FourPotMIDISynth.t),
    let after :=
      FourPotMIDISynth.read_potentiometers vol_raw wave_raw filter_raw env_raw
        self in
    0 <= FourPotMIDISynth.master_volume after <= 0.8
    /\ (0 <= FourPotMIDISynth.waveform after <= 3)%Z
    /\ 200 <= FourPotMIDISynth.filter_cutoff after <= 8000
    /\ 0 <= FourPotMIDISynth.envelope_control after <= 1
    /\ ((vol_raw <= 3)%Z -> FourPotMIDISynth.master_volume after = 0)
    /\ ((26335 <= vol_raw)%Z -> FourPotMIDISynth.master_volume after = 0.8)
    /\ FourPotMIDISynth.voices after = FourPotMIDISynth.voices self
    /\ FourPotMIDISynth.detune after = FourPotMIDISynth.detune self
    /\ FourPotMIDISynth.max_voices after = FourPotMIDISynth.max_voices self
    /\ FourPotMIDISynth.sample_rate after = FourPotMIDISynth.sample_rate self.
Proof.
  intros vol_raw wave_raw filter_raw env_raw self after. subst after.
  unfold FourPotMIDISynth.read_potentiometers. cbn.
  pose proof (clamp_range ((IZR vol_raw - 3) / (26335 - 3))) as Hv.
  pose proof (clamp_range ((IZR filter_raw - 15) / (26323 - 15))) as Hf.
  pose proof (clamp_range ((IZR env_raw - 15) / (26320 - 15))) as He.
  split; [lra |].
  split; [rdec; lia |].
  split; [lra |].
  split; [exact He |].
  split; [| split; [| repeat split; reflexivity]].
  - intros Hlow. apply (IZR_le _ 3) in Hlow.
    rewrite clamp_low; [ring |].
    apply Rmult_le_reg_r with (26335 - 3); [lra |].
    unfold Rdiv. rewrite Rmult_assoc, Rinv_l by lra. lra.
  - intros Hhigh. apply (IZR_le 26335) in Hhigh.
    rewrite clamp_high; [ring |].
    apply Rmult_le_reg_r with (26335 - 3); [lra |].
    unfold Rdiv. rewrite Rmult_assoc, Rinv_l by lra. lra.
Qed.

Lemma volume_reading_below_minimum_is_silent :
  FourPotMIDISynth.master_volume
    (FourPotMIDISynth.read_potentiometers 0 100 100 100
       (FourPotMIDISynth.init 44100 512)) = 0.
Proof.
  apply (@read_potentiometers_clamps_readings 0 100 100 100
           (FourPotMIDISynth.init 44100 512)).
  lia.
Defined.

(** X12. For an envelope control within [0, 1], as the constructor sets it
    and every potentiometer pass leaves it, [get_envelope_params] yields an
    attack time within [0.001, 0.041] s, a decay time within [0.01, 0.41] s,
    a release time within [0.03, 1.23] s and the sustain level 0.7: every
    envelope time handed to a new voice is strictly positive. *)
Theorem envelope_params_positive_and_bounded :
  forall self : FourPotMIDISynth.t,
    0 <= FourPotMIDISynth.envelope_control self <= 1 ->
    let p := FourPotMIDISynth.get_envelope_params self in
    0.001 <= attack p <= 0.041
    /\ 0.01 <= decay p <= 0.41
    /\ sustain p = 0.7
    /\ 0.03 <= release_ p <= 1.23.
Proof.
  intros self Hc p. subst p.
  unfold FourPotMIDISynth.get_envelope_params. cbn.
  repeat split; lra.
Qed.

Lemma envelope_params_after_pots :
  let p :=
    FourPotMIDISynth.get_envelope_params
      (FourPotMIDISynth.read_potentiometers 0 0 0 70000
         (FourPotMIDISynth.init 44100 512)) in
  0.001 <= attack p <= 0.041
  /\ 0.01 <= decay p <= 0.41
  /\ sustain p = 0.7
  /\ 0.03 <= release_ p <= 1.23.
Proof.
  apply (@envelope_params_positive_and_bounded
           (FourPotMIDISynth.read_potentiometers 0 0 0 70000
              (FourPotMIDISynth.init 44100 512))).
  apply (@clamp_range ((IZR 70000 - 15) / (26320 - 15))).
Defined.

(** X13. [handle_cc] reacts to controller 70 only: it sets the detune to
    2 * (value - 64) cents, which for a MIDI value (0 to 127) lies within
    [-128, 126] and is 0 exactly at value 64.  Any other controller leaves
    the synth as it is, and no control change touches the voices. *)
Theorem handle_cc_sets_detune_only :
  forall (controller value : Z) (self : FourPotMIDISynth.t),
    let after := FourPotMIDISynth.handle_cc controller value self in
    FourPotMIDISynth.voices after = FourPotMIDISynth.voices self
    /\ (controller <> 70%Z -> after = self)
    /\ (controller = 70%Z ->
        FourPotMIDISynth.detune after = 2 * (IZR value - 64)
        /\ ((0 <= value <= 127)%Z ->
            -128 <= FourPotMIDISynth.detune after <= 126)
        /\ (FourPotMIDISynth.detune after = 0 <-> value = 64%Z)).
Proof.
  intros controller value self after. subst after.
  unfold FourPotMIDISynth.handle_cc.
  destruct (controller =? 70)%Z eqn:E70.
  - apply Z.eqb_eq in E70. split; [reflexivity |].
    split; [intros H; contradiction |]. intros _. cbn.
    rewrite mult_IZR, minus_IZR.
    split; [ring |]. split.
    + intros [Hlo Hhi]. apply (IZR_le 0) in Hlo. apply (IZR_le _ 127) in Hhi.
      lra.
    + split.
      * intros H. apply eq_IZR. lra.
      * intros ->. lra.
  - apply Z.eqb_neq in E70.
    destruct (controller =? 71)%Z;
      (split; [reflexivity |]; split; [reflexivity | contradiction]).
Qed.

Lemma handle_cc_centre_is_no_detune :
  FourPotMIDISynth.detune
    (FourPotMIDISynth.handle_cc 70 64 (FourPotMIDISynth.init 44100 512)) = 0.
Proof.
  destruct (@handle_cc_sets_detune_only 70 64
              (FourPotMIDISynth.init 44100 512)) as (_ & _ & H).
  destruct (H eq_refl) as (_ & _ & Hzero).
  apply Hzero. reflexivity.
Defined.

Lemma midi_value_norm (value : Z) :
  (0 <= value <= 127)%Z -> 0 <= IZR value / 127 <= 1.
Proof.
  intros [Hlo Hhi]. apply (IZR_le 0) in Hlo. apply (IZR_le _ 127) in Hhi.
  lra.
Qed.

(** Reduce [handle_knob] at a given controller number. *)
Ltac knob_at n :=
  unfold MPKOnlySynth.handle_knob; cbv zeta;
  repeat match goal with
    | |- context [(n =? ?m)%Z] =>
        let b := eval compute in (n =? m)%Z in
        change (n =? m)%Z with b; cbv iota
    end.

(** X14. [handle_knob] maps the MIDI value (0 to 127) of a knob into the
    range of its parameter: knob 70 a master volume within [0, 0.8], knob 72
    a filter cutoff within [200, 8000] Hz, knob 73 an attack time within
    [0.001, 2.001] s, knob 74 a decay time within [0.01, 2.01] s, knob 75 a
    sustain level within [0, 1], knob 76 a release time within [0.01, 4.01]
    s, knob 77 a detune within [-100, 100] cents.  Envelope times set from
    the knobs are strictly positive.  A controller outside 70 to 77 changes
    nothing, and no knob touches the voices already playing, the capacity or
    the sample rate. *)
Theorem handle_knob_parameter_ranges :
  forall (controller value : Z) (self : MPKOnlySynth.t),
    (0 <= value <= 127)%Z ->
    let after := MPKOnlySynth.handle_knob controller value self in
    MPKOnlySynth.voices after = MPKOnlySynth.voices self
    /\ MPKOnlySynth.max_voices after = MPKOnlySynth.max_voices self
    /\ MPKOnlySynth.sample_rate after = MPKOnlySynth.sample_rate self
    /\ (controller = 70%Z -> 0 <= MPKOnlySynth.master_volume after <= 0.8)
    /\ (controller = 72%Z -> 200 <= MPKOnlySynth.filter_cutoff after <= 8000)
    /\ (controller = 73%Z -> 0.001 <= MPKOnlySynth.attack_time after <= 2.001)
    /\ (controller = 74%Z -> 0.01 <= MPKOnlySynth.decay_time after <= 2.01)
    /\ (controller = 75%Z -> 0 <= MPKOnlySynth.sustain_level after <= 1)
    /\ (controller = 76%Z -> 0.01 <= MPKOnlySynth.release_time after <= 4.01)
    /\ (controller = 77%Z -> -100 <= MPKOnlySynth.detune after <= 100)
    /\ ((controller < 70)%Z \/ (77 < controller)%Z -> after = self).
Proof.
  intros controller value self Hbyte after. subst after.
  pose proof (midi_value_norm Hbyte) as Hn.
  split; [| split; [| split]].
  - unfold MPKOnlySynth.handle_knob. cbv zeta.
    repeat match goal with
           | |- context [(controller =? ?n)%Z] =>
               destruct (controller =? n)%Z; [rdec; reflexivity |]
           end.
    reflexivity.
  - unfold MPKOnlySynth.handle_knob. cbv zeta.
    repeat match goal with
           | |- context [(controller =? ?n)%Z] =>
               destruct (controller =? n)%Z; [rdec; reflexivity |]
           end.
    reflexivity.
  - unfold MPKOnlySynth.handle_knob. cbv zeta.
    repeat match goal with
           | |- context [(controller =? ?n)%Z] =>
               destruct (controller =? n)%Z; [rdec; reflexivity |]
           end.
    reflexivity.
  - split; [intros ->; knob_at 70%Z; cbn; lra |].
    split; [intros ->; knob_at 72%Z; cbn; lra |].
    split; [intros ->; knob_at 73%Z; cbn; lra |].
    split; [intros ->; knob_at 74%Z; cbn; lra |].
    split; [intros ->; knob_at 75%Z; cbn; lra |].
    split; [intros ->; knob_at 76%Z; cbn; lra |].
    split; [intros ->; knob_at 77%Z; cbn; lra |].
    intros Hout. unfold MPKOnlySynth.handle_knob. cbv zeta.
    repeat match goal with
           | |- context [(controller =? ?n)%Z] =>
               let E := fresh "E" in
               destruct (controller =? n)%Z eqn:E;
               [apply Z.eqb_eq in E; lia |]
           end.
    reflexivity.
Qed.

Lemma release_knob_at_zero_is_positive :
  0.01 <= MPKOnlySynth.release_time
            (MPKOnlySynth.handle_knob 76 0 (MPKOnlySynth.init 44100 512))
       <= 4.01.
Proof.
  destruct (@handle_knob_parameter_ranges 76 0 (MPKOnlySynth.init 44100 512)
              ltac:(lia)) as (_ & _ & _ & _ & _ & _ & _ & _ & H & _).
  apply H. reflexivity.
Defined.

(** X15. The waveform knob (71) splits the MIDI values into four bands:
    0 to 31 selects Sine (0), 32 to 63 Square (1), 64 to 95 Sawtooth (2) and
    96 to 127 Triangle (3).  The detune knob (77) has no neutral position:
    no MIDI value sets the detune to 0 cents, the values 63 and 64 give the
    two detunes closest to it, one below and one above. *)
Theorem waveform_knob_bands_and_detune_knob_never_zero :
  forall (value : Z) (self : MPKOnlySynth.t),
    (0 <= value <= 127)%Z ->
    let wave :=
      MPKOnlySynth.waveform (MPKOnlySynth.handle_knob 71 value self) in
    let cents :=
      MPKOnlySynth.detune (MPKOnlySynth.handle_knob 77 value self) in
    ((value <= 31)%Z -> wave = 0%Z)
    /\ ((32 <= value <= 63)%Z -> wave = 1%Z)
    /\ ((64 <= value <= 95)%Z -> wave = 2%Z)
    /\ ((96 <= value)%Z -> wave = 3%Z)
    /\ cents <> 0
    /\ ((value <= 63)%Z -> cents < 0)
    /\ ((64 <= value)%Z -> 0 < cents).
Proof.
  intros value self [Hlo Hhi] wave cents. subst wave cents.
  assert (H0 : 0 <= IZR value) by (apply (IZR_le 0); exact Hlo).
  assert (Hneg : (value <= 63)%Z ->
                 MPKOnlySynth.detune (MPKOnlySynth.handle_knob 77 value self)
                 < 0).
  { intros H. apply (IZR_le _ 63) in H. knob_at 77%Z. cbn. lra. }
  assert (Hpos : (64 <= value)%Z ->
                 0 < MPKOnlySynth.detune
                       (MPKOnlySynth.handle_knob 77 value self)).
  { intros H. apply (IZR_le 64) in H. knob_at 77%Z. cbn. lra. }
  split; [| split; [| split; [| split; [| split; [| split]]]]].
  - intros H. apply (IZR_le _ 31) in H. knob_at 71%Z.
    destruct (Rlt_dec (IZR value / 127) 0.25); [reflexivity | lra].
  - intros [H1 H2]. apply (IZR_le 32) in H1. apply (IZR_le _ 63) in H2.
    knob_at 71%Z.
    destruct (Rlt_dec (IZR value / 127) 0.25); [lra |].
    destruct (Rlt_dec (IZR value / 127) 0.5); [reflexivity | lra].
  - intros [H1 H2]. apply (IZR_le 64) in H1. apply (IZR_le _ 95) in H2.
    knob_at 71%Z.
    destruct (Rlt_dec (IZR value / 127) 0.25); [lra |].
    destruct (Rlt_dec (IZR value / 127) 0.5); [lra |].
    destruct (Rlt_dec (IZR value / 127) 0.75); [reflexivity | lra].
  - intros H1. apply (IZR_le 96) in H1. knob_at 71%Z.
    destruct (Rlt_dec (IZR value / 127) 0.25); [lra |].
    destruct (Rlt_dec (IZR value / 127) 0.5); [lra |].
    destruct (Rlt_dec (IZR value / 127) 0.75); [lra | reflexivity].
  - destruct (Z_le_gt_dec value 63) as [H | H].
    + specialize (Hneg H). lra.
    + assert (H' : (64 <= value)%Z) by lia. specialize (Hpos H'). lra.
  - exact Hneg.
  - exact Hpos.
Qed.

Lemma detune_knob_centre_is_not_neutral :
  MPKOnlySynth.detune
    (MPKOnlySynth.handle_knob 77 64 (MPKOnlySynth.init 44100 512)) <> 0.
Proof.
  apply (@waveform_knob_bands_and_detune_knob_never_zero 64
           (MPKOnlySynth.init 44100 512) ltac:(lia)).
Defined.

(** ** What [audio_callback] writes *)

Lemma quotient_range (n d : R) : 0 < d -> - d < n < d -> -1 < n / d < 1.
Proof.
  intros Hd Hn.
  assert (Hi : d * / d = 1) by (apply Rinv_r; lra).
  assert (Hp : 0 < / d) by (apply Rinv_0_lt_compat; exact Hd).
  unfold Rdiv. split; nra.
Qed.

Lemma tanh_range (x : R) : -1 < tanh x < 1.
Proof.
  unfold tanh, sinh, cosh.
  pose proof (exp_pos x) as Ha. pose proof (exp_pos (- x)) as Hb.
  apply quotient_range; lra.
Qed.

Lemma tanh_0 : tanh 0 = 0.
Proof. unfold tanh. rewrite sinh_0, cosh_0. field. Qed.

Lemma soft_limit_range (x : R) : Rabs (soft_limit x) < 1.2.
Proof.
  unfold soft_limit. pose proof (tanh_range (x * 0.7)).
  apply Rabs_def1; lra.
Qed.

Lemma soft_limit_0 : soft_limit 0 = 0.
Proof. unfold soft_limit. rewrite Rmult_0_l, tanh_0. ring. Qed.

Lemma nth_in_range (P : R -> Prop) (l : list R) (i : nat) :
  P 0 -> Forall P l -> P (nth i l 0).
Proof.
  intros H0 Hall. revert i.
  induction Hall as [| x rest Hx _ IH]; intros [| i]; cbn; auto.
Qed.

Lemma column_value_in_range (P : R -> Prop) (audio : list R) (out : ndarray)
      (i : nat) :
  P 0 -> Forall P audio -> P (column_value audio out i).
Proof.
  intros H0 Hall. unfold column_value.
  destruct (length audio =? nrows out)%nat; apply nth_in_range; assumption.
Qed.

Lemma set_column_returns (j : nat) (audio : list R) (out out' : ndarray) :
  set_column j audio out = (Return tt, out') ->
  (j < ncols out)%nat
  /\ (length audio = nrows out \/ length audio = 1%nat)
  /\ nrows out' = nrows out
  /\ ncols out' = ncols out
  /\ forall i c,
      cell out' i c
      = if (c =? j)%nat then column_value audio out i else cell out i c.
Proof.
  unfold set_column, column_value.
  destruct (ncols out <=? j)%nat eqn:Hc; [discriminate |].
  apply Nat.leb_gt in Hc.
  destruct (length audio =? nrows out)%nat eqn:Hr.
  - intros H. injection H as <-. apply Nat.eqb_eq in Hr. cbn.
    repeat split; auto.
  - destruct (length audio =? 1)%nat eqn:H1; [| discriminate].
    intros H. injection H as <-. apply Nat.eqb_eq in H1. cbn.
    repeat split; auto.
Qed.

Section Output.
Variable V : Type.
Variable voice_is_finished : V -> bool.
Variable voice_generate : nat -> Z -> R -> R -> M V (list R).
Hypothesis generate_raises_Exception :
  forall frames waveform filter_cutoff detune voice e voice',
    voice_generate frames waveform filter_cutoff detune voice
    = (Raise e, voice') ->
    isinstance_Exception e = true.

(** A render that returns has written the limited block to columns 0 and 1
    and left the other columns alone. *)
Lemma render_returns_output (frames : nat) (waveform : Z)
      (filter_cutoff detune master_volume : R)
      (voices voices' : dict V) (outdata outdata' : ndarray) :
  Engine.render voice_is_finished voice_generate frames waveform
    filter_cutoff detune master_volume (voices, outdata)
  = (Return tt, (voices', outdata')) ->
  exists (audio : list R) (voices_to_remove : list Z) (voices1 : dict V),
    Engine.mix_voices voice_is_finished voice_generate frames waveform
      filter_cutoff detune (repeat 0 frames) [] voices
    = (Return (audio, voices_to_remove), voices1)
    /\ Engine.remove_voices voices_to_remove voices1 = (Return tt, voices')
    /\ (2 <= ncols outdata)%nat
    /\ (length audio = nrows outdata \/ length audio = 1%nat)
    /\ forall i c,
        cell outdata' i c
        = if ((c =? 0) || (c =? 1))%nat then
            column_value
              (map soft_limit (map (fun x => x * master_volume) audio))
              outdata i
          else cell outdata i c.
Proof.
  unfold Engine.render, bind, Engine.on_fst, Engine.on_snd. cbn [fst snd].
  destruct (Engine.mix_voices _ _ _ _ _ _ _ _ voices)
    as [[[audio voices_to_remove] | e1] voices1] eqn:Hmix; cbn [fst snd];
    [| discriminate].
  destruct (Engine.remove_voices voices_to_remove voices1)
    as [[[] | e2] voices2] eqn:Hrm; cbn [fst snd]; [| discriminate].
  fold soft_limit.
  change (fun x : R => tanh (x * 0.7) * 1.2) with soft_limit.
  set (lim := map soft_limit (map (fun x => x * master_volume) audio)).
  destruct (set_column 0 lim outdata) as [[[] | e3] outdata1] eqn:H0;
    cbn [fst snd]; [| discriminate].
  destruct (set_column 1 lim outdata1) as [[[] | e4] outdata2] eqn:H1;
    cbn [fst snd]; [| discriminate].
  intros H. injection H as <- <-.
  apply set_column_returns in H0. destruct H0 as (Hc0 & Hl0 & Hr0 & Hn0 & Hcell0).
  apply set_column_returns in H1. destruct H1 as (Hc1 & Hl1 & Hr1 & Hn1 & Hcell1).
  exists audio, voices_to_remove, voices1.
  split; [first [reflexivity | exact Hmix] |].
  split; [first [reflexivity | exact Hrm] |].
  split; [lia |].
  split; [subst lim; rewrite !length_map in Hl0; exact Hl0 |].
  intros i c. rewrite Hcell1, Hcell0.
  assert (Hsame : column_value lim outdata1 i = column_value lim outdata i).
  { unfold column_value. rewrite Hr0. reflexivity. }
  rewrite Hsame.
  destruct (c =? 1)%nat eqn:E1; [rewrite orb_true_r; reflexivity |].
  rewrite orb_false_r. reflexivity.
Qed.

Lemma limited_block_in_range (master_volume : R) (audio : list R) :
  Forall (fun x => Rabs x < 1.2)
    (map soft_limit (map (fun x => x * master_volume) audio)).
Proof.
  apply Forall_forall. intros y Hy.
  apply in_map_iff in Hy. destruct Hy as (x & <- & _).
  apply soft_limit_range.
Qed.

Lemma audio_callback_output (frames : nat) (waveform : Z)
      (filter_cutoff detune master_volume : R)
      (voices : dict V) (outdata : ndarray) :
  let outdata' :=
    snd (snd (Engine.audio_callback voice_is_finished voice_generate frames
                waveform filter_cutoff detune master_volume
                (voices, outdata))) in
  forall i,
    Rabs (cell outdata' i 0) < 1.2 /\ cell outdata' i 1 = cell outdata' i 0.
Proof.
  intros outdata' i. subst outdata'.
  unfold Engine.audio_callback, try_except_Exception.
  destruct (Engine.render _ _ _ _ _ _ _ (voices, outdata))
    as [[[] | e] [voices' out']] eqn:Hbody; cbn [fst snd].
  - apply render_returns_output in Hbody.
    destruct Hbody as (audio & rm & voices1 & _ & _ & _ & _ & Hcell).
    rewrite !Hcell. cbn. split; [| reflexivity].
    apply (@column_value_in_range (fun x => Rabs x < 1.2)).
    + rewrite Rabs_R0. lra.
    + apply limited_block_in_range.
  - rewrite (@render_raises _ _ _ generate_raises_Exception _ _ _ _ _ _ _ _
               Hbody).
    cbn. split; [rewrite Rabs_R0; lra | reflexivity].
Qed.
Lemma audio_callback_empty_pool (frames : nat) (waveform : Z)
      (filter_cutoff detune master_volume : R) (outdata : ndarray) :
  let done :=
    Engine.audio_callback voice_is_finished voice_generate frames waveform
      filter_cutoff detune master_volume ([], outdata) in
  fst (snd done) = []
  /\ forall i, cell (snd (snd done)) i 0 = 0 /\ cell (snd (snd done)) i 1 = 0.
Proof.
  intros done. subst done.
  unfold Engine.audio_callback, try_except_Exception.
  destruct (Engine.render _ _ _ _ _ _ _ ([], outdata))
    as [[[] | e] [voices' out']] eqn:Hbody; cbn [fst snd].
  - apply render_returns_output in Hbody.
    destruct Hbody as (audio & rm & voices1 & Hmix & Hrm & _ & _ & Hcell).
    cbn in Hmix. injection Hmix as <- <- <-.
    cbn in Hrm. unfold ret in Hrm. injection Hrm as <-.
    split; [reflexivity |].
    assert (Hzero : forall i,
               column_value
                 (map soft_limit
                    (map (fun x => x * master_volume) (repeat 0 frames)))
                 outdata i = 0).
    { intros i. apply (@column_value_in_range (fun x => x = 0));
        [reflexivity |].
      apply Forall_forall. intros y Hy.
      apply in_map_iff in Hy. destruct Hy as (x & <- & Hx).
      apply in_map_iff in Hx. destruct Hx as (z & <- & Hz).
      apply repeat_spec in Hz. subst z.
      rewrite Rmult_0_l. apply soft_limit_0. }
    intros i. rewrite !Hcell. cbn. split; apply Hzero.
  - assert (Hvoices : voices' = []).
    { unfold Engine.render, bind, Engine.on_fst, Engine.on_snd in Hbody.
      cbn in Hbody.
      repeat match type of Hbody with
             | context [set_column ?j ?a ?o] =>
                 destruct (set_column j a o) as [[[] | ?] ?]; cbn in Hbody
             end;
        injection Hbody as _ <- _; reflexivity. }
    rewrite (@render_raises _ _ _ generate_raises_Exception _ _ _ _ _ _ _ _
               Hbody).
    cbn. split; [exact Hvoices |]. intros i. split; reflexivity.
Qed.
End Output.

Lemma poly_generate_raises_Exception :
  forall frames waveform filter_cutoff detune voice e voice',
    PolyphonicVoice.generate frames waveform filter_cutoff detune voice
    = (Raise e, voice') ->
    isinstance_Exception e = true.
Proof.
  intros frames waveform filter_cutoff detune voice e voice' Hg.
  rewrite (poly_generate_raises _ _ _ _ _ Hg). reflexivity.
Qed.

Lemma mpk_generate_raises_Exception :
  forall frames waveform filter_cutoff detune voice e voice',
    MPKVoice.generate frames waveform filter_cutoff detune voice
    = (Raise e, voice') ->
    isinstance_Exception e = true.
Proof.
  intros frames waveform filter_cutoff detune voice e voice' Hg.
  rewrite (mpk_generate_raises _ _ _ _ _ Hg). reflexivity.
Qed.

(** X16. Whatever the synth holds and whatever buffer it is handed, after
    [audio_callback] every sample in channel 0 has a magnitude below 1.2 and
    channel 1 carries the same sample: the soft limiter bounds the mix of any
    number of voices at any master volume, and the output is mono on both
    channels.  Holds for both synths. *)
Theorem audio_callback_output_below_limit_and_mono :
  (forall (self : FourPotMIDISynth.t) (outdata : ndarray) (frames i : nat),
      let outdata' :=
        snd (snd (FourPotMIDISynth.audio_callback frames (self, outdata))) in
      Rabs (cell outdata' i 0) < 1.2
      /\ cell outdata' i 1 = cell outdata' i 0)
  /\ (forall (self : MPKOnlySynth.t) (outdata : ndarray) (frames i : nat),
         let outdata' :=
           snd (snd (MPKOnlySynth.audio_callback frames (self, outdata))) in
         Rabs (cell outdata' i 0) < 1.2
         /\ cell outdata' i 1 = cell outdata' i 0).
Proof.
  split; intros self outdata frames i outdata'; subst outdata'.
  - unfold FourPotMIDISynth.audio_callback.
    pose proof (@audio_callback_output _ PolyphonicVoice.is_finished
                  PolyphonicVoice.generate poly_generate_raises_Exception
                  frames (FourPotMIDISynth.waveform self)
                  (FourPotMIDISynth.filter_cutoff self)
                  (FourPotMIDISynth.detune self)
                  (FourPotMIDISynth.master_volume self)
                  (FourPotMIDISynth.voices self) outdata) as H.
    cbv zeta in H.
    destruct (Engine.audio_callback _ _ _ _ _ _ _ _) as [r st'].
    apply H.
  - unfold MPKOnlySynth.audio_callback.
    pose proof (@audio_callback_output _ MPKVoice.is_finished
                  MPKVoice.generate mpk_generate_raises_Exception
                  frames (MPKOnlySynth.waveform self)
                  (MPKOnlySynth.filter_cutoff self)
                  (MPKOnlySynth.detune self)
                  (MPKOnlySynth.master_volume self)
                  (MPKOnlySynth.voices self) outdata) as H.
    cbv zeta in H.
    destruct (Engine.audio_callback _ _ _ _ _ _ _ _) as [r st'].
    apply H.
Qed.

(** X17. With no voice in the pool, [audio_callback] writes silence: every
    sample of channels 0 and 1 is 0 afterwards, for any buffer, block length
    and parameter setting, and the pool stays empty.  Holds for both
    synths. *)
Theorem audio_callback_empty_pool_is_silent :
  (forall (self : FourPotMIDISynth.t) (outdata : ndarray) (frames : nat),
      FourPotMIDISynth.voices self = [] ->
      let done := FourPotMIDISynth.audio_callback frames (self, outdata) in
      FourPotMIDISynth.voices (fst (snd done)) = []
      /\ forall i, cell (snd (snd done)) i 0 = 0
                   /\ cell (snd (snd done)) i 1 = 0)
  /\ (forall (self : MPKOnlySynth.t) (outdata : ndarray) (frames : nat),
         MPKOnlySynth.voices self = [] ->
         let done := MPKOnlySynth.audio_callback frames (self, outdata) in
         MPKOnlySynth.voices (fst (snd done)) = []
         /\ forall i, cell (snd (snd done)) i 0 = 0
                      /\ cell (snd (snd done)) i 1 = 0).
Proof.
  split; intros self outdata frames Hempty done; subst done.
  - unfold FourPotMIDISynth.audio_callback. rewrite Hempty.
    pose proof (@audio_callback_empty_pool _ PolyphonicVoice.is_finished
                  PolyphonicVoice.generate poly_generate_raises_Exception
                  frames (FourPotMIDISynth.waveform self)
                  (FourPotMIDISynth.filter_cutoff self)
                  (FourPotMIDISynth.detune self)
                  (FourPotMIDISynth.master_volume self) outdata) as H.
    cbv zeta in H.
    destruct (Engine.audio_callback _ _ _ _ _ _ _ _) as [r st'].
    exact H.
  - unfold MPKOnlySynth.audio_callback. rewrite Hempty.
    pose proof (@audio_callback_empty_pool _ MPKVoice.is_finished
                  MPKVoice.generate mpk_generate_raises_Exception
                  frames (MPKOnlySynth.waveform self)
                  (MPKOnlySynth.filter_cutoff self)
                  (MPKOnlySynth.detune self)
                  (MPKOnlySynth.master_volume self) outdata) as H.
    cbv zeta in H.
    destruct (Engine.audio_callback _ _ _ _ _ _ _ _) as [r st'].
    exact H.
Qed.

Lemma fresh_synth_renders_silence :
  let done :=
    FourPotMIDISynth.audio_callback 4
      (FourPotMIDISynth.init 44100 512, stale_outdata) in
  FourPotMIDISynth.voices (fst (snd done)) = []
  /\ forall i, cell (snd (snd done)) i 0 = 0 /\ cell (snd (snd done)) i 1 = 0.
Proof.
  apply (proj1 audio_callback_empty_pool_is_silent
           (FourPotMIDISynth.init 44100 512) stale_outdata 4%nat eq_refl).
Defined.

(** ** The pool after a block *)

Section Pruning.
Variable V : Type.
Variable voice_is_finished : V -> bool.
Variable voice_generate : nat -> Z -> R -> R -> M V (list R).
Variables (frames : nat) (waveform : Z) (filter_cutoff detune : R).

Local Abbreviation mix_voices :=
  (Engine.mix_voices voice_is_finished voice_generate frames waveform
     filter_cutoff detune).
Local Abbreviation mix_entry :=
  (mix_entry voice_is_finished voice_generate frames waveform filter_cutoff
     detune).
Local Abbreviation rendered_pool :=
  (rendered_pool voice_is_finished voice_generate frames waveform
     filter_cutoff detune).
Local Abbreviation voice_blocks :=
  (voice_blocks voice_is_finished voice_generate frames waveform
     filter_cutoff detune).
Local Abbreviation renders_cleanly :=
  (renders_cleanly voice_is_finished voice_generate frames waveform
     filter_cutoff detune).
Local Abbreviation finished_notes := (finished_notes voice_is_finished).

(** The mixing loop as a whole, when no voice faults *)
Lemma mix_voices_clean (items : dict V) :
  renders_cleanly items ->
  forall (audio : list R) (voices_to_remove : list Z),
    mix_voices audio voices_to_remove items
    = (Return (fold_left np_add (voice_blocks items) audio,
               voices_to_remove ++ finished_notes items),
       map mix_entry items).
Proof.
  induction items as [| [note voice] rest IH];
    intros Hclean audio voices_to_remove.
  - cbn. rewrite app_nil_r. reflexivity.
  - inversion Hclean as [| ? ? Hhead Hrest]; subst. cbn in Hhead.
    cbn [Engine.mix_voices].
    unfold voice_blocks, sounding, finished_notes, mix_entry, render_entry.
    cbn [filter map snd fst].
    destruct (voice_is_finished voice) eqn:Hfin;
      cbn [negb filter map fst snd dict_keys].
    + rewrite (IH Hrest).
      unfold voice_blocks, sounding, finished_notes, dict_keys.
      cbn [map fst].
      rewrite <- app_assoc. reflexivity.
    + destruct (Hhead eq_refl) as (block & Hblock).
      destruct (voice_generate frames waveform filter_cutoff detune voice)
        as [r voice'] eqn:Hgen.
      cbn in Hblock. subst r.
      rewrite (IH Hrest). cbn [map fold_left fst snd].
      reflexivity.
Qed.

Lemma remove_voices_past (k : Z) (x : V) (notes : list Z) :
  ~ In k notes ->
  forall d : dict V,
    Engine.remove_voices notes ((k, x) :: d)
    = (fst (Engine.remove_voices notes d),
       (k, x) :: snd (Engine.remove_voices notes d)).
Proof.
  induction notes as [| n rest IH]; intros Hnotin d; cbn.
  - reflexivity.
  - unfold bind, dict_del. cbn [dict_mem existsb fst dict_remove].
    assert (Hne : (k =? n)%Z = false).
    { apply Z.eqb_neq. intros ->. apply Hnotin. left. reflexivity. }
    rewrite Hne. cbn [orb].
    fold (dict_mem n d).
    destruct (dict_mem n d).
    + apply IH. intros Hin. apply Hnotin. right. exact Hin.
    + reflexivity.
Qed.

Lemma finished_notes_incl (items : dict V) :
  forall k, In k (finished_notes items) -> In k (dict_keys items).
Proof.
  intros k Hin. unfold finished_notes, dict_keys in *.
  apply in_map_iff in Hin. destruct Hin as (kv & Hk & Hkv).
  apply filter_In in Hkv. apply in_map_iff. exists kv. tauto.
Qed.

(** Pruning after a clean mix leaves the sounding voices, rendered. *)
Lemma remove_finished_notes (items : dict V) :
  NoDup (dict_keys items) ->
  Engine.remove_voices (finished_notes items) (map mix_entry items)
  = (Return tt, rendered_pool items).
Proof.
  induction items as [| [note voice] rest IH]; intros Hnd.
  - reflexivity.
  - inversion Hnd as [| ? ? Hnotin Hnd']; subst.
    specialize (IH Hnd').
    pose proof (@finished_notes_incl rest) as Hincl.
    unfold finished_notes, rendered_pool, sounding, mix_entry, render_entry,
      dict_keys in *.
    cbn [filter map snd fst].
    destruct (voice_is_finished voice) eqn:Hfin;
      cbn [negb filter map fst snd].
    + cbn [Engine.remove_voices]. unfold bind, dict_del.
      cbn [dict_mem existsb fst dict_remove].
      rewrite Z.eqb_refl. cbn [orb].
      exact IH.
    + rewrite remove_voices_past.
      * rewrite IH. reflexivity.
      * intros Hin. apply Hnotin. apply Hincl. exact Hin.
Qed.

(** The pool after the callback, whatever becomes of the output buffer *)
Lemma audio_callback_pool (master_volume : R) (voices : dict V)
      (outdata : ndarray) :
  NoDup (dict_keys voices) ->
  renders_cleanly voices ->
  fst (snd (Engine.audio_callback voice_is_finished voice_generate frames
              waveform filter_cutoff detune master_volume (voices, outdata)))
  = rendered_pool voices.
Proof.
  intros Hnd Hclean.
  unfold Engine.audio_callback, try_except_Exception, Engine.render, bind,
    Engine.on_fst, Engine.on_snd.
  cbn [fst snd].
  rewrite (@mix_voices_clean voices Hclean). cbn [fst snd app].
  rewrite (@remove_finished_notes voices Hnd). cbn [fst snd].
  match goal with
  | |- context [set_column 0 ?a outdata] =>
      destruct (set_column 0 a outdata) as [[[] | e0] out0]; cbn [fst snd];
      [destruct (set_column 1 a out0) as [[[] | e1] out1]; cbn [fst snd] |]
  end.
  - reflexivity.
  - destruct (isinstance_Exception e1); reflexivity.
  - destruct (isinstance_Exception e0); reflexivity.
Qed.
End Pruning.

Lemma filter_loop_length (alpha : R) (audio : list R) :
  forall state : R,
    length (fst (PolyphonicVoice.filter_loop alpha audio state))
    = length audio.
Proof.
  induction audio as [| x rest IH]; intros state; cbn.
  - reflexivity.
  - specialize (IH (alpha * x + (1 - alpha) * state)).
    destruct (PolyphonicVoice.filter_loop alpha rest _) as [ys final].
    cbn in *. congruence.
Qed.

Lemma poly_generate_returns (frames : nat) (waveform : Z)
      (filter_cutoff detune : R) (self : PolyphonicVoice.t) :
  PolyphonicVoice.sample_rate self <> 0%Z ->
  exists block,
    fst (PolyphonicVoice.generate frames waveform filter_cutoff detune self)
    = Return block
    /\ length block = frames.
Proof.
  intros Hsr.
  unfold PolyphonicVoice.generate.
  destruct (PolyphonicVoice.is_finished self).
  { eexists. split; [reflexivity | apply repeat_length]. }
  replace (PolyphonicVoice.sample_rate self =? 0)%Z with false
    by (symmetry; apply Z.eqb_neq; exact Hsr).
  destruct (@poly_oscillator_range self frames waveform detune) as [Hlen _].
  destruct (PolyphonicVoice.filter_applies waveform filter_cutoff).
  - pose proof (@filter_loop_length (Rmin 0.5 (filter_cutoff / 6000))
                  (PolyphonicVoice.oscillator self frames waveform detune)
                  (PolyphonicVoice.filter_state self)) as Hflen.
    destruct (PolyphonicVoice.filter_loop _ _ _) as [ys state].
    cbn [fst] in Hflen.
    match goal with
    | |- context [PolyphonicVoice.update_envelope frames ?v] =>
        destruct (@poly_update_returns frames v Hsr)
          as (envelope & self' & Hup & _); rewrite Hup
    end.
    eexists. split; [reflexivity |]. rewrite length_map. congruence.
  - match goal with
    | |- context [PolyphonicVoice.update_envelope frames ?v] =>
        destruct (@poly_update_returns frames v Hsr)
          as (envelope & self' & Hup & _); rewrite Hup
    end.
    eexists. split; [reflexivity |]. rewrite length_map. exact Hlen.
Qed.

Lemma mpk_generate_returns (frames : nat) (waveform : Z)
      (filter_cutoff detune : R) (self : MPKVoice.t) :
  MPKVoice.sample_rate self <> 0%Z ->
  exists block,
    fst (MPKVoice.generate frames waveform filter_cutoff detune self)
    = Return block
    /\ length block = frames.
Proof.
  intros Hsr.
  rewrite <- (to_mpk_of_mpk self), generate_lockstep. unfold map_self.
  cbn [fst]. apply poly_generate_returns.
  destruct self; exact Hsr.
Qed.

Section Lookup.
Variable V : Type.
Variable voice_is_finished : V -> bool.
Variable voice_generate : nat -> Z -> R -> R -> M V (list R).
Variables (frames : nat) (waveform : Z) (filter_cutoff detune : R).

Lemma rendered_pool_keys_incl (voices : dict V) :
  forall k,
    In k (dict_keys (rendered_pool voice_is_finished voice_generate frames
                       waveform filter_cutoff detune voices)) ->
    In k (dict_keys voices).
Proof.
  intros k. unfold rendered_pool, sounding, dict_keys.
  rewrite map_map. cbn [render_entry fst].
  intros Hin. apply in_map_iff in Hin. destruct Hin as (kv & Hk & Hkv).
  apply filter_In in Hkv. apply in_map_iff. exists kv. tauto.
Qed.

(** A note after the block: gone if its voice was finished, otherwise under
    the rendered voice *)
Lemma rendered_pool_get (voices : dict V) (k : Z) :
  NoDup (dict_keys voices) ->
  dict_get k (rendered_pool voice_is_finished voice_generate frames waveform
                filter_cutoff detune voices)
  = match dict_get k voices with
    | Some voice =>
        if voice_is_finished voice then None
        else Some (snd (voice_generate frames waveform filter_cutoff detune
                          voice))
    | None => None
    end.
Proof.
  induction voices as [| [k0 v0] rest IH]; intros Hnd.
  - reflexivity.
  - inversion Hnd as [| ? ? Hnotin Hnd']; subst.
    specialize (IH Hnd').
    pose proof (@rendered_pool_keys_incl rest) as Hincl.
    unfold rendered_pool, sounding in *.
    cbn [filter dict_get snd].
    destruct (k0 =? k)%Z eqn:Hk.
    + apply Z.eqb_eq in Hk. subst k0.
      destruct (voice_is_finished v0) eqn:Hfin; cbn [negb map].
      * apply dict_get_None. apply dict_mem_false.
        intros Hin. apply Hnotin. apply Hincl. exact Hin.
      * unfold render_entry at 1. cbn [dict_get fst snd].
        rewrite Z.eqb_refl. reflexivity.
    + destruct (voice_is_finished v0); cbn [negb map].
      * exact IH.
      * unfold render_entry at 1. cbn [dict_get fst snd].
        rewrite Hk. exact IH.
Qed.
End Lookup.

Lemma poly_pool_renders_cleanly (frames : nat) (waveform : Z)
      (filter_cutoff detune : R) (voices : dict PolyphonicVoice.t) :
  Forall (fun kv => PolyphonicVoice.sample_rate (snd kv) <> 0%Z) voices ->
  renders_cleanly PolyphonicVoice.is_finished PolyphonicVoice.generate frames
    waveform filter_cutoff detune voices.
Proof.
  unfold renders_cleanly. intros Hall.
  eapply Forall_impl; [| exact Hall].
  intros kv Hsr _.
  destruct (@poly_generate_returns frames waveform filter_cutoff detune
              (snd kv) Hsr) as (block & Hblock & _).
  exists block. exact Hblock.
Qed.

Lemma mpk_pool_renders_cleanly (frames : nat) (waveform : Z)
      (filter_cutoff detune : R) (voices : dict MPKVoice.t) :
  Forall (fun kv => MPKVoice.sample_rate (snd kv) <> 0%Z) voices ->
  renders_cleanly MPKVoice.is_finished MPKVoice.generate frames
    waveform filter_cutoff detune voices.
Proof.
  unfold renders_cleanly. intros Hall.
  eapply Forall_impl; [| exact Hall].
  intros kv Hsr _.
  destruct (@mpk_generate_returns frames waveform filter_cutoff detune
              (snd kv) Hsr) as (block & Hblock & _).
  exists block. exact Hblock.
Qed.

(** X18. When the pool has one entry per note and no voice has sample rate
    0, [audio_callback] leaves exactly the voices that were not finished
    when the block started, each rendered once and in their former order: a
    voice finished at the start is removed without being rendered, a voice
    that finishes during the block stays until the next callback, and no
    other entry appears.  This holds whatever the output buffer is, also
    when writing it fails.  Holds for both synths. *)
Theorem audio_callback_prunes_finished_voices :
  (forall (self : FourPotMIDISynth.t) (outdata : ndarray) (frames : nat),
      NoDup (dict_keys (FourPotMIDISynth.voices self)) ->
      Forall (fun kv => PolyphonicVoice.sample_rate (snd kv) <> 0%Z)
        (FourPotMIDISynth.voices self) ->
      let render voice :=
        snd (PolyphonicVoice.generate frames (FourPotMIDISynth.waveform self)
               (FourPotMIDISynth.filter_cutoff self)
               (FourPotMIDISynth.detune self) voice) in
      let after :=
        FourPotMIDISynth.voices
          (fst (snd (FourPotMIDISynth.audio_callback frames
                       (self, outdata)))) in
      after
      = map (fun kv => (fst kv, render (snd kv)))
          (filter (fun kv => negb (PolyphonicVoice.is_finished (snd kv)))
             (FourPotMIDISynth.voices self))
      /\ forall k,
          dict_get k after
          = match dict_get k (FourPotMIDISynth.voices self) with
            | Some voice =>
                if PolyphonicVoice.is_finished voice then None
                else Some (render voice)
            | None => None
            end)
  /\ (forall (self : MPKOnlySynth.t) (outdata : ndarray) (frames : nat),
         NoDup (dict_keys (MPKOnlySynth.voices self)) ->
         Forall (fun kv => MPKVoice.sample_rate (snd kv) <> 0%Z)
           (MPKOnlySynth.voices self) ->
         let render voice :=
           snd (MPKVoice.generate frames (MPKOnlySynth.waveform self)
                  (MPKOnlySynth.filter_cutoff self)
                  (MPKOnlySynth.detune self) voice) in
         let after :=
           MPKOnlySynth.voices
             (fst (snd (MPKOnlySynth.audio_callback frames
                          (self, outdata)))) in
         after
         = map (fun kv => (fst kv, render (snd kv)))
             (filter (fun kv => negb (MPKVoice.is_finished (snd kv)))
                (MPKOnlySynth.voices self))
         /\ forall k,
             dict_get k after
             = match dict_get k (MPKOnlySynth.voices self) with
               | Some voice =>
                   if MPKVoice.is_finished voice then None
                   else Some (render voice)
               | None => None
               end).
Proof.
  split; intros self outdata frames Hnd Hsr render after.
  - assert (Hafter :
      after
      = rendered_pool PolyphonicVoice.is_finished PolyphonicVoice.generate
          frames (FourPotMIDISynth.waveform self)
          (FourPotMIDISynth.filter_cutoff self)
          (FourPotMIDISynth.detune self) (FourPotMIDISynth.voices self)).
    { subst after. unfold FourPotMIDISynth.audio_callback.
      pose proof (@audio_callback_pool _ PolyphonicVoice.is_finished
                    PolyphonicVoice.generate frames
                    (FourPotMIDISynth.waveform self)
                    (FourPotMIDISynth.filter_cutoff self)
                    (FourPotMIDISynth.detune self)
                    (FourPotMIDISynth.master_volume self)
                    (FourPotMIDISynth.voices self) outdata Hnd
                    (poly_pool_renders_cleanly _ _ _ _ Hsr)) as H.
      destruct (Engine.audio_callback _ _ _ _ _ _ _ _) as [r st'].
      exact H. }
    split; [exact Hafter |].
    intros k. rewrite Hafter. apply rendered_pool_get. exact Hnd.
  - assert (Hafter :
      after
      = rendered_pool MPKVoice.is_finished MPKVoice.generate
          frames (MPKOnlySynth.waveform self)
          (MPKOnlySynth.filter_cutoff self)
          (MPKOnlySynth.detune self) (MPKOnlySynth.voices self)).
    { subst after. unfold MPKOnlySynth.audio_callback.
      pose proof (@audio_callback_pool _ MPKVoice.is_finished
                    MPKVoice.generate frames
                    (MPKOnlySynth.waveform self)
                    (MPKOnlySynth.filter_cutoff self)
                    (MPKOnlySynth.detune self)
                    (MPKOnlySynth.master_volume self)
                    (MPKOnlySynth.voices self) outdata Hnd
                    (mpk_pool_renders_cleanly _ _ _ _ Hsr)) as H.
      destruct (Engine.audio_callback _ _ _ _ _ _ _ _) as [r st'].
      exact H. }
    split; [exact Hafter |].
    intros k. rewrite Hafter. apply rendered_pool_get. exact Hnd.
Qed.

Lemma sounding_note_survives_a_block :
  let self := snd (FourPotMIDISynth.note_on 60 100
                     (FourPotMIDISynth.init 44100 512)) in
  let after :=
    FourPotMIDISynth.voices
      (fst (snd (FourPotMIDISynth.audio_callback 4 (self, stale_outdata)))) in
  dict_keys after = [60%Z].
Proof.
  intros self after.
  destruct (proj1 audio_callback_prunes_finished_voices self stale_outdata
              4%nat) as [Hafter _].
  - repeat constructor. intros [].
  - repeat constructor. cbn. discriminate.
  - fold after in Hafter. rewrite Hafter. reflexivity.
Defined.

(** ** The mix *)

Lemma np_add_length (a b : list R) :
  length a = length b -> length (np_add a b) = length a.
Proof.
  intros H. unfold np_add. rewrite length_map, length_combine. lia.
Qed.

Lemma np_add_nth (a : list R) :
  forall (b : list R) (i : nat),
    length a = length b ->
    nth i (np_add a b) 0 = nth i a 0 + nth i b 0.
Proof.
  unfold np_add.
  induction a as [| x a IH]; intros [| y b] i Hlen; cbn in Hlen;
    try discriminate.
  - destruct i; cbn; ring.
  - destruct i as [| i]; cbn; [reflexivity |].
    apply IH. lia.
Qed.

Lemma fold_np_add_length (frames : nat) (blocks : list (list R)) :
  Forall (fun block => length block = frames) blocks ->
  forall audio : list R,
    length audio = frames ->
    length (fold_left np_add blocks audio) = frames.
Proof.
  induction 1 as [| block rest Hb _ IH]; intros audio Ha; cbn.
  - exact Ha.
  - apply IH. rewrite np_add_length; congruence.
Qed.

Lemma fold_plus_shift (l : list R) (a : R) :
  fold_left Rplus l a = a + fold_left Rplus l 0.
Proof.
  revert a. induction l as [| x rest IH]; intros a; cbn.
  - ring.
  - rewrite (IH (a + x)), (IH (0 + x)). ring.
Qed.

Lemma fold_np_add_nth (frames : nat) (blocks : list (list R)) (i : nat) :
  Forall (fun block => length block = frames) blocks ->
  forall audio : list R,
    length audio = frames ->
    nth i (fold_left np_add blocks audio) 0
    = nth i audio 0 + mixed_sample blocks i.
Proof.
  unfold mixed_sample.
  induction 1 as [| block rest Hb _ IH]; intros audio Ha; cbn.
  - ring.
  - rewrite IH by (rewrite np_add_length; congruence).
    rewrite np_add_nth by congruence.
    rewrite (fold_plus_shift _ (0 + nth i block 0)). ring.
Qed.

Lemma nth_repeat_0 (n i : nat) : nth i (repeat 0 n) 0 = 0.
Proof.
  revert i. induction n as [| n IH]; intros [| i]; cbn; auto.
Qed.

Lemma nth_map_fixing_0 (g : R -> R) (l : list R) (i : nat) :
  g 0 = 0 -> nth i (map g l) 0 = g (nth i l 0).
Proof.
  intros Hg. revert i.
  induction l as [| x rest IH]; intros [| i]; cbn; auto.
Qed.

Lemma set_column_ok (j : nat) (audio : list R) (out : ndarray) :
  (j < ncols out)%nat ->
  length audio = nrows out ->
  set_column j audio out
  = (Return tt,
     mk_ndarray (nrows out) (ncols out)
       (fun i c => if (c =? j)%nat then nth i audio 0 else cell out i c)).
Proof.
  intros Hj Hlen. unfold set_column.
  replace (ncols out <=? j)%nat with false
    by (symmetry; apply Nat.leb_gt; exact Hj).
  replace (length audio =? nrows out)%nat with true
    by (symmetry; apply Nat.eqb_eq; exact Hlen).
  reflexivity.
Qed.

Section Mixing.
Variable V : Type.
Variable voice_is_finished : V -> bool.
Variable voice_generate : nat -> Z -> R -> R -> M V (list R).
Variables (frames : nat) (waveform : Z) (filter_cutoff detune : R).

(** A block that goes through: no fault, the pool pruned, the limited mix in
    channels 0 and 1, the other channels as they were. *)
Lemma render_delivers (master_volume : R) (voices : dict V)
      (outdata : ndarray) :
  NoDup (dict_keys voices) ->
  renders_cleanly voice_is_finished voice_generate frames waveform
    filter_cutoff detune voices ->
  Forall (fun block => length block = frames)
    (voice_blocks voice_is_finished voice_generate frames waveform
       filter_cutoff detune voices) ->
  (2 <= ncols outdata)%nat ->
  nrows outdata = frames ->
  exists outdata',
    Engine.render voice_is_finished voice_generate frames waveform
      filter_cutoff detune master_volume (voices, outdata)
    = (Return tt,
       (rendered_pool voice_is_finished voice_generate frames waveform
          filter_cutoff detune voices, outdata'))
    /\ forall i c,
        cell outdata' i c
        = if ((c =? 0) || (c =? 1))%nat then
            soft_limit
              (mixed_sample
                 (voice_blocks voice_is_finished voice_generate frames
                    waveform filter_cutoff detune voices) i
               * master_volume)
          else cell outdata i c.
Proof.
  intros Hnd Hclean Hlen Hcols Hrows.
  unfold Engine.render, bind, Engine.on_fst, Engine.on_snd. cbn [fst snd].
  rewrite (@mix_voices_clean _ voice_is_finished voice_generate frames
             waveform filter_cutoff detune voices Hclean).
  cbn [fst snd app].
  rewrite (@remove_finished_notes _ voice_is_finished voice_generate frames
             waveform filter_cutoff detune voices Hnd).
  cbn [fst snd].
  change (fun x : R => tanh (x * 0.7) * 1.2) with soft_limit.
  set (blocks := voice_blocks voice_is_finished voice_generate frames
                   waveform filter_cutoff detune voices) in *.
  set (mix := fold_left np_add blocks (repeat 0 frames)).
  assert (Hmixlen : length mix = frames).
  { subst mix. apply fold_np_add_length; [exact Hlen | apply repeat_length]. }
  set (lim := map soft_limit (map (fun x => x * master_volume) mix)).
  assert (Hlimlen : length lim = nrows outdata).
  { subst lim. rewrite !length_map. congruence. }
  rewrite set_column_ok by (try lia; exact Hlimlen). cbn [fst snd].
  rewrite set_column_ok by (cbn; try lia; exact Hlimlen). cbn [fst snd].
  eexists. split; [reflexivity |].
  intros i c. cbn [cell].
  assert (Hnth : nth i lim 0
                 = soft_limit (mixed_sample blocks i * master_volume)).
  { subst lim. rewrite map_map.
    rewrite (nth_map_fixing_0 (fun x => soft_limit (x * master_volume)))
      by (rewrite Rmult_0_l; apply soft_limit_0).
    subst mix.
    rewrite (fold_np_add_nth i Hlen) by apply repeat_length.
    rewrite nth_repeat_0, Rplus_0_l. reflexivity. }
  destruct (c =? 1)%nat eqn:E1.
  - rewrite orb_true_r. exact Hnth.
  - rewrite orb_false_r. destruct (c =? 0)%nat; [exact Hnth | reflexivity].
Qed.
End Mixing.

Lemma poly_voice_blocks_length (frames : nat) (waveform : Z)
      (filter_cutoff detune : R) (voices : dict PolyphonicVoice.t) :
  Forall (fun kv => PolyphonicVoice.sample_rate (snd kv) <> 0%Z) voices ->
  Forall (fun block => length block = frames)
    (voice_blocks PolyphonicVoice.is_finished PolyphonicVoice.generate frames
       waveform filter_cutoff detune voices).
Proof.
  intros Hall. unfold voice_blocks, sounding.
  apply Forall_forall. intros block Hin.
  apply in_map_iff in Hin. destruct Hin as (kv & <- & Hkv).
  apply filter_In in Hkv. destruct Hkv as [Hkv _].
  rewrite Forall_forall in Hall. specialize (Hall kv Hkv).
  destruct (@poly_generate_returns frames waveform filter_cutoff detune
              (snd kv) Hall) as (b & Hb & Hlen).
  rewrite Hb. exact Hlen.
Qed.

Lemma mpk_voice_blocks_length (frames : nat) (waveform : Z)
      (filter_cutoff detune : R) (voices : dict MPKVoice.t) :
  Forall (fun kv => MPKVoice.sample_rate (snd kv) <> 0%Z) voices ->
  Forall (fun block => length block = frames)
    (voice_blocks MPKVoice.is_finished MPKVoice.generate frames
       waveform filter_cutoff detune voices).
Proof.
  intros Hall. unfold voice_blocks, sounding.
  apply Forall_forall. intros block Hin.
  apply in_map_iff in Hin. destruct Hin as (kv & <- & Hkv).
  apply filter_In in Hkv. destruct Hkv as [Hkv _].
  rewrite Forall_forall in Hall. specialize (Hall kv Hkv).
  destruct (@mpk_generate_returns frames waveform filter_cutoff detune
              (snd kv) Hall) as (b & Hb & Hlen).
  rewrite Hb. exact Hlen.
Qed.

(** X19. When the pool has one entry per note, no voice has sample rate 0
    and the buffer has at least two channels and as many rows as the block
    has frames, [audio_callback] goes through without a fault and writes, in
    row i of channels 0 and 1, tanh(0.7 * master_volume * s) * 1.2 where s
    is the sum over the sounding voices of sample i of the block each one
    generates; the other channels keep what they held.  Holds for both
    synths. *)
Theorem audio_callback_writes_limited_sum_of_voices :
  (forall (self : FourPotMIDISynth.t) (outdata : ndarray) (frames : nat),
      NoDup (dict_keys (FourPotMIDISynth.voices self)) ->
      Forall (fun kv => PolyphonicVoice.sample_rate (snd kv) <> 0%Z)
        (FourPotMIDISynth.voices self) ->
      (2 <= ncols outdata)%nat ->
      nrows outdata = frames ->
      let blocks :=
        voice_blocks PolyphonicVoice.is_finished PolyphonicVoice.generate
          frames (FourPotMIDISynth.waveform self)
          (FourPotMIDISynth.filter_cutoff self)
          (FourPotMIDISynth.detune self) (FourPotMIDISynth.voices self) in
      let outdata' :=
        snd (snd (FourPotMIDISynth.audio_callback frames (self, outdata))) in
      fst (fourpot_render frames self outdata) = Return tt
      /\ forall i,
          cell outdata' i 0
          = tanh (mixed_sample blocks i * FourPotMIDISynth.master_volume self
                  * 0.7) * 1.2
          /\ cell outdata' i 1 = cell outdata' i 0
          /\ forall c, (2 <= c)%nat -> cell outdata' i c = cell outdata i c)
  /\ (forall (self : MPKOnlySynth.t) (outdata : ndarray) (frames : nat),
         NoDup (dict_keys (MPKOnlySynth.voices self)) ->
         Forall (fun kv => MPKVoice.sample_rate (snd kv) <> 0%Z)
           (MPKOnlySynth.voices self) ->
         (2 <= ncols outdata)%nat ->
         nrows outdata = frames ->
         let blocks :=
           voice_blocks MPKVoice.is_finished MPKVoice.generate
             frames (MPKOnlySynth.waveform self)
             (MPKOnlySynth.filter_cutoff self)
             (MPKOnlySynth.detune self) (MPKOnlySynth.voices self) in
         let outdata' :=
           snd (snd (MPKOnlySynth.audio_callback frames (self, outdata))) in
         fst (mpk_render frames self outdata) = Return tt
         /\ forall i,
             cell outdata' i 0
             = tanh (mixed_sample blocks i * MPKOnlySynth.master_volume self
                     * 0.7) * 1.2
             /\ cell outdata' i 1 = cell outdata' i 0
             /\ forall c, (2 <= c)%nat ->
                          cell outdata' i c = cell outdata i c).
Proof.
  split; intros self outdata frames Hnd Hsr Hcols Hrows blocks outdata'.
  - destruct (@render_delivers _ PolyphonicVoice.is_finished
                PolyphonicVoice.generate frames
                (FourPotMIDISynth.waveform self)
                (FourPotMIDISynth.filter_cutoff self)
                (FourPotMIDISynth.detune self)
                (FourPotMIDISynth.master_volume self)
                (FourPotMIDISynth.voices self) outdata Hnd
                (poly_pool_renders_cleanly _ _ _ _ Hsr)
                (poly_voice_blocks_length _ _ _ _ Hsr) Hcols Hrows)
      as (out1 & Hrender & Hcell).
    fold blocks in Hcell.
    assert (Hout : outdata' = out1).
    { subst outdata'.
      unfold FourPotMIDISynth.audio_callback, Engine.audio_callback,
        try_except_Exception.
      rewrite Hrender. reflexivity. }
    split; [unfold fourpot_render; rewrite Hrender; reflexivity |].
    intros i. rewrite Hout, !Hcell. cbn [Nat.eqb orb].
    split; [reflexivity |]. split; [reflexivity |].
    intros c Hc. rewrite Hcell.
    destruct c as [| [| c]]; [lia | lia | reflexivity].
  - destruct (@render_delivers _ MPKVoice.is_finished
                MPKVoice.generate frames
                (MPKOnlySynth.waveform self)
                (MPKOnlySynth.filter_cutoff self)
                (MPKOnlySynth.detune self)
                (MPKOnlySynth.master_volume self)
                (MPKOnlySynth.voices self) outdata Hnd
                (mpk_pool_renders_cleanly _ _ _ _ Hsr)
                (mpk_voice_blocks_length _ _ _ _ Hsr) Hcols Hrows)
      as (out1 & Hrender & Hcell).
    fold blocks in Hcell.
    assert (Hout : outdata' = out1).
    { subst outdata'.
      unfold MPKOnlySynth.audio_callback, Engine.audio_callback,
        try_except_Exception.
      rewrite Hrender. reflexivity. }
    split; [unfold mpk_render; rewrite Hrender; reflexivity |].
    intros i. rewrite Hout, !Hcell. cbn [Nat.eqb orb].
    split; [reflexivity |]. split; [reflexivity |].
    intros c Hc. rewrite Hcell.
    destruct c as [| [| c]]; [lia | lia | reflexivity].
Qed.

Lemma one_note_block_goes_through :
  let self := snd (FourPotMIDISynth.note_on 60 100
                     (FourPotMIDISynth.init 44100 512)) in
  fst (fourpot_render 4 self stale_outdata) = Return tt.
Proof.
  intros self.
  destruct (proj1 audio_callback_writes_limited_sum_of_voices self
              stale_outdata 4%nat) as [Hret _].
  - repeat constructor. intros [].
  - repeat constructor. cbn. discriminate.
  - cbn. lia.
  - reflexivity.
  - exact Hret.
Defined.

(** ** States a synth can be in *)

Section PoolForall.
Variable V : Type.
Variable P : Z * V -> Prop.
Variable voice_release : V -> V.
Variable voice_is_finished : V -> bool.
Variable voice_generate : nat -> Z -> R -> R -> M V (list R).

Lemma forall_dict_remove (k : Z) (d : dict V) :
  Forall P d -> Forall P (dict_remove k d).
Proof.
  induction 1 as [| [k0 v0] rest Hhead Hrest IH]; cbn.
  - constructor.
  - destruct (k0 =? k)%Z; [exact Hrest | constructor; assumption].
Qed.

Lemma forall_dict_set (k : Z) (v : V) (d : dict V) :
  Forall P d -> P (k, v) -> Forall P (dict_set k v d).
Proof.
  intros Hall Hnew.
  induction Hall as [| [k0 v0] rest Hhead Hrest IH]; cbn.
  - constructor; [exact Hnew | constructor].
  - destruct (k0 =? k)%Z; constructor; assumption.
Qed.

Lemma dict_get_In (k : Z) (v : V) (d : dict V) :
  dict_get k d = Some v -> In (k, v) d.
Proof.
  induction d as [| [k0 v0] rest IH]; cbn; [discriminate |].
  destruct (k0 =? k)%Z eqn:E.
  - intros H. injection H as <-. apply Z.eqb_eq in E. subst k0.
    left. reflexivity.
  - intros H. right. apply IH. exact H.
Qed.

Lemma note_on_forall (max_voices note : Z) (new_voice : V)
      (voices : dict V) :
  Forall P voices ->
  P (note, new_voice) ->
  Forall P (snd (Engine.note_on max_voices note new_voice voices)).
Proof.
  intros Hall Hnew.
  rewrite note_on_unfold. cbv zeta.
  set (voices1 := if dict_mem note voices then dict_remove note voices
                  else voices).
  assert (Hall1 : Forall P voices1).
  { subst voices1. destruct (dict_mem note voices);
      [apply forall_dict_remove |]; exact Hall. }
  destruct (Z.of_nat (length voices1) >=? max_voices)%Z.
  - destruct (py_min (dict_keys voices1)) as [m | e]; [| exact Hall1].
    destruct (dict_mem m voices1); [| exact Hall1].
    cbn [snd]. apply forall_dict_set; [| exact Hnew].
    apply forall_dict_remove. exact Hall1.
  - cbn [snd]. apply forall_dict_set; assumption.
Qed.

Lemma note_off_forall (note : Z) (voices : dict V) :
  (forall k v, P (k, v) -> P (k, voice_release v)) ->
  Forall P voices ->
  Forall P (snd (Engine.note_off voice_release note voices)).
Proof.
  intros Hrel Hall.
  unfold Engine.note_off, bind, get, put, ret, raise.
  destruct (dict_mem note voices); [| exact Hall].
  destruct (dict_get note voices) as [voice |] eqn:Hget; [| exact Hall].
  cbn [snd]. apply forall_dict_set; [exact Hall |].
  apply Hrel. rewrite Forall_forall in Hall.
  apply Hall. apply dict_get_In. exact Hget.
Qed.

Lemma mix_voices_forall (frames : nat) (waveform : Z)
      (filter_cutoff detune : R) (items : dict V) :
  (forall k v, P (k, v) ->
               P (k, snd (voice_generate frames waveform filter_cutoff detune
                            v))) ->
  Forall P items ->
  forall (audio : list R) (voices_to_remove : list Z),
    Forall P (snd (Engine.mix_voices voice_is_finished voice_generate frames
                     waveform filter_cutoff detune audio voices_to_remove
                     items)).
Proof.
  intros Hgen.
  induction 1 as [| [note voice] rest Hhead Hrest IH];
    intros audio voices_to_remove; cbn.
  - constructor.
  - destruct (voice_is_finished voice).
    + specialize (IH audio (voices_to_remove ++ [note])).
      destruct (Engine.mix_voices _ _ _ _ _ _ _ _ rest) as [r rest'].
      cbn in *. constructor; assumption.
    + pose proof (Hgen note voice Hhead) as Hhead'.
      destruct (voice_generate frames waveform filter_cutoff detune voice)
        as [[voice_audio | e] voice']; cbn in *.
      * specialize (IH (np_add audio voice_audio) voices_to_remove).
        destruct (Engine.mix_voices _ _ _ _ _ _ _ _ rest) as [r rest'].
        cbn in *. constructor; assumption.
      * constructor; assumption.
Qed.

Lemma remove_voices_forall (notes : list Z) :
  forall voices : dict V,
    Forall P voices -> Forall P (snd (Engine.remove_voices notes voices)).
Proof.
  induction notes as [| note rest IH]; intros voices Hall; cbn.
  - exact Hall.
  - unfold bind, dict_del.
    destruct (dict_mem note voices); [| exact Hall].
    apply IH, forall_dict_remove, Hall.
Qed.

Lemma audio_callback_forall (frames : nat) (waveform : Z)
      (filter_cutoff detune master_volume : R)
      (voices : dict V) (outdata : ndarray) :
  (forall k v, P (k, v) ->
               P (k, snd (voice_generate frames waveform filter_cutoff detune
                            v))) ->
  Forall P voices ->
  Forall P
    (fst (snd (Engine.audio_callback voice_is_finished voice_generate frames
                 waveform filter_cutoff detune master_volume
                 (voices, outdata)))).
Proof.
  intros Hgen Hall.
  assert (Hrender :
    Forall P
      (fst (snd (Engine.render voice_is_finished voice_generate frames
                   waveform filter_cutoff detune master_volume
                   (voices, outdata))))).
  { unfold Engine.render, bind, Engine.on_fst, Engine.on_snd.
    cbn [fst snd].
    pose proof (@mix_voices_forall frames waveform filter_cutoff detune
                  voices Hgen Hall (repeat 0 frames) []) as Hmix.
    destruct (Engine.mix_voices _ _ _ _ _ _ _ _ voices)
      as [[[audio voices_to_remove] | e] voices1]; cbn [fst snd] in *;
      [| exact Hmix].
    pose proof (@remove_voices_forall voices_to_remove voices1 Hmix) as Hrm.
    destruct (Engine.remove_voices voices_to_remove voices1)
      as [[[] | e] voices2]; cbn [fst snd] in *; [| exact Hrm].
    match goal with
    | |- context [set_column 0 ?a outdata] =>
        destruct (set_column 0 a outdata) as [[[] | e0] out0];
        cbn [fst snd]; [| exact Hrm];
        destruct (set_column 1 a out0) as [[[] | e1] out1];
        cbn [fst snd]; exact Hrm
    end. }
  unfold Engine.audio_callback, try_except_Exception.
  destruct (Engine.render _ _ _ _ _ _ _ _) as [[[] | e] [voices' out']];
    cbn [fst snd] in *; [exact Hrender |].
  destruct (isinstance_Exception e); exact Hrender.
Qed.
End PoolForall.

Lemma poly_generate_state_ok (frames : nat) (waveform : Z)
      (filter_cutoff detune : R) (self : PolyphonicVoice.t) :
  voice_state_ok self ->
  0 <= filter_cutoff ->
  voice_state_ok
    (snd (PolyphonicVoice.generate frames waveform filter_cutoff detune self)).
Proof.
  intros (Henv & Hfs & Hph) Hcut.
  unfold PolyphonicVoice.generate.
  destruct (PolyphonicVoice.is_finished self).
  { cbn [snd]. split; [exact Henv |]. split; assumption. }
  replace (PolyphonicVoice.sample_rate self =? 0)%Z with false
    by (symmetry; apply Z.eqb_neq; destruct Henv as (Hsr & _); lia).
  destruct (@poly_oscillator_range self frames waveform detune)
    as [Hlen Hosc].
  assert (Hwrap : 0 <= py_mod (PolyphonicVoice.phase self
                               + INR frames
                                 * PolyphonicVoice.phase_increment self detune)
                         (2 * PI) < 2 * PI).
  { apply py_mod_range. pose proof PI_RGT_0. lra. }
  destruct (PolyphonicVoice.filter_applies waveform filter_cutoff).
  - destruct (@poly_filter_loop_range (Rmin 0.5 (filter_cutoff / 6000))
                (PolyphonicVoice.oscillator self frames waveform detune)
                (filter_alpha_range Hcut) (PolyphonicVoice.filter_state self)
                Hfs Hosc) as (_ & _ & Hflast).
    destruct (PolyphonicVoice.filter_loop _ _ _) as [ys state].
    cbn [fst snd] in *.
    match goal with
    | |- context [PolyphonicVoice.update_envelope frames ?v] =>
        destruct (@poly_update_envelope_ok frames v)
          as (value & self' & Hup & _ & _ & Henv' & _ & Hf' & Hp');
        [exact Henv | rewrite Hup]
    end.
    cbn in Hf', Hp'. cbn [snd]. unfold voice_state_ok.
    rewrite Hf', Hp'. split; [exact Henv' |]. split; assumption.
  - match goal with
    | |- context [PolyphonicVoice.update_envelope frames ?v] =>
        destruct (@poly_update_envelope_ok frames v)
          as (value & self' & Hup & _ & _ & Henv' & _ & Hf' & Hp');
        [exact Henv | rewrite Hup]
    end.
    cbn in Hf', Hp'. cbn [snd]. unfold voice_state_ok.
    rewrite Hf', Hp'. split; [exact Henv' |]. split; assumption.
Qed.

Lemma fourpot_voice_ok_generate (sr : Z) (frames : nat) (waveform : Z)
      (filter_cutoff detune : R) (k : Z) (v : PolyphonicVoice.t) :
  0 <= filter_cutoff ->
  fourpot_voice_ok sr (k, v) ->
  fourpot_voice_ok sr
    (k, snd (PolyphonicVoice.generate frames waveform filter_cutoff detune v)).
Proof.
  intros Hcut (Hn & Hsr & Ha & Hd & Hs & Hr & Hst).
  pose proof (@poly_generate_settings frames waveform filter_cutoff detune v)
    as (S1 & _ & _ & S4 & S5 & S6 & S7 & S8).
  pose proof (@poly_generate_state_ok frames waveform filter_cutoff detune v
                Hst Hcut) as Hst'.
  unfold fourpot_voice_ok in *. cbn [fst snd] in *.
  rewrite S1, S4, S5, S6, S7, S8.
  repeat split; try assumption; try apply Ha; try apply Hd; try apply Hr;
    apply Hst'.
Qed.

Lemma fourpot_voice_ok_release (sr : Z) (k : Z) (v : PolyphonicVoice.t) :
  fourpot_voice_ok sr (k, v) ->
  fourpot_voice_ok sr (k, PolyphonicVoice.release v).
Proof.
  intros (Hn & Hsr & Ha & Hd & Hs & Hr & (Henv & Hfs & Hph)).
  unfold fourpot_voice_ok, voice_state_ok, envelope_ok in *.
  cbn [fst snd] in *. cbn.
  destruct Henv as (E1 & E2 & E3 & E4).
  repeat split; try assumption; try apply Ha; try apply Hd; try apply Hr;
    try apply E2; try apply E4; try apply Hfs; try apply Hph; lra.
Qed.

Lemma fourpot_voice_ok_init (sr : Z) (note velocity : Z)
      (self : FourPotMIDISynth.t) :
  (0 < sr)%Z ->
  0 <= FourPotMIDISynth.envelope_control self <= 1 ->
  fourpot_voice_ok sr
    (note,
     PolyphonicVoice.init note velocity sr
       (FourPotMIDISynth.get_envelope_params self)).
Proof.
  intros Hsr Hc.
  unfold fourpot_voice_ok, voice_state_ok, envelope_ok,
    FourPotMIDISynth.get_envelope_params.
  cbn. pose proof PI_RGT_0.
  repeat split; try reflexivity; try assumption; try lra.
Qed.

Lemma fourpot_ok_exec (sr : Z) (c : FourPotMIDISynth.call)
      (self : FourPotMIDISynth.t) :
  (0 < sr)%Z -> fourpot_ok sr self ->
  fourpot_ok sr (FourPotMIDISynth.exec c self).
Proof.
  intros Hpos Hok.
  assert (Hon : forall note velocity,
             fourpot_ok sr (snd (FourPotMIDISynth.note_on note velocity self))).
  { intros note velocity.
    destruct Hok as (Hsr & Hc & Hv & Hf & Hw & Hall).
    unfold FourPotMIDISynth.note_on.
    pose proof (@note_on_forall _ (fourpot_voice_ok sr)
                  (FourPotMIDISynth.max_voices self) note
                  (PolyphonicVoice.init note velocity
                     (FourPotMIDISynth.sample_rate self)
                     (FourPotMIDISynth.get_envelope_params self))
                  (FourPotMIDISynth.voices self) Hall) as H.
    rewrite Hsr in *.
    specialize (H (fourpot_voice_ok_init note velocity self Hpos Hc)).
    destruct (Engine.note_on _ _ _ _) as [r voices'].
    unfold fourpot_ok. cbn. repeat split; try assumption;
      try apply Hc; try apply Hv; try apply Hf; try apply Hw. }
  assert (Hoff : forall note,
             fourpot_ok sr (snd (FourPotMIDISynth.note_off note self))).
  { intros note.
    destruct Hok as (Hsr & Hc & Hv & Hf & Hw & Hall).
    unfold FourPotMIDISynth.note_off.
    pose proof (@note_off_forall _ (fourpot_voice_ok sr)
                  PolyphonicVoice.release note (FourPotMIDISynth.voices self)
                  (@fourpot_voice_ok_release sr) Hall) as H.
    destruct (Engine.note_off _ _ _) as [r voices'].
    unfold fourpot_ok. cbn. repeat split; try assumption;
      try apply Hc; try apply Hv; try apply Hf; try apply Hw. }
  assert (Hcc : forall controller value,
             fourpot_ok sr (FourPotMIDISynth.handle_cc controller value self)).
  { intros controller value. unfold FourPotMIDISynth.handle_cc.
    destruct (controller =? 70)%Z; [exact Hok |].
    destruct (controller =? 71)%Z; exact Hok. }
  destruct c as [note velocity | note | controller value | msg
                | vol_raw wave_raw filter_raw env_raw | outdata frames];
    cbn [FourPotMIDISynth.exec].
  - apply Hon.
  - apply Hoff.
  - apply Hcc.
  - unfold FourPotMIDISynth.midi_callback.
    rewrite try_except_keeps_state.
    destruct msg as [| status [| note [| velocity rest]]]; try exact Hok.
    destruct ((144 <=? status)%Z && (status <=? 159)%Z && (velocity >? 0)%Z);
      [apply Hon |].
    destruct ((128 <=? status)%Z && (status <=? 143)%Z
              || (144 <=? status)%Z && (status <=? 159)%Z && (velocity =? 0)%Z);
      [apply Hoff |].
    destruct ((176 <=? status)%Z && (status <=? 191)%Z);
      [apply Hcc | exact Hok].
  - destruct Hok as (Hsr & Hc & Hv & Hf & Hw & Hall).
    unfold fourpot_ok, FourPotMIDISynth.read_potentiometers. cbn.
    pose proof (clamp_range ((IZR vol_raw - 3) / (26335 - 3))).
    pose proof (clamp_range ((IZR filter_raw - 15) / (26323 - 15))).
    pose proof (clamp_range ((IZR env_raw - 15) / (26320 - 15))) as He.
    split; [exact Hsr |]. split; [exact He |].
    split; [lra |]. split; [lra |].
    split; [rdec; lia | exact Hall].
  - destruct Hok as (Hsr & Hc & Hv & Hf & Hw & Hall).
    unfold FourPotMIDISynth.audio_callback.
    pose proof (@audio_callback_forall _ (fourpot_voice_ok sr)
                  PolyphonicVoice.is_finished PolyphonicVoice.generate
                  frames (FourPotMIDISynth.waveform self)
                  (FourPotMIDISynth.filter_cutoff self)
                  (FourPotMIDISynth.detune self)
                  (FourPotMIDISynth.master_volume self)
                  (FourPotMIDISynth.voices self) outdata) as H.
    specialize (H ltac:(intros k v Hkv; apply fourpot_voice_ok_generate;
                        [lra | exact Hkv]) Hall).
    destruct (Engine.audio_callback _ _ _ _ _ _ _ _) as [r st'].
    unfold fourpot_ok. cbn. repeat split; try assumption;
      try apply Hc; try apply Hv; try apply Hf; try apply Hw.
Qed.

Lemma fourpot_ok_run (sr : Z) (calls : list FourPotMIDISynth.call) :
  (0 < sr)%Z ->
  forall self : FourPotMIDISynth.t,
    fourpot_ok sr self -> fourpot_ok sr (FourPotMIDISynth.run calls self).
Proof.
  intros Hpos.
  induction calls as [| c rest IH]; intros self Hok; cbn.
  - exact Hok.
  - apply IH, fourpot_ok_exec; assumption.
Qed.

Lemma fourpot_ok_init (sr blocksize : Z) :
  fourpot_ok sr (FourPotMIDISynth.init sr blocksize).
Proof.
  unfold fourpot_ok. cbn. repeat split; try lra; try lia. constructor.
Qed.

(** X20. In every state a [FourPotMIDISynth] built with a positive sample
    rate can reach, by any calls in any order, the parameters are in range
    (master volume within [0, 0.8], filter cutoff within [200, 8000] Hz,
    waveform 0 to 3, envelope control within [0, 1]) and every voice in the
    pool is stored under its own note, runs at the synth's sample rate, has
    strictly positive attack, decay and release times and sustain level 0.7,
    an envelope value within [0, 1], a filter memory within [-1, 1] and a
    phase within [0, 2 pi).  In particular no voice the synth holds ever
    takes a zero-time branch of [update_envelope]. *)
Theorem fourpot_reachable_states_are_well_formed :
  forall (sample_rate blocksize : Z) (calls : list FourPotMIDISynth.call),
    (0 < sample_rate)%Z ->
    let self :=
      FourPotMIDISynth.run calls
        (FourPotMIDISynth.init sample_rate blocksize) in
    FourPotMIDISynth.sample_rate self = sample_rate
    /\ 0 <= FourPotMIDISynth.master_volume self <= 0.8
    /\ 200 <= FourPotMIDISynth.filter_cutoff self <= 8000
    /\ (0 <= FourPotMIDISynth.waveform self <= 3)%Z
    /\ 0 <= FourPotMIDISynth.envelope_control self <= 1
    /\ forall note voice,
        dict_get note (FourPotMIDISynth.voices self) = Some voice ->
        PolyphonicVoice.note voice = note
        /\ PolyphonicVoice.sample_rate voice = sample_rate
        /\ 0 < PolyphonicVoice.attack_time voice
        /\ 0 < PolyphonicVoice.decay_time voice
        /\ 0 < PolyphonicVoice.release_time voice
        /\ PolyphonicVoice.sustain_level voice = 0.7
        /\ 0 <= PolyphonicVoice.envelope_value voice <= 1
        /\ -1 <= PolyphonicVoice.filter_state voice <= 1
        /\ 0 <= PolyphonicVoice.phase voice < 2 * PI.
Proof.
  intros sample_rate blocksize calls Hpos self.
  pose proof (@fourpot_ok_run sample_rate calls Hpos
                (FourPotMIDISynth.init sample_rate blocksize)
                (fourpot_ok_init sample_rate blocksize)) as Hok.
  fold self in Hok.
  destruct Hok as (Hsr & Hc & Hv & Hf & Hw & Hall).
  split; [exact Hsr |]. split; [exact Hv |]. split; [exact Hf |].
  split; [exact Hw |]. split; [exact Hc |].
  intros note voice Hget.
  apply dict_get_In in Hget.
  rewrite Forall_forall in Hall. specialize (Hall _ Hget).
  destruct Hall as (Hn & Hs & Ha & Hd & Hsus & Hr & (Henv & Hfs & Hph)).
  cbn [fst snd] in *.
  destruct Henv as (_ & _ & _ & Hval).
  repeat split; try assumption; try lra; try apply Hval; try apply Hfs;
    apply Hph.
Qed.

Lemma reachable_state_after_a_note_and_a_block :
  let self :=
    FourPotMIDISynth.run
      [FourPotMIDISynth.NoteOn 60 100;
       FourPotMIDISynth.AudioCallback stale_outdata 4]
      (FourPotMIDISynth.init 44100 512) in
  FourPotMIDISynth.sample_rate self = 44100%Z
  /\ 0 <= FourPotMIDISynth.master_volume self <= 0.8
  /\ 200 <= FourPotMIDISynth.filter_cutoff self <= 8000.
Proof.
  intros self.
  destruct (@fourpot_reachable_states_are_well_formed 44100 512
              [FourPotMIDISynth.NoteOn 60 100;
               FourPotMIDISynth.AudioCallback stale_outdata 4]
              ltac:(lia)) as (Hsr & Hv & Hf & _).
  split; [exact Hsr |]. split; [exact Hv | exact Hf].
Defined.

(** ** A note from note-off to its removal *)








(** ** [note_on] below capacity *)

Lemma note_on_below_capacity (V : Type) (max_voices note : Z)
      (new_voice : V) (voices : dict V) :
  dict_mem note voices = false ->
  (Z.of_nat (length voices) < max_voices)%Z ->
  Engine.note_on max_voices note new_voice voices
  = (Return tt, voices ++ [(note, new_voice)]).
Proof.
  intros Hnew Hroom.
  rewrite note_on_unfold. cbv zeta. rewrite Hnew.
  replace (Z.of_nat (length voices) >=? max_voices)%Z with false
    by (symmetry; rewrite Z.geb_leb; apply Z.leb_gt; exact Hroom).
  rewrite dict_set_new by exact Hnew. reflexivity.
Qed.

Lemma dict_get_app_old (V : Type) (k note : Z) (new_voice : V)
      (d : dict V) :
  k <> note -> dict_get k (d ++ [(note, new_voice)]) = dict_get k d.
Proof.
  intros Hne.
  induction d as [| [k0 v0] rest IH]; cbn.
  - replace (note =? k)%Z with false
      by (symmetry; apply Z.eqb_neq; congruence).
    reflexivity.
  - destruct (k0 =? k)%Z; [reflexivity | exact IH].
Qed.

(** X22. When [note_on] is called for a note that has no voice while the
    pool holds fewer than [max_voices] voices, nothing is evicted: the call
    succeeds, the new voice is appended after the existing entries, the pool
    grows by one, and every note that was playing keeps the voice it had.
    Holds for both synths. *)
Theorem note_on_below_capacity_appends :
  (forall (self : FourPotMIDISynth.t) (note velocity : Z),
      dict_mem note (FourPotMIDISynth.voices self) = false ->
      (Z.of_nat (length (FourPotMIDISynth.voices self))
       < FourPotMIDISynth.max_voices self)%Z ->
      let done := FourPotMIDISynth.note_on note velocity self in
      fst done = Return tt
      /\ FourPotMIDISynth.voices (snd done)
         = FourPotMIDISynth.voices self
           ++ [(note,
                PolyphonicVoice.init note velocity
                  (FourPotMIDISynth.sample_rate self)
                  (FourPotMIDISynth.get_envelope_params self))]
      /\ length (FourPotMIDISynth.voices (snd done))
         = S (length (FourPotMIDISynth.voices self))
      /\ forall k, k <> note ->
                   dict_get k (FourPotMIDISynth.voices (snd done))
                   = dict_get k (FourPotMIDISynth.voices self))
  /\ (forall (self : MPKOnlySynth.t) (note velocity : Z),
         dict_mem note (MPKOnlySynth.voices self) = false ->
         (Z.of_nat (length (MPKOnlySynth.voices self))
          < MPKOnlySynth.max_voices self)%Z ->
         let done := MPKOnlySynth.note_on note velocity self in
         fst done = Return tt
         /\ MPKOnlySynth.voices (snd done)
            = MPKOnlySynth.voices self
              ++ [(note,
                   MPKVoice.init note velocity (MPKOnlySynth.sample_rate self)
                     (MPKOnlySynth.get_synth_params self))]
         /\ length (MPKOnlySynth.voices (snd done))
            = S (length (MPKOnlySynth.voices self))
         /\ forall k, k <> note ->
                      dict_get k (MPKOnlySynth.voices (snd done))
                      = dict_get k (MPKOnlySynth.voices self)).
Proof.
  split; intros self note velocity Hnew Hroom done; subst done.
  - unfold FourPotMIDISynth.note_on.
    rewrite (@note_on_below_capacity _ _ _ _ _ Hnew Hroom).
    cbn [fst snd FourPotMIDISynth.voices FourPotMIDISynth.with_voices].
    split; [reflexivity |]. split; [reflexivity |].
    split; [rewrite length_app; cbn; lia |].
    intros k Hk. apply dict_get_app_old. exact Hk.
  - unfold MPKOnlySynth.note_on.
    rewrite (@note_on_below_capacity _ _ _ _ _ Hnew Hroom).
    cbn [fst snd MPKOnlySynth.voices MPKOnlySynth.with_voices].
    split; [reflexivity |]. split; [reflexivity |].
    split; [rewrite length_app; cbn; lia |].
    intros k Hk. apply dict_get_app_old. exact Hk.
Qed.

Lemma second_note_joins_the_first :
  let self := snd (MPKOnlySynth.note_on 60 100
                     (MPKOnlySynth.init 44100 512)) in
  dict_keys (MPKOnlySynth.voices (snd (MPKOnlySynth.note_on 64 100 self)))
  = [60; 64]%Z.
Proof.
  intros self.
  destruct (proj2 note_on_below_capacity_appends self 64%Z 100%Z)
    as (_ & Hvoices & _).
  - reflexivity.
  - cbn. lia.
  - rewrite Hvoices. reflexivity.
Defined.

(** ** States an [MPKOnlySynth] can be in *)

Lemma mpk_generate_of_mpk (frames : nat) (waveform : Z)
      (filter_cutoff detune : R) (m : MPKVoice.t) :
  of_mpk (snd (MPKVoice.generate frames waveform filter_cutoff detune m))
  = snd (PolyphonicVoice.generate frames waveform filter_cutoff detune
           (of_mpk m)).
Proof.
  rewrite <- (to_mpk_of_mpk m) at 1.
  rewrite generate_lockstep. unfold map_self. cbn [snd].
  apply of_mpk_to_mpk.
Qed.

Lemma mpk_voice_ok_generate (sr : Z) (frames : nat) (waveform : Z)
      (filter_cutoff detune : R) (k : Z) (v : MPKVoice.t) :
  0 <= filter_cutoff ->
  mpk_voice_ok sr (k, v) ->
  mpk_voice_ok sr
    (k, snd (MPKVoice.generate frames waveform filter_cutoff detune v)).
Proof.
  intros Hcut (Hn & Hsr & Ha & Hd & Hs & Hr & Hst).
  cbn [fst snd] in *.
  pose proof (@poly_generate_settings frames waveform filter_cutoff detune
                (of_mpk v)) as (S1 & _ & _ & S4 & S5 & S6 & S7 & S8).
  pose proof (@poly_generate_state_ok frames waveform filter_cutoff detune
                (of_mpk v) Hst Hcut) as Hst'.
  rewrite <- mpk_generate_of_mpk in S1, S4, S5, S6, S7, S8, Hst'.
  set (v' := snd (MPKVoice.generate frames waveform filter_cutoff detune v))
    in *.
  change (PolyphonicVoice.note (of_mpk v')) with (MPKVoice.note v') in S1.
  change (PolyphonicVoice.sample_rate (of_mpk v'))
    with (MPKVoice.sample_rate v') in S4.
  change (PolyphonicVoice.attack_time (of_mpk v'))
    with (MPKVoice.attack_time v') in S5.
  change (PolyphonicVoice.decay_time (of_mpk v'))
    with (MPKVoice.decay_time v') in S6.
  change (PolyphonicVoice.sustain_level (of_mpk v'))
    with (MPKVoice.sustain_level v') in S7.
  change (PolyphonicVoice.release_time (of_mpk v'))
    with (MPKVoice.release_time v') in S8.
  cbn in S1, S4, S5, S6, S7, S8.
  unfold mpk_voice_ok. cbn [fst snd].
  rewrite S1, S4, S5, S6, S7, S8.
  split; [exact Hn |]. split; [exact Hsr |]. split; [exact Ha |].
  split; [exact Hd |]. split; [exact Hs |]. split; [exact Hr | exact Hst'].
Qed.

Lemma mpk_voice_ok_release (sr : Z) (k : Z) (v : MPKVoice.t) :
  mpk_voice_ok sr (k, v) -> mpk_voice_ok sr (k, MPKVoice.release v).
Proof.
  intros (Hn & Hsr & Ha & Hd & Hs & Hr & (Henv & Hfs & Hph)).
  unfold mpk_voice_ok, voice_state_ok, envelope_ok in *.
  cbn [fst snd] in *. cbn in *.
  destruct Henv as (E1 & E2 & E3 & E4).
  split; [exact Hn |]. split; [exact Hsr |]. split; [exact Ha |].
  split; [exact Hd |]. split; [exact Hs |]. split; [exact Hr |].
  split; [| split; assumption].
  split; [exact E1 |]. split; [exact E2 |]. split; [lra | exact E4].
Qed.

Lemma mpk_voice_ok_init (sr : Z) (note velocity : Z) (self : MPKOnlySynth.t) :
  (0 < sr)%Z -> mpk_ok sr self ->
  mpk_voice_ok sr
    (note, MPKVoice.init note velocity sr (MPKOnlySynth.get_synth_params self)).
Proof.
  intros Hsr (_ & _ & _ & _ & Ha & Hd & Hs & Hr & _).
  unfold mpk_voice_ok, voice_state_ok, envelope_ok. cbn.
  pose proof PI_RGT_0.
  split; [reflexivity |]. split; [reflexivity |]. split; [exact Ha |].
  split; [exact Hd |]. split; [exact Hs |]. split; [exact Hr |].
  split; [| split; lra].
  split; [exact Hsr |]. split; [exact Hs |]. split; lra.
Qed.

Lemma mpk_ok_handle_knob (sr : Z) (controller value : Z)
      (self : MPKOnlySynth.t) :
  (0 <= value <= 127)%Z -> mpk_ok sr self ->
  mpk_ok sr (MPKOnlySynth.handle_knob controller value self).
Proof.
  intros Hbyte Hok.
  pose proof (midi_value_norm Hbyte) as Hn.
  destruct Hok as (Hsr & Hv & Hf & Hw & Ha & Hd & Hs & Hr & Hdt & Hall).
  unfold MPKOnlySynth.handle_knob. cbv zeta.
  repeat match goal with
         | |- context [(controller =? ?n)%Z] =>
             destruct (controller =? n)%Z;
             [rdec; unfold mpk_ok; cbn;
              repeat (split; [first [assumption | lra | lia] |]);
              first [assumption | lra | lia] |]
         end.
  unfold mpk_ok.
  repeat (split; [assumption |]). assumption.
Qed.

Lemma mpk_ok_exec (sr : Z) (c : MPKOnlySynth.call) (self : MPKOnlySynth.t) :
  (0 < sr)%Z -> mpk_call_wf c -> mpk_ok sr self ->
  mpk_ok sr (MPKOnlySynth.exec c self).
Proof.
  intros Hpos Hwf Hok.
  assert (Hon : forall note velocity,
             mpk_ok sr (snd (MPKOnlySynth.note_on note velocity self))).
  { intros note velocity.
    pose proof (@mpk_voice_ok_init sr note velocity self Hpos Hok) as Hnew.
    destruct Hok as (Hsr & Hv & Hf & Hw & Ha & Hd & Hs & Hr & Hdt & Hall).
    unfold MPKOnlySynth.note_on.
    pose proof (@note_on_forall _ (mpk_voice_ok sr)
                  (MPKOnlySynth.max_voices self) note
                  (MPKVoice.init note velocity
                     (MPKOnlySynth.sample_rate self)
                     (MPKOnlySynth.get_synth_params self))
                  (MPKOnlySynth.voices self) Hall) as H.
    rewrite Hsr in *. specialize (H Hnew).
    destruct (Engine.note_on _ _ _ _) as [r voices'].
    unfold mpk_ok. cbn [snd]. cbn.
    repeat (split; [assumption |]). exact H. }
  assert (Hoff : forall note,
             mpk_ok sr (snd (MPKOnlySynth.note_off note self))).
  { intros note.
    destruct Hok as (Hsr & Hv & Hf & Hw & Ha & Hd & Hs & Hr & Hdt & Hall).
    unfold MPKOnlySynth.note_off.
    pose proof (@note_off_forall _ (mpk_voice_ok sr)
                  MPKVoice.release note (MPKOnlySynth.voices self)
                  (@mpk_voice_ok_release sr) Hall) as H.
    destruct (Engine.note_off _ _ _) as [r voices'].
    unfold mpk_ok. cbn [snd]. cbn.
    repeat (split; [assumption |]). exact H. }
  destruct c as [note velocity | note | controller value | msg
                | outdata frames];
    cbn [MPKOnlySynth.exec].
  - apply Hon.
  - apply Hoff.
  - apply mpk_ok_handle_knob; assumption.
  - unfold MPKOnlySynth.midi_callback.
    rewrite try_except_keeps_state.
    destruct msg as [| status [| data1 [| data2 rest]]]; try exact Hok.
    cbn in Hwf.
    destruct ((144 <=? status)%Z && (status <=? 159)%Z && (data2 >? 0)%Z);
      [apply Hon |].
    destruct ((128 <=? status)%Z && (status <=? 143)%Z
              || (144 <=? status)%Z && (status <=? 159)%Z && (data2 =? 0)%Z);
      [apply Hoff |].
    destruct ((176 <=? status)%Z && (status <=? 191)%Z);
      [apply mpk_ok_handle_knob; assumption | exact Hok].
  - destruct Hok as (Hsr & Hv & Hf & Hw & Ha & Hd & Hs & Hr & Hdt & Hall).
    unfold MPKOnlySynth.audio_callback.
    pose proof (@audio_callback_forall _ (mpk_voice_ok sr)
                  MPKVoice.is_finished MPKVoice.generate
                  frames (MPKOnlySynth.waveform self)
                  (MPKOnlySynth.filter_cutoff self)
                  (MPKOnlySynth.detune self)
                  (MPKOnlySynth.master_volume self)
                  (MPKOnlySynth.voices self) outdata) as H.
    specialize (H ltac:(intros k v Hkv; apply mpk_voice_ok_generate;
                        [lra | exact Hkv]) Hall).
    destruct (Engine.audio_callback _ _ _ _ _ _ _ _) as [r st'].
    unfold mpk_ok. cbn [fst snd]. cbn.
    repeat (split; [assumption |]). exact H.
Qed.

Lemma mpk_ok_run (sr : Z) (calls : list MPKOnlySynth.call) :
  (0 < sr)%Z ->
  Forall mpk_call_wf calls ->
  forall self : MPKOnlySynth.t,
    mpk_ok sr self -> mpk_ok sr (MPKOnlySynth.run calls self).
Proof.
  intros Hpos Hwf.
  induction Hwf as [| c rest Hc _ IH]; intros self Hok; cbn.
  - exact Hok.
  - apply IH, mpk_ok_exec; assumption.
Qed.

Lemma mpk_ok_init (sr blocksize : Z) :
  mpk_ok sr (MPKOnlySynth.init sr blocksize).
Proof.
  unfold mpk_ok. cbn.
  repeat (split; [first [reflexivity | lra | lia] |]). constructor.
Qed.

(** X23. In every state an [MPKOnlySynth] built with a positive sample rate
    can reach by calls whose knob values are MIDI values (0 to 127), the
    parameters are in range (master volume within [0, 0.8], cutoff within
    [200, 8000] Hz, waveform 0 to 3, detune within [-100, 100] cents, attack,
    decay and release times strictly positive, sustain within [0, 1]) and
    every voice in the pool is stored under its own note, runs at the synth's
    sample rate, has strictly positive attack, decay and release times, a
    sustain level and an envelope value within [0, 1], a filter memory
    within [-1, 1] and a phase within [0, 2 pi). *)
Theorem mpk_reachable_states_are_well_formed :
  forall (sample_rate blocksize : Z) (calls : list MPKOnlySynth.call),
    (0 < sample_rate)%Z ->
    Forall mpk_call_wf calls ->
    let self :=
      MPKOnlySynth.run calls (MPKOnlySynth.init sample_rate blocksize) in
    MPKOnlySynth.sample_rate self = sample_rate
    /\ 0 <= MPKOnlySynth.master_volume self <= 0.8
    /\ 200 <= MPKOnlySynth.filter_cutoff self <= 8000
    /\ (0 <= MPKOnlySynth.waveform self <= 3)%Z
    /\ -100 <= MPKOnlySynth.detune self <= 100
    /\ 0 < MPKOnlySynth.attack_time self
    /\ 0 < MPKOnlySynth.decay_time self
    /\ 0 < MPKOnlySynth.release_time self
    /\ 0 <= MPKOnlySynth.sustain_level self <= 1
    /\ forall note voice,
        dict_get note (MPKOnlySynth.voices self) = Some voice ->
        MPKVoice.note voice = note
        /\ MPKVoice.sample_rate voice = sample_rate
        /\ 0 < MPKVoice.attack_time voice
        /\ 0 < MPKVoice.decay_time voice
        /\ 0 < MPKVoice.release_time voice
        /\ 0 <= MPKVoice.sustain_level voice <= 1
        /\ 0 <= MPKVoice.envelope_value voice <= 1
        /\ -1 <= MPKVoice.filter_state voice <= 1
        /\ 0 <= MPKVoice.phase voice < 2 * PI.
Proof.
  intros sample_rate blocksize calls Hpos Hwf self.
  pose proof (@mpk_ok_run sample_rate calls Hpos Hwf
                (MPKOnlySynth.init sample_rate blocksize)
                (mpk_ok_init sample_rate blocksize)) as Hok.
  fold self in Hok.
  destruct Hok as (Hsr & Hv & Hf & Hw & Ha & Hd & Hs & Hr & Hdt & Hall).
  split; [exact Hsr |]. split; [exact Hv |]. split; [exact Hf |].
  split; [exact Hw |]. split; [exact Hdt |].
  split; [lra |]. split; [lra |]. split; [lra |]. split; [exact Hs |].
  intros note voice Hget.
  apply dict_get_In in Hget.
  rewrite Forall_forall in Hall. specialize (Hall _ Hget).
  destruct Hall as (Hn & Hvs & Hva & Hvd & Hvsus & Hvr & (Henv & Hfs & Hph)).
  cbn [fst snd] in *.
  destruct Henv as (_ & _ & _ & Hval).
  split; [exact Hn |]. split; [exact Hvs |].
  split; [lra |]. split; [lra |]. split; [lra |]. split; [exact Hvsus |].
  split; [exact Hval |]. split; [exact Hfs | exact Hph].
Qed.

Lemma mpk_state_after_knob_and_note :
  let self :=
    MPKOnlySynth.run
      [MPKOnlySynth.HandleKnob 76 0; MPKOnlySynth.NoteOn 60 100]
      (MPKOnlySynth.init 44100 512) in
  0 < MPKOnlySynth.release_time self
  /\ forall voice,
      dict_get 60 (MPKOnlySynth.voices self) = Some voice ->
      0 < MPKVoice.release_time voice.
Proof.
  intros self.
  destruct (@mpk_reachable_states_are_well_formed 44100 512
              [MPKOnlySynth.HandleKnob 76 0; MPKOnlySynth.NoteOn 60 100]
              ltac:(lia)
              ltac:(repeat constructor; cbn; lia))
    as (_ & _ & _ & _ & _ & _ & _ & Hr & _ & Hvoices).
  split; [exact Hr |].
  intros voice Hget.
  destruct (Hvoices 60%Z voice Hget) as (_ & _ & _ & _ & Hvr & _).
  exact Hvr.
Defined.
